(** * node-docker-api: resource handles, managers and request descriptors

    A shallow embedding of the TypeScript sources ([src/*.ts]): every
    class of the library is a module below, every method a definition in
    a small promise monad over an explicit object heap and an explicit
    script of what the transport collaborator (docker-modem) delivers to
    the completion callbacks. *)

From Stdlib Require Import ZArith Ascii DecimalString.
From stdpp Require Import base list strings.

Open Scope string_scope.
Open Scope list_scope.

(** ** The fragment of JavaScript values the library touches *)

(** Values that callers pass as option bags and that the transport
    delivers to the callbacks.  Numbers are integers (only their
    truthiness and their decimal rendering in a path are ever used);
    objects are association lists in insertion order, with distinct
    keys; a stream is the finite list of chunks it emits on ['data']
    (each chunk given by its [toString()]) and whether ['end'] is ever
    emitted after them. *)
#[warnings="-register-all"]
Inductive value : Type :=
| VUndef
| VNull
| VBool (b : bool)
| VNum (n : Z)
| VStr (s : string)
| VArr (elems : list value)
| VObj (props : list (string * value))
| VStream (chunks : list string) (ends : bool).

(** The only exception the library's own code can raise. *)
Inductive exn : Type := TypeError.

(** Completion of a JavaScript expression: a value or a thrown exception. *)
Inductive completion (A : Type) : Type :=
| Normal (a : A)
| Throw (x : exn).
Arguments Normal {A} a.
Arguments Throw {A} x.

(** [if (v)], [!v], [!!v] *)
Definition truthy (v : value) : bool :=
  match v with
  | VUndef | VNull => false
  | VBool b => b
  | VNum n => negb (n =? 0)%Z
  | VStr s => negb (String.eqb s "")
  | VArr _ | VObj _ | VStream _ _ => true
  end.

(** Own property of an object literal or of a parsed JSON object. *)
Fixpoint assoc {A : Type} (k : string) (ps : list (string * A)) : option A :=
  match ps with
  | [] => None
  | (k', v) :: ps' => if String.eqb k k' then Some v else assoc k ps'
  end.

(** [o[k] = v] on an association list: overwrite in place, else append. *)
Fixpoint assign {A : Type} (k : string) (v : A) (ps : list (string * A))
  : list (string * A) :=
  match ps with
  | [] => [(k, v)]
  | (k', v') :: ps' =>
      if String.eqb k k' then (k, v) :: ps' else (k', v') :: assign k v ps'
  end.

(** [v.k] for a named (non-index) property [k]: reading from [undefined]
    or [null] throws, arrays and strings have [length], a missing
    property is [undefined]. *)
Definition get_prop (v : value) (k : string) : completion value :=
  match v with
  | VUndef | VNull => Throw TypeError
  | VObj ps => Normal (default VUndef (assoc k ps))
  | VArr l => Normal (if String.eqb k "length" then VNum (Z.of_nat (length l)) else VUndef)
  | VStr s => Normal (if String.eqb k "length" then VNum (Z.of_nat (String.length s)) else VUndef)
  | VBool _ | VNum _ | VStream _ _ => Normal VUndef
  end.

(** [v?.k]: optional chaining short-circuits to [undefined] on
    [undefined] and [null]. *)
Definition get_prop_opt (v : value) (k : string) : value :=
  match get_prop v k with
  | Normal x => x
  | Throw _ => VUndef
  end.

(** A parameter default [(opts = {})] applies to [undefined] only. *)
Definition default_param (dflt v : value) : value :=
  match v with
  | VUndef => dflt
  | _ => v
  end.

(** [v.k = x] in strict mode (every source file starts with
    ['use strict']): throws on [undefined], [null] and on primitives.
    Arrays and streams accept the assignment as an extra own property,
    which this value type does not record. *)
Definition set_prop (v : value) (k : string) (x : value) : completion value :=
  match v with
  | VObj ps => Normal (VObj (assign k x ps))
  | VArr _ | VStream _ _ => Normal v
  | VUndef | VNull | VBool _ | VNum _ | VStr _ => Throw TypeError
  end.

(** String conversion performed by a template literal [`${v}`]. *)
Fixpoint to_string (v : value) : string :=
  match v with
  | VUndef => "undefined"
  | VNull => "null"
  | VBool true => "true"
  | VBool false => "false"
  | VNum n => NilZero.string_of_int (Z.to_int n)
  | VStr s => s
  | VArr l =>
      (fix join (l : list value) : string :=
         match l with
         | [] => ""
         | x :: rest =>
             let sx := match x with
                       | VUndef | VNull => ""
                       | _ => to_string x
                       end in
             match rest with
             | [] => sx
             | _ :: _ => sx +:+ "," +:+ join rest
             end
         end) l
  | VObj _ | VStream _ _ => "[object Object]"
  end.

Fixpoint string_drop (n : nat) (s : string) : string :=
  match n, s with
  | O, _ => s
  | S n', String _ s' => string_drop n' s'
  | S _, EmptyString => EmptyString
  end.

(** [s.replace(pat, rep)] with a string pattern: only the first
    occurrence of [pat], wherever it is, is replaced.  ([rep] is taken
    literally; the library only ever passes [''].) *)
Fixpoint replace (pat rep s : string) : string :=
  if String.prefix pat s then rep +:+ string_drop (String.length pat) s
  else match s with
       | EmptyString => EmptyString
       | String c s' => String c (replace pat rep s')
       end.

(** [res.join('')] *)
Definition join_chunks (res : list string) : string :=
  foldr String.append "" res.

(** Decimal index keys ["0"], ["1"], ... of an array or string source. *)
Definition index_key (i : nat) : string := NilZero.string_of_uint (Nat.to_uint i).

Fixpoint chars (s : string) : list value :=
  match s with
  | EmptyString => []
  | String c s' => VStr (String c EmptyString) :: chars s'
  end.

(** Own enumerable string-keyed properties, in order, as
    [Object.assign] reads them from a source.  (A stream delivered
    where a JSON body was expected is treated as having none.) *)
Definition own_enumerable (src : value) : list (string * value) :=
  match src with
  | VObj ps => ps
  | VArr l => imap (fun i x => (index_key i, x)) l
  | VStr s => imap (fun i x => (index_key i, x)) (chars s)
  | VUndef | VNull | VBool _ | VNum _ | VStream _ _ => []
  end.

(** ** Request descriptors

    The object literal [call] every method builds and hands to
    [modem.dial].  Optional keys are [None] when the literal does not
    mention them; a mentioned key holds whatever value the expression
    evaluated to, [undefined] included. *)

Inductive verb : Type := GET | POST | PUT | DELETE | HEAD.

(** An entry of the [statusCodes] table: [true] or an error label. *)
Inductive status : Type :=
| Success
| Label (msg : string).

Record call : Type := Call {
  path : string;
  method : verb;
  options : option value;
  statusCodes : list (Z * status);
  isStream : option value;
  hijack : option value;
  openStdin : option value;
  file : option value;
  authconfig : option value;
  registryconfig : option value
}.

(** The four keys nearly every literal has. *)
Definition request (p : string) (m : verb) (o : option value)
    (codes : list (Z * status)) : call :=
  Call p m o codes None None None None None None.

Definition with_isStream (v : value) (c : call) : call :=
  Call (path c) (method c) (options c) (statusCodes c) (Some v)
       (hijack c) (openStdin c) (file c) (authconfig c) (registryconfig c).
Definition with_hijack (v : value) (c : call) : call :=
  Call (path c) (method c) (options c) (statusCodes c) (isStream c)
       (Some v) (openStdin c) (file c) (authconfig c) (registryconfig c).
Definition with_openStdin (v : value) (c : call) : call :=
  Call (path c) (method c) (options c) (statusCodes c) (isStream c)
       (hijack c) (Some v) (file c) (authconfig c) (registryconfig c).
Definition with_file (v : value) (c : call) : call :=
  Call (path c) (method c) (options c) (statusCodes c) (isStream c)
       (hijack c) (openStdin c) (Some v) (authconfig c) (registryconfig c).
Definition with_authconfig (v : value) (c : call) : call :=
  Call (path c) (method c) (options c) (statusCodes c) (isStream c)
       (hijack c) (openStdin c) (file c) (Some v) (registryconfig c).
Definition with_registryconfig (v : value) (c : call) : call :=
  Call (path c) (method c) (options c) (statusCodes c) (isStream c)
       (hijack c) (openStdin c) (file c) (authconfig c) (Some v).

(** [statusCodes[code]] *)
Fixpoint code_entry (code : Z) (codes : list (Z * status)) : option status :=
  match codes with
  | [] => None
  | (c, s) :: rest => if (code =? c)%Z then Some s else code_entry code rest
  end.

(** ** Objects, the heap and the transport script *)

(** A transport collaborator instance (a [Modem] object), by identity. *)
Definition Modem : Type := nat.

(** Object references: positions in the heap. *)
Abbreviation loc := nat (only parsing).

(** The seven handle classes with exactly the fields
    [modem], [id] and [data = {}]. *)
Inductive kind : Type :=
| KImage | KVolume | KNetwork | KNode | KService | KTask | KSecret.

(** What the [modem] property of a [Plugin] holds: the collaborator,
    unless [Object.assign] overwrote it with a value of the same name
    found in a response body. *)
Inductive field : Type :=
| FModem (m : Modem)
| FVal (v : value).

(** One constructor per class shape, the arguments being the instance
    fields in declaration order.  A [Plugin] has the two fields its
    constructor sets plus whatever [Object.assign] copied onto it. *)
Inductive obj : Type :=
| OExec (modem : Modem) (container : loc) (id data : value)
| OExecManager (modem : Modem) (container : loc)
| OContainerFs (modem : Modem) (container : loc)
| OContainer (modem : Modem) (id : value) (fs exec : loc) (Warnings data : value)
| OHandle (k : kind) (modem : Modem) (id data : value)
| OSwarm (modem : Modem) (data : value)
| OPlugin (modem : field) (id : value) (extra : list (string * value)).

(** What the collaborator passes to a completion callback:
    [callback(err, result)]. *)
Record response : Type := Response { err : value; result : value }.

(** The state a method runs in: the object heap, the responses the
    collaborator will deliver to the next callbacks (in order; none left
    means it never completes), and the log of descriptors dialed. *)
Record world : Type := World {
  heap : list obj;
  wire : list response;
  dialed : list (Modem * call)
}.

(** How the promise returned by a method ends up.
    - [Resolved a]: [resolve(a)] was called;
    - [Rejected e]: [reject(e)] was called;
    - [Threw x]: the method body or the promise executor threw, so the
      promise is rejected with the exception and nothing was delivered;
    - [CallbackThrew x]: the exception escaped from the dial callback
      into the collaborator, the promise is never settled;
    - [Pending]: the collaborator never completed, or the stream being
      buffered never ended. *)
Inductive outcome (A : Type) : Type :=
| Resolved (a : A)
| Rejected (e : value)
| Threw (x : exn)
| CallbackThrew (x : exn)
| Pending.
Arguments Resolved {A} a.
Arguments Rejected {A} e.
Arguments Threw {A} x.
Arguments CallbackThrew {A} x.
Arguments Pending {A}.

Definition M (A : Type) : Type := world -> outcome A * world.

Definition ret {A : Type} (a : A) : M A := fun w => (Resolved a, w).

Definition bind {A B : Type} (m : M A) (k : A -> M B) : M B :=
  fun w =>
    match m w with
    | (Resolved a, w') => k a w'
    | (Rejected e, w') => (Rejected e, w')
    | (Threw x, w') => (Threw x, w')
    | (CallbackThrew x, w') => (CallbackThrew x, w')
    | (Pending, w') => (Pending, w')
    end.

Notation "x <- c1 ;; c2" := (bind c1 (fun x => c2))
  (at level 100, c1 at next level, right associativity).
Notation "c1 ;;; c2" := (bind c1 (fun _ => c2))
  (at level 100, right associativity).

Definition reject {A : Type} (e : value) : M A := fun w => (Rejected e, w).

Definition lift {A : Type} (c : completion A) : M A :=
  fun w => match c with
           | Normal a => (Resolved a, w)
           | Throw x => (Threw x, w)
           end.

(** Code running inside the dial callback: an exception there does not
    reject the promise. *)
Definition in_callback {A : Type} (m : M A) : M A :=
  fun w => match m w with
           | (Threw x, w') => (CallbackThrew x, w')
           | r => r
           end.

(** [new C(...)]: the fresh object gets the next free reference. *)
Definition alloc (o : obj) : M loc :=
  fun w => (Resolved (length (heap w)),
            World (heap w ++ [o]) (wire w) (dialed w)).

(** Dereference.  References only come from [alloc], so the failure
    branch is never taken from a heap that contains the receiver. *)
Definition read (l : loc) : M obj :=
  fun w => match heap w !! l with
           | Some o => (Resolved o, w)
           | None => (Threw TypeError, w)
           end.

(** In-place field update of the object at [l]. *)
Definition modify (l : loc) (f : obj -> obj) : M unit :=
  fun w => (Resolved tt, World (alter f l (heap w)) (wire w) (dialed w)).

(** [modem.dial(call, callback)]: the descriptor is handed over, and the
    callback later runs on the next response of the script. *)
Definition dial (m : Modem) (c : call) : M response :=
  fun w =>
    let log := dialed w ++ [(m, c)] in
    match wire w with
    | [] => (Pending, World (heap w) [] log)
    | r :: rest => (Resolved r, World (heap w) rest log)
    end.

(** What a promise resolves with: a raw value from the transport, a
    handle, an array of handles, or the pair [[stream, this]]. *)
Inductive answer : Type :=
| Raw (v : value)
| Ref (l : loc)
| Refs (ls : list loc)
| Pair (v : value) (l : loc).

Definition resolve (a : answer) : M answer := ret a.

(** [xs.map(f)] where [f] allocates. *)
Fixpoint map_each {A B : Type} (f : A -> M B) (xs : list A) : M (list B) :=
  match xs with
  | [] => ret []
  | x :: xs' => y <- f x ;; ys <- map_each f xs' ;; ret (y :: ys)
  end.

(** *** Field access *)

(** [this.modem.dial]: on a [Plugin] whose [modem] was overwritten by
    [Object.assign] there is no [dial] to call. *)
Definition obj_modem (o : obj) : completion Modem :=
  match o with
  | OExec m _ _ _ | OExecManager m _ | OContainerFs m _
  | OContainer m _ _ _ _ _ | OHandle _ m _ _ | OSwarm m _ => Normal m
  | OPlugin (FModem m) _ _ => Normal m
  | OPlugin (FVal _) _ _ => Throw TypeError
  end.

(** [this.id]; [undefined] on the classes without that field. *)
Definition obj_id (o : obj) : value :=
  match o with
  | OExec _ _ i _ | OContainer _ i _ _ _ _ | OHandle _ _ i _ | OPlugin _ i _ => i
  | OExecManager _ _ | OContainerFs _ _ | OSwarm _ _ => VUndef
  end.

(** [this.data]; a [Container]'s is declared without initializer. *)
Definition obj_data (o : obj) : value :=
  match o with
  | OExec _ _ _ d | OContainer _ _ _ _ _ d | OHandle _ _ _ d | OSwarm _ d => d
  | OExecManager _ _ | OContainerFs _ _ | OPlugin _ _ _ => VUndef
  end.

(** [this.container] of an [Exec], [ExecManager] or [ContainerFs]. *)
Definition obj_container (o : obj) : completion loc :=
  match o with
  | OExec _ c _ _ | OExecManager _ c | OContainerFs _ c => Normal c
  | _ => Throw TypeError
  end.

Definition this_modem (this : loc) : M Modem :=
  o <- read this ;; lift (obj_modem o).
Definition this_id (this : loc) : M value :=
  o <- read this ;; ret (obj_id o).
Definition this_container (this : loc) : M loc :=
  o <- read this ;; lift (obj_container o).
(** [this.container.id] *)
Definition this_container_id (this : loc) : M value :=
  c <- this_container this ;; this_id c.

(** [x.data = v] *)
Definition set_data (v : value) (o : obj) : obj :=
  match o with
  | OExec m c i _ => OExec m c i v
  | OContainer m i f e w _ => OContainer m i f e w v
  | OHandle k m i _ => OHandle k m i v
  | OSwarm m _ => OSwarm m v
  | _ => o
  end.

(** [container.Warnings = v] *)
Definition set_Warnings (v : value) (o : obj) : obj :=
  match o with
  | OContainer m i f e _ d => OContainer m i f e v d
  | _ => o
  end.

(** [Object.assign(plugin, src)]: every own enumerable property of
    [src] is written onto the plugin by [plugin[k] = v], [id] and
    [modem] included.  For the key [__proto__] that assignment runs
    the setter inherited from [Object.prototype] and creates no own
    property (the setter replaces the plugin's prototype when [v] is
    an object or [null]; the prototype is not among the fields
    recorded here). *)
Definition assign_prop (o : obj) (kv : string * value) : obj :=
  match o with
  | OPlugin m i extra =>
      if String.eqb (fst kv) "__proto__" then o
      else if String.eqb (fst kv) "modem" then OPlugin (FVal (snd kv)) i extra
      else if String.eqb (fst kv) "id" then OPlugin m (snd kv) extra
      else OPlugin m i (assign (fst kv) (snd kv) extra)
  | _ => o
  end.
Definition object_assign (src : value) (o : obj) : obj :=
  foldl assign_prop o (own_enumerable src).

(** *** Constructors *)

Definition new_Exec (m : Modem) (container : loc) (id : value) : M loc :=
  alloc (OExec m container id (VObj [])).

(** [new Container(modem, id)] also builds the filesystem accessor and
    the exec manager, each pointing back at the container. *)
Definition new_Container (m : Modem) (id : value) : M loc :=
  fun w =>
    let n := length (heap w) in
    (Resolved n,
     World (heap w ++ [OContainer m id (S n) (S (S n)) (VArr []) VUndef;
                       OContainerFs m n;
                       OExecManager m n])
           (wire w) (dialed w)).

Definition new_Handle (k : kind) (m : Modem) (id : value) : M loc :=
  alloc (OHandle k m id (VObj [])).

Definition new_Swarm (m : Modem) : M loc :=
  alloc (OSwarm m (VObj [])).

Definition new_Plugin (m : Modem) (id : value) : M loc :=
  alloc (OPlugin (FModem m) id []).

(** The guard every callback starts with:
    [if (err) { reject(err); return }]. *)
Definition unless_err {A : Type} (r : response) (k : M A) : M A :=
  if truthy (err r) then reject (err r) else k.

(** [new Promise((resolve, reject) => { this.modem.dial(call, cb) })]:
    [modem] is the evaluation of [this.modem] in the executor. *)
Definition promise {A : Type} (modem : M Modem) (c : call)
    (callback : response -> M A) : M A :=
  m <- modem ;;
  r <- dial m c ;;
  in_callback (callback r).

(** A promise that nothing will ever settle. *)
Definition pending {A : Type} : M A := fun w => (Pending, w).

(** [arr.map(f)] on a delivered value: only arrays have [map]. *)
Definition array_map {B : Type} (v : value) (f : value -> M B) : M (list B) :=
  match v with
  | VArr l => map_each f l
  | _ => lift (Throw TypeError)
  end.

(** [v.replace(pat, rep)]: only strings have [replace]. *)
Definition str_replace (v : value) (pat rep : string) : completion value :=
  match v with
  | VStr s => Normal (VStr (replace pat rep s))
  | _ => Throw TypeError
  end.

(** Status-table entries [code: true] and [code: 'label']. *)
Definition ok (code : Z) : Z * status := (code, Success).
Definition lbl (code : Z) (msg : string) : Z * status := (code, Label msg).

(** ** container.ts *)

(** *** class Exec *)
Module Exec.

Definition create (this : loc) (opts : value) : M answer :=
  cid <- this_container_id this ;;
  let call :=
    request ("/containers/" +:+ to_string cid +:+ "/exec?") POST (Some opts)
      [ok 200; ok 201; lbl 404 "no such container";
       lbl 409 "container is paused"; lbl 500 "server error"] in
  promise (this_modem this) call (fun r =>
    unless_err r (
      m <- this_modem this ;;
      c <- this_container this ;;
      id <- lift (get_prop (result r) "Id") ;;
      exec <- new_Exec m c id ;;
      modify exec (set_data (result r)) ;;;
      resolve (Ref exec))).

Definition start (this : loc) (opts : value) : M answer :=
  let opts := default_param (VObj []) opts in
  id <- this_id this ;;
  hj <- lift (get_prop opts "hijack") ;;
  stdin <- lift (get_prop opts "stdin") ;;
  let call :=
    with_openStdin stdin (with_hijack hj (with_isStream (VBool true) (
      request ("/exec/" +:+ to_string id +:+ "/start?") POST (Some opts)
        [ok 200; lbl 404 "no such exec instance"; lbl 409 "container is paused"]))) in
  promise (this_modem this) call (fun r =>
    unless_err r (resolve (Raw (result r)))).

Definition resize (this : loc) (opts : value) : M answer :=
  id <- this_id this ;;
  let call :=
    request ("/exec/" +:+ to_string id +:+ "/resize?") POST (Some opts)
      [ok 201; lbl 404 "no such exec instance"] in
  promise (this_modem this) call (fun r =>
    unless_err r (resolve (Raw (result r)))).

Definition status (this : loc) (opts : value) : M answer :=
  id <- this_id this ;;
  let call :=
    request ("/exec/" +:+ to_string id +:+ "/json?") GET (Some opts)
      [ok 200; lbl 404 "no such exec instance"; lbl 500 "server error"] in
  promise (this_modem this) call (fun r =>
    unless_err r (
      m <- this_modem this ;;
      c <- this_container this ;;
      id' <- lift (get_prop (result r) "Id") ;;
      exec <- new_Exec m c id' ;;
      modify exec (set_data (result r)) ;;;
      resolve (Ref exec))).

End Exec.

(** *** class ExecManager *)
Module ExecManager.

Definition get (this : loc) (id : value) : M loc :=
  m <- this_modem this ;;
  c <- this_container this ;;
  new_Exec m c id.

Definition create (this : loc) (opts : value) : M answer :=
  cid <- this_container_id this ;;
  let call :=
    request ("/containers/" +:+ to_string cid +:+ "/exec?") POST (Some opts)
      [ok 200; ok 201; lbl 404 "no such container";
       lbl 409 "container is paused"; lbl 500 "server error"] in
  promise (this_modem this) call (fun r =>
    unless_err r (
      m <- this_modem this ;;
      c <- this_container this ;;
      id <- lift (get_prop (result r) "Id") ;;
      exec <- new_Exec m c id ;;
      modify exec (set_data (result r)) ;;;
      resolve (Ref exec))).

End ExecManager.

(** *** class ContainerFs *)
Module ContainerFs.

Definition info (this : loc) (opts : value) : M answer :=
  cid <- this_container_id this ;;
  let call :=
    with_isStream (VBool true) (
      request ("/containers/" +:+ to_string cid +:+ "/archive?") HEAD (Some opts)
        [ok 200; lbl 404 "bad request"; lbl 500 "server error"]) in
  promise (this_modem this) call (fun r =>
    unless_err r (resolve (Raw (result r)))).

Definition get (this : loc) (opts : value) : M answer :=
  let opts := default_param (VObj []) opts in
  cid <- this_container_id this ;;
  p <- lift (get_prop opts "path") ;;
  let call :=
    with_isStream (VBool true) (
      request ("/containers/" +:+ to_string cid +:+ "/archive?path="
                 +:+ to_string p +:+ "&") GET (Some opts)
        [ok 200; lbl 400 "bad request"; lbl 404 "no such container";
         lbl 500 "server error"]) in
  promise (this_modem this) call (fun r =>
    unless_err r (resolve (Raw (result r)))).

Definition put (this : loc) (file opts : value) : M answer :=
  cid <- this_container_id this ;;
  let call :=
    with_file file (with_isStream (VBool true) (
      request ("/containers/" +:+ to_string cid +:+ "/archive?") PUT (Some opts)
        [ok 200; lbl 400 "bad request"; lbl 403 "permission denied";
         lbl 404 "no such container"; lbl 500 "server error"])) in
  promise (this_modem this) call (fun r =>
    unless_err r (resolve (Raw (result r)))).

End ContainerFs.

(** *** class Container *)
Module Container.

Definition status (this : loc) (opts : value) : M answer :=
  id <- this_id this ;;
  let call :=
    request ("/containers/" +:+ to_string id +:+ "/json?") GET (Some opts)
      [ok 200; lbl 404 "no such container"; lbl 500 "server error"] in
  promise (this_modem this) call (fun r =>
    unless_err r (
      m <- this_modem this ;;
      id <- this_id this ;;
      container <- new_Container m id ;;
      modify container (set_data (result r)) ;;;
      resolve (Ref container))).

Definition top (this : loc) (opts : value) : M answer :=
  id <- this_id this ;;
  let call :=
    request ("/containers/" +:+ to_string id +:+ "/top?") GET (Some opts)
      [ok 200; lbl 404 "no such container"; lbl 500 "server error"] in
  promise (this_modem this) call (fun r =>
    unless_err r (resolve (Raw (result r)))).

Definition logs (this : loc) (opts : value) : M answer :=
  id <- this_id this ;;
  let call :=
    with_isStream (VBool true) (
      request ("/containers/" +:+ to_string id +:+ "/logs?") GET (Some opts)
        [ok 101; ok 200; lbl 404 "no such container"; lbl 500 "server error"]) in
  promise (this_modem this) call (fun r =>
    unless_err r (resolve (Raw (result r)))).

Definition changes (this : loc) : M answer :=
  id <- this_id this ;;
  let call :=
    request ("/containers/" +:+ to_string id +:+ "/changes?") GET (Some (VObj []))
      [ok 200; lbl 404 "no such container"; lbl 500 "server error"] in
  promise (this_modem this) call (fun r =>
    unless_err r (resolve (Raw (result r)))).

(** What the two listeners of [export] make of the delivered value:
    [tarStream.on('data', ...)] pushes every chunk's [toString()],
    [tarStream.on('end', ...)] resolves with [res.join('')]. *)
Definition buffer_stream (tarStream : value) : M answer :=
  match tarStream with
  | VStream chunks true => resolve (Raw (VStr (join_chunks chunks)))
  | VStream _ false => pending
  | _ => lift (Throw TypeError)
  end.

Definition export (this : loc) (opts : value) : M answer :=
  let opts := default_param (VObj []) opts in
  id <- this_id this ;;
  stream <- lift (get_prop opts "stream") ;;
  let call :=
    with_isStream (VBool (truthy stream)) (
      request ("/containers/" +:+ to_string id +:+ "/export?") GET (Some opts)
        [ok 200; lbl 404 "no such container"; lbl 500 "server error"]) in
  promise (this_modem this) call (fun r =>
    unless_err r (
      stream <- lift (get_prop opts "stream") ;;
      if negb (truthy stream) then resolve (Raw (result r))
      else buffer_stream (result r))).

Definition stats (this : loc) (opts : value) : M answer :=
  id <- this_id this ;;
  let call :=
    with_isStream (VBool true) (
      request ("/containers/" +:+ to_string id +:+ "/stats?") GET (Some opts)
        [ok 200; lbl 404 "no such container"; lbl 500 "server error"]) in
  promise (this_modem this) call (fun r =>
    unless_err r (resolve (Raw (result r)))).

Definition resize (this : loc) (opts : value) : M answer :=
  id <- this_id this ;;
  let call :=
    request ("/containers/" +:+ to_string id +:+ "/resize?") GET (Some opts)
      [ok 200; lbl 404 "no such container"; lbl 500 "server error"] in
  promise (this_modem this) call (fun r =>
    unless_err r (resolve (Raw (result r)))).

Definition start (this : loc) (opts : value) : M answer :=
  let opts := default_param (VObj []) opts in
  id <- this_id this ;;
  let call :=
    request ("/containers/" +:+ to_string id +:+ "/start?") POST (Some opts)
      [ok 204; ok 304; lbl 404 "no such container"; lbl 500 "server error"] in
  promise (this_modem this) call (fun r =>
    unless_err r (resolve (Ref this))).

Definition stop (this : loc) (opts : value) : M answer :=
  id <- this_id this ;;
  let call :=
    request ("/containers/" +:+ to_string id +:+ "/stop?") POST (Some opts)
      [ok 204; ok 304; lbl 404 "no such container"; lbl 500 "server error"] in
  promise (this_modem this) call (fun r =>
    unless_err r (resolve (Ref this))).

Definition restart (this : loc) (opts : value) : M answer :=
  id <- this_id this ;;
  let call :=
    request ("/containers/" +:+ to_string id +:+ "/restart?") POST (Some opts)
      [ok 204; lbl 404 "no such container"; lbl 500 "server error"] in
  promise (this_modem this) call (fun r =>
    unless_err r (resolve (Ref this))).

Definition kill (this : loc) (opts : value) : M answer :=
  id <- this_id this ;;
  let call :=
    request ("/containers/" +:+ to_string id +:+ "/kill?") POST (Some opts)
      [ok 204; lbl 404 "no such container"; lbl 500 "server error"] in
  promise (this_modem this) call (fun r =>
    unless_err r (resolve (Ref this))).

(** The callback builds the new container and stores the delivered
    warnings on it before it looks at [err]. *)
Definition update (this : loc) (opts : value) : M answer :=
  id <- this_id this ;;
  let call :=
    request ("/containers/" +:+ to_string id +:+ "/update?") POST (Some opts)
      [ok 200; lbl 400 "bad request"; lbl 404 "no such container";
       lbl 500 "server error"] in
  promise (this_modem this) call (fun r =>
    m <- this_modem this ;;
    id <- this_id this ;;
    container <- new_Container m id ;;
    modify container (set_Warnings (result r)) ;;;
    unless_err r (resolve (Ref container))).

Definition rename (this : loc) (opts : value) : M answer :=
  id <- this_id this ;;
  let call :=
    request ("/containers/" +:+ to_string id +:+ "/rename?") POST (Some opts)
      [ok 204; lbl 404 "no such container"; lbl 409 "name already taken";
       lbl 500 "server error"] in
  promise (this_modem this) call (fun r =>
    unless_err r (resolve (Ref this))).

Definition pause (this : loc) : M answer :=
  id <- this_id this ;;
  let call :=
    request ("/containers/" +:+ to_string id +:+ "/pause?") POST (Some (VObj []))
      [ok 204; lbl 404 "no such container"; lbl 500 "server error"] in
  promise (this_modem this) call (fun r =>
    unless_err r (resolve (Ref this))).

Definition unpause (this : loc) : M answer :=
  id <- this_id this ;;
  let call :=
    request ("/containers/" +:+ to_string id +:+ "/unpause?") POST (Some (VObj []))
      [ok 204; lbl 404 "no such container"; lbl 500 "server error"] in
  promise (this_modem this) call (fun r =>
    unless_err r (resolve (Ref this))).

Definition attach (this : loc) (opts : value) : M answer :=
  let opts := default_param (VObj []) opts in
  id <- this_id this ;;
  stdin <- lift (get_prop opts "stdin") ;;
  let call :=
    with_openStdin stdin (with_isStream (VBool true) (
      request ("/containers/" +:+ to_string id +:+ "/attach?") POST (Some opts)
        [ok 101; ok 200; lbl 400 "bad request"; lbl 404 "no such container";
         lbl 500 "server error"])) in
  promise (this_modem this) call (fun r =>
    unless_err r (resolve (Pair (result r) this))).

Definition wsattach (this : loc) (opts : value) : M answer :=
  id <- this_id this ;;
  let call :=
    request ("/containers/" +:+ to_string id +:+ "/attach/ws?") GET (Some opts)
      [ok 200; lbl 400 "bad request"; lbl 404 "no such container";
       lbl 500 "server error"] in
  promise (this_modem this) call (fun r =>
    unless_err r (resolve (Pair (result r) this))).

Definition wait (this : loc) : M answer :=
  id <- this_id this ;;
  let call :=
    request ("/containers/" +:+ to_string id +:+ "/wait?") POST (Some (VObj []))
      [ok 200; lbl 404 "no such container"; lbl 500 "server error"] in
  promise (this_modem this) call (fun r =>
    unless_err r (resolve (Raw (result r)))).

Definition delete (this : loc) (opts : value) : M answer :=
  id <- this_id this ;;
  let call :=
    request ("/containers/" +:+ to_string id +:+ "?") DELETE (Some opts)
      [ok 204; lbl 400 "bad request"; lbl 404 "no such container";
       lbl 500 "server error"] in
  promise (this_modem this) call (fun r =>
    unless_err r (resolve (Raw (result r)))).

(** [opts.container = this.id] writes into the caller's option bag;
    the descriptor carries the bag with that key set. *)
Definition commit (this : loc) (opts : value) : M answer :=
  let opts := default_param (VObj []) opts in
  id <- this_id this ;;
  opts <- lift (set_prop opts "container" id) ;;
  let call :=
    request "/commit?" POST (Some opts)
      [ok 201; lbl 404 "no such container"; lbl 500 "server error"] in
  promise (this_modem this) call (fun r =>
    unless_err r (
      m <- this_modem this ;;
      rid <- lift (get_prop (result r) "Id") ;;
      iid <- lift (str_replace rid "sha256:" "") ;;
      image <- new_Handle KImage m iid ;;
      resolve (Ref image))).

End Container.

(** *** the default export of container.ts (ContainerManager) *)
Module ContainerManager.

Record t : Type := Make { modem : Modem }.

Definition get (this : t) (id : value) : M loc :=
  new_Container (modem this) id.

Definition list (this : t) (opts : value) : M answer :=
  let call :=
    request "/containers/json?" GET (Some opts)
      [ok 200; lbl 400 "bad request"; lbl 500 "server error"] in
  promise (ret (modem this)) call (fun r =>
    unless_err r (
      containers <- array_map (result r) (fun conf =>
        id <- lift (get_prop conf "Id") ;;
        container <- new_Container (modem this) id ;;
        modify container (set_data conf) ;;;
        ret container) ;;
      resolve (Refs containers))).

Definition create (this : t) (opts : value) : M answer :=
  let call :=
    request "/containers/create?" POST (Some opts)
      [ok 200; ok 201; lbl 400 "bad request"; lbl 404 "no such image";
       lbl 406 "impossible to attach"; lbl 500 "server error"] in
  promise (ret (modem this)) call (fun r =>
    unless_err r (
      id <- lift (get_prop (result r) "Id") ;;
      container <- new_Container (modem this) id ;;
      modify container (set_data (result r)) ;;;
      resolve (Ref container))).

Definition prune (this : t) (opts : value) : M answer :=
  let call :=
    request "/containers/prune" POST (Some opts)
      [ok 200; lbl 500 "server error"] in
  promise (ret (modem this)) call (fun r =>
    unless_err r (resolve (Raw (result r)))).

End ContainerManager.

(** ** image.ts *)

(** *** class Image *)
Module Image.

Definition status (this : loc) (opts : value) : M answer :=
  id <- this_id this ;;
  let call :=
    request ("/images/" +:+ to_string id +:+ "/json?") GET (Some opts)
      [ok 200; lbl 404 "no such image"; lbl 500 "server error"] in
  promise (this_modem this) call (fun r =>
    unless_err r (
      m <- this_modem this ;;
      id <- this_id this ;;
      image <- new_Handle KImage m id ;;
      modify image (set_data (result r)) ;;;
      resolve (Ref image))).

Definition history (this : loc) (opts : value) : M answer :=
  id <- this_id this ;;
  let call :=
    request ("/images/" +:+ to_string id +:+ "/history?") GET (Some opts)
      [ok 200; lbl 404 "no such image"; lbl 500 "server error"] in
  promise (this_modem this) call (fun r =>
    unless_err r (resolve (Raw (result r)))).

Definition push (this : loc) (auth opts : value) : M answer :=
  id <- this_id this ;;
  let call :=
    with_authconfig auth (with_isStream (VBool true) (
      request ("/images/" +:+ to_string id +:+ "/push?") POST (Some opts)
        [ok 200; lbl 404 "no such image"; lbl 500 "server error"])) in
  promise (this_modem this) call (fun r =>
    unless_err r (resolve (Raw (result r)))).

(** The promise of the tag request is chained with
    [.then(image => image.status())]: a second request, on the handle
    the first callback built. *)
Definition tag (this : loc) (opts : value) : M answer :=
  id <- this_id this ;;
  let call :=
    request ("/images/" +:+ to_string id +:+ "/tag?") POST (Some opts)
      [ok 201; lbl 400 "bad parameter"; lbl 404 "no such image";
       lbl 409 "conflict"; lbl 500 "server error"] in
  image <- promise (this_modem this) call (fun r =>
    unless_err r (
      m <- this_modem this ;;
      id <- this_id this ;;
      new_Handle KImage m id)) ;;
  status image VUndef.

Definition remove (this : loc) (opts : value) : M answer :=
  id <- this_id this ;;
  let call :=
    request ("/images/" +:+ to_string id +:+ "?") DELETE (Some opts)
      [ok 200; lbl 404 "no such image"; lbl 409 "conflict";
       lbl 500 "server error"] in
  promise (this_modem this) call (fun r =>
    unless_err r (resolve (Raw (result r)))).

Definition get (this : loc) (opts : value) : M answer :=
  id <- this_id this ;;
  let call :=
    with_isStream (VBool true) (
      request ("/images/" +:+ to_string id +:+ "/get?") GET (Some opts)
        [ok 200; lbl 500 "server error"]) in
  promise (this_modem this) call (fun r =>
    unless_err r (resolve (Raw (result r)))).

End Image.

(** *** the default export of image.ts (ImageManager) *)
Module ImageManager.

Record t : Type := Make { modem : Modem }.

Definition get (this : t) (id : value) : M loc :=
  new_Handle KImage (modem this) id.

Definition search (this : t) (opts : value) : M answer :=
  let call :=
    request "/images/search?" GET (Some opts)
      [ok 200; lbl 500 "server error"] in
  promise (ret (modem this)) call (fun r =>
    unless_err r (resolve (Raw (result r)))).

Definition list (this : t) (opts : value) : M answer :=
  let call :=
    request "/images/json?" GET (Some opts)
      [ok 200; lbl 400 "bad request"; lbl 500 "server error"] in
  promise (ret (modem this)) call (fun r =>
    unless_err r (
      images <- array_map (result r) (fun conf =>
        id <- lift (get_prop conf "Id") ;;
        image <- new_Handle KImage (modem this) id ;;
        modify image (set_data conf) ;;;
        ret image) ;;
      resolve (Refs images))).

Definition build (this : t) (file opts auth : value) : M answer :=
  let call :=
    with_registryconfig auth (with_isStream (VBool true) (with_file file (
      request "/build?" POST (Some opts)
        [ok 200; lbl 500 "server error"]))) in
  promise (ret (modem this)) call (fun r =>
    unless_err r (resolve (Raw (result r)))).

Definition create (this : t) (auth opts : value) : M answer :=
  let call :=
    with_authconfig auth (with_isStream (VBool true) (
      request "/images/create?" POST (Some opts)
        [ok 200; lbl 500 "server error"])) in
  promise (ret (modem this)) call (fun r =>
    unless_err r (resolve (Raw (result r)))).

Definition getAll (this : t) (opts : value) : M answer :=
  let call :=
    with_isStream (VBool true) (
      request "/images/get?" GET (Some opts)
        [ok 200; lbl 500 "server error"]) in
  promise (ret (modem this)) call (fun r =>
    unless_err r (resolve (Raw (result r)))).

Definition load (this : t) (file opts : value) : M answer :=
  let call :=
    with_isStream (VBool true) (with_file file (
      request "/images/load?" POST (Some opts)
        [ok 200; lbl 500 "server error"])) in
  promise (ret (modem this)) call (fun r =>
    unless_err r (resolve (Raw (result r)))).

Definition prune (this : t) (opts : value) : M answer :=
  let call :=
    request "/images/prune" POST (Some opts)
      [ok 200; lbl 500 "server error"] in
  promise (ret (modem this)) call (fun r =>
    unless_err r (resolve (Raw (result r)))).

End ImageManager.

(** ** plugin.ts *)

(** *** class Plugin (imported by docker.ts as PluginManager) *)
Module Plugin.

(** [__processArguments (opts, id?)] returns the pair [[opts, id]]. *)
Definition __processArguments (this : loc) (opts id : value)
  : M (value * value) :=
  let id := match opts with
            | VStr _ => if negb (truthy id) then opts else id
            | _ => id
            end in
  this_id <- this_id this ;;
  let id := if negb (truthy id) && truthy this_id then this_id else id in
  let opts := if negb (truthy opts) then VObj [] else opts in
  ret (opts, id).

Definition list (this : loc) (opts : value) : M answer :=
  let call :=
    request "/plugins?" GET (Some opts)
      [ok 200; lbl 500 "server error"] in
  promise (this_modem this) call (fun r =>
    unless_err r (
      if negb (truthy (get_prop_opt (result r) "length")) then resolve (Refs [])
      else
        plugins <- array_map (result r) (fun conf =>
          m <- this_modem this ;;
          id <- lift (get_prop conf "Id") ;;
          plugin <- new_Plugin m id ;;
          modify plugin (object_assign conf) ;;;
          ret plugin) ;;
        resolve (Refs plugins))).

(** [upgrade (opts)] passes a single argument on, so [id] is
    [undefined] when it reaches [__processArguments]. *)
Definition upgrade (this : loc) (opts : value) : M answer :=
  oi <- __processArguments this opts VUndef ;;
  let opts := fst oi in
  let id := snd oi in
  let call :=
    request ("/plugins/" +:+ to_string id +:+ "/upgrade?") POST (Some opts)
      [ok 204; lbl 404 "plugin not installed"; lbl 500 "server error"] in
  promise (this_modem this) call (fun r =>
    unless_err r (
      m <- this_modem this ;;
      name <- lift (get_prop opts "name") ;;
      plugin <- new_Plugin m name ;;
      resolve (Ref plugin))).

Definition create (this : loc) (opts : value) : M answer :=
  let call :=
    request "/plugins/create?" POST (Some opts)
      [ok 204; lbl 500 "server error"] in
  promise (this_modem this) call (fun r =>
    unless_err r (
      m <- this_modem this ;;
      name <- lift (get_prop opts "name") ;;
      plugin <- new_Plugin m name ;;
      resolve (Ref plugin))).

Definition install (this : loc) (opts : value) : M answer :=
  let call :=
    request "/plugins/pull?" POST (Some opts)
      [ok 200; lbl 500 "server error"] in
  promise (this_modem this) call (fun r =>
    unless_err r (
      m <- this_modem this ;;
      name <- lift (get_prop opts "name") ;;
      plugin <- new_Plugin m name ;;
      resolve (Ref plugin))).

Definition status (this : loc) (opts id : value) : M answer :=
  oi <- __processArguments this opts id ;;
  let opts := fst oi in
  let id := snd oi in
  let call :=
    request ("/plugins/" +:+ to_string id +:+ "?") GET (Some opts)
      [ok 200; lbl 404 "no such plugin"; lbl 500 "server error"] in
  promise (this_modem this) call (fun r =>
    unless_err r (
      m <- this_modem this ;;
      plugin <- new_Plugin m id ;;
      modify plugin (object_assign (result r)) ;;;
      resolve (Ref plugin))).

Definition remove (this : loc) (opts id : value) : M answer :=
  oi <- __processArguments this opts id ;;
  let opts := fst oi in
  let id := snd oi in
  let call :=
    request ("/plugins/" +:+ to_string id +:+ "?") DELETE (Some opts)
      [ok 200; lbl 404 "no such plugin"; lbl 500 "server error"] in
  promise (this_modem this) call (fun r =>
    unless_err r (resolve (Raw (result r)))).

Definition push (this : loc) (opts id : value) : M answer :=
  oi <- __processArguments this opts id ;;
  let opts := fst oi in
  let id := snd oi in
  let call :=
    request ("/plugins/" +:+ to_string id +:+ "/push?") POST (Some opts)
      [ok 200; lbl 404 "plugin not found"; lbl 500 "server error"] in
  promise (this_modem this) call (fun r =>
    unless_err r (
      m <- this_modem this ;;
      plugin <- new_Plugin m id ;;
      resolve (Ref plugin))).

Definition set (this : loc) (opts id : value) : M answer :=
  oi <- __processArguments this opts id ;;
  let opts := fst oi in
  let id := snd oi in
  let call :=
    request ("/plugins/" +:+ to_string id +:+ "/set?") POST (Some opts)
      [ok 204; lbl 404 "plugin not found"; lbl 500 "server error"] in
  promise (this_modem this) call (fun r =>
    unless_err r (
      m <- this_modem this ;;
      plugin <- new_Plugin m id ;;
      resolve (Ref plugin))).

Definition enable (this : loc) (opts id : value) : M answer :=
  oi <- __processArguments this opts id ;;
  let opts := fst oi in
  let id := snd oi in
  let call :=
    request ("/plugins/" +:+ to_string id +:+ "/enable?") POST (Some opts)
      [ok 200; lbl 500 "server error"] in
  promise (this_modem this) call (fun r =>
    unless_err r (
      m <- this_modem this ;;
      plugin <- new_Plugin m id ;;
      resolve (Ref plugin))).

Definition disable (this : loc) (opts id : value) : M answer :=
  oi <- __processArguments this opts id ;;
  let opts := fst oi in
  let id := snd oi in
  let call :=
    request ("/plugins/" +:+ to_string id +:+ "/disable?") POST (Some opts)
      [ok 200; lbl 500 "server error"] in
  promise (this_modem this) call (fun r =>
    unless_err r (
      m <- this_modem this ;;
      plugin <- new_Plugin m id ;;
      resolve (Ref plugin))).

End Plugin.

(** ** volume.ts *)

Module Volume.

Definition status (this : loc) (opts : value) : M answer :=
  id <- this_id this ;;
  let call :=
    request ("/volumes/" +:+ to_string id +:+ "?") GET (Some opts)
      [ok 200; lbl 404 "no such volume"; lbl 500 "server error"] in
  promise (this_modem this) call (fun r =>
    unless_err r (
      m <- this_modem this ;;
      id <- this_id this ;;
      volume <- new_Handle KVolume m id ;;
      modify volume (set_data (result r)) ;;;
      resolve (Ref volume))).

Definition remove (this : loc) (opts : value) : M answer :=
  id <- this_id this ;;
  let call :=
    request ("/volumes/" +:+ to_string id +:+ "?") DELETE (Some opts)
      [ok 204; lbl 404 "no such volume"; lbl 409 "conflict";
       lbl 500 "server error"] in
  promise (this_modem this) call (fun r =>
    unless_err r (resolve (Raw (result r)))).

End Volume.

Module VolumeManager.

Record t : Type := Make { modem : Modem }.

Definition get (this : t) (id : value) : M loc :=
  new_Handle KVolume (modem this) id.

Definition list (this : t) (opts : value) : M answer :=
  let call :=
    request "/volumes" GET (Some opts)
      [ok 200; lbl 500 "server error"] in
  promise (ret (modem this)) call (fun r =>
    unless_err r (
      Volumes <- lift (get_prop (result r) "Volumes") ;;
      if negb (truthy (get_prop_opt Volumes "length")) then resolve (Refs [])
      else
        volumes <- array_map Volumes (fun conf =>
          name <- lift (get_prop conf "Name") ;;
          volume <- new_Handle KVolume (modem this) name ;;
          modify volume (set_data conf) ;;;
          ret volume) ;;
        resolve (Refs volumes))).

(** The new handle keeps its initial [data = {}]: the response is
    only read for [Name]. *)
Definition create (this : t) (opts : value) : M answer :=
  let call :=
    request "/volumes/create?" POST (Some opts)
      [ok 201; lbl 500 "server error"] in
  promise (ret (modem this)) call (fun r =>
    unless_err r (
      name <- lift (get_prop (result r) "Name") ;;
      volume <- new_Handle KVolume (modem this) name ;;
      resolve (Ref volume))).

Definition prune (this : t) (opts : value) : M answer :=
  let call :=
    request "/volumes/prune" POST (Some opts)
      [ok 200; lbl 500 "server error"] in
  promise (ret (modem this)) call (fun r =>
    unless_err r (resolve (Raw (result r)))).

End VolumeManager.

(** ** network.ts *)

Module Network.

Definition status (this : loc) (opts : value) : M answer :=
  id <- this_id this ;;
  let call :=
    request ("/networks/" +:+ to_string id +:+ "?") GET (Some opts)
      [ok 200; lbl 404 "no such network"; lbl 500 "server error"] in
  promise (this_modem this) call (fun r =>
    unless_err r (
      m <- this_modem this ;;
      id <- this_id this ;;
      network <- new_Handle KNetwork m id ;;
      modify network (set_data (result r)) ;;;
      resolve (Ref network))).

Definition remove (this : loc) (opts : value) : M answer :=
  id <- this_id this ;;
  let call :=
    request ("/networks/" +:+ to_string id +:+ "?") DELETE (Some opts)
      [ok 204; lbl 404 "no such network"; lbl 500 "server error"] in
  promise (this_modem this) call (fun r =>
    unless_err r (resolve (Raw (result r)))).

Definition connect (this : loc) (opts : value) : M answer :=
  id <- this_id this ;;
  let call :=
    request ("/networks/" +:+ to_string id +:+ "/connect?") POST (Some opts)
      [ok 200; lbl 403 "operation not supported for swarm scoped network";
       lbl 404 "network or container not found"; lbl 500 "server error"] in
  promise (this_modem this) call (fun r =>
    unless_err r (
      m <- this_modem this ;;
      id <- this_id this ;;
      network <- new_Handle KNetwork m id ;;
      modify network (set_data (result r)) ;;;
      resolve (Ref network))).

Definition disconnect (this : loc) (opts : value) : M answer :=
  id <- this_id this ;;
  let call :=
    request ("/networks/" +:+ to_string id +:+ "/disconnect?") POST (Some opts)
      [ok 200; lbl 403 "operation not supported for swarm scoped network";
       lbl 404 "network or container not found"; lbl 500 "server error"] in
  promise (this_modem this) call (fun r =>
    unless_err r (
      m <- this_modem this ;;
      id <- this_id this ;;
      network <- new_Handle KNetwork m id ;;
      modify network (set_data (result r)) ;;;
      resolve (Ref network))).

End Network.

Module NetworkManager.

Record t : Type := Make { modem : Modem }.

Definition get (this : t) (id : value) : M loc :=
  new_Handle KNetwork (modem this) id.

Definition list (this : t) (opts : value) : M answer :=
  let call :=
    request "/networks?" GET (Some opts)
      [ok 200; lbl 500 "server error"] in
  promise (ret (modem this)) call (fun r =>
    unless_err r (
      if negb (truthy (get_prop_opt (result r) "length")) then resolve (Refs [])
      else
        networks <- array_map (result r) (fun conf =>
          id <- lift (get_prop conf "Id") ;;
          network <- new_Handle KNetwork (modem this) id ;;
          modify network (set_data conf) ;;;
          ret network) ;;
        resolve (Refs networks))).

Definition create (this : t) (opts : value) : M answer :=
  let call :=
    request "/networks/create?" POST (Some opts)
      [ok 201; lbl 404 "plugin not found"; lbl 500 "server error"] in
  promise (ret (modem this)) call (fun r =>
    unless_err r (
      id <- lift (get_prop (result r) "Id") ;;
      network <- new_Handle KNetwork (modem this) id ;;
      modify network (set_data (result r)) ;;;
      resolve (Ref network))).

Definition prune (this : t) (opts : value) : M answer :=
  let call :=
    request "/networks/prune" POST (Some opts)
      [ok 200; lbl 500 "server error"] in
  promise (ret (modem this)) call (fun r =>
    unless_err r (resolve (Raw (result r)))).

End NetworkManager.

(** ** node.ts *)

Module Node.

Definition update (this : loc) (opts : value) : M answer :=
  id <- this_id this ;;
  let call :=
    request ("/nodes/" +:+ to_string id +:+ "/update?") POST (Some opts)
      [ok 200; lbl 404 "no such node"; lbl 500 "server error"] in
  promise (this_modem this) call (fun r =>
    unless_err r (
      m <- this_modem this ;;
      id <- this_id this ;;
      node <- new_Handle KNode m id ;;
      modify node (set_data (result r)) ;;;
      resolve (Ref node))).

Definition status (this : loc) (opts : value) : M answer :=
  id <- this_id this ;;
  let call :=
    request ("/nodes/" +:+ to_string id +:+ "?") GET (Some opts)
      [ok 200; lbl 404 "no such node"; lbl 500 "server error"] in
  promise (this_modem this) call (fun r =>
    unless_err r (
      m <- this_modem this ;;
      id <- this_id this ;;
      node <- new_Handle KNode m id ;;
      modify node (set_data (result r)) ;;;
      resolve (Ref node))).

Definition remove (this : loc) (opts : value) : M answer :=
  id <- this_id this ;;
  let call :=
    request ("/nodes/" +:+ to_string id +:+ "?") DELETE (Some opts)
      [ok 204; lbl 404 "no such node"; lbl 500 "server error"] in
  promise (this_modem this) call (fun r =>
    unless_err r (resolve (Raw (result r)))).

End Node.

Module NodeManager.

Record t : Type := Make { modem : Modem }.

Definition get (this : t) (id : value) : M loc :=
  new_Handle KNode (modem this) id.

Definition list (this : t) (opts : value) : M answer :=
  let call :=
    request "/nodes?" GET (Some opts)
      [ok 200; lbl 500 "server error"] in
  promise (ret (modem this)) call (fun r =>
    unless_err r (
      if negb (truthy (get_prop_opt (result r) "length")) then resolve (Refs [])
      else
        nodes <- array_map (result r) (fun conf =>
          id <- lift (get_prop conf "ID") ;;
          node <- new_Handle KNode (modem this) id ;;
          modify node (set_data conf) ;;;
          ret node) ;;
        resolve (Refs nodes))).

End NodeManager.

(** ** secret.ts *)

Module Secret.

Definition status (this : loc) (opts : value) : M answer :=
  id <- this_id this ;;
  let call :=
    request ("/secrets/" +:+ to_string id +:+ "?") GET (Some opts)
      [ok 200; lbl 404 "no such secret";
       lbl 406 "406 node is not part of a swarm"; lbl 500 "server error"] in
  promise (this_modem this) call (fun r =>
    unless_err r (
      m <- this_modem this ;;
      id <- this_id this ;;
      secret <- new_Handle KSecret m id ;;
      modify secret (set_data (result r)) ;;;
      resolve (Ref secret))).

Definition remove (this : loc) (opts : value) : M answer :=
  id <- this_id this ;;
  let call :=
    request ("/secrets/" +:+ to_string id +:+ "?") DELETE (Some opts)
      [ok 204; lbl 404 "no such secret"; lbl 500 "server error"] in
  promise (this_modem this) call (fun r =>
    unless_err r (resolve (Raw (result r)))).

End Secret.

Module SecretManager.

Record t : Type := Make { modem : Modem }.

Definition get (this : t) (id : value) : M loc :=
  new_Handle KSecret (modem this) id.

Definition list (this : t) (opts : value) : M answer :=
  let call :=
    request "/secrets" GET (Some opts)
      [ok 200; lbl 500 "server error"] in
  promise (ret (modem this)) call (fun r =>
    unless_err r (
      len <- lift (get_prop (result r) "length") ;;
      if negb (truthy len) then resolve (Refs [])
      else
        secrets <- array_map (result r) (fun conf =>
          name <- lift (get_prop conf "Name") ;;
          secret <- new_Handle KSecret (modem this) name ;;
          modify secret (set_data conf) ;;;
          ret secret) ;;
        resolve (Refs secrets))).

Definition create (this : t) (opts : value) : M answer :=
  let call :=
    request "/secrets/create?" POST (Some opts)
      [ok 201; lbl 406 "server error or node is not part of a swarm";
       lbl 409 "409 name conflicts with an existing  Record<string, unknown>";
       lbl 500 "server error"] in
  promise (ret (modem this)) call (fun r =>
    unless_err r (
      id <- lift (get_prop (result r) "ID") ;;
      secret <- new_Handle KSecret (modem this) id ;;
      modify secret (set_data (result r)) ;;;
      resolve (Ref secret))).

End SecretManager.

(** ** service.ts *)

Module Service.

Definition update (this : loc) (opts auth : value) : M answer :=
  id <- this_id this ;;
  let call :=
    with_authconfig auth (
      request ("/services/" +:+ to_string id +:+ "/update?") POST (Some opts)
        [ok 200; lbl 404 "no such service"; lbl 500 "server error"]) in
  promise (this_modem this) call (fun r =>
    unless_err r (
      m <- this_modem this ;;
      id <- this_id this ;;
      service <- new_Handle KService m id ;;
      modify service (set_data (result r)) ;;;
      resolve (Ref service))).

Definition status (this : loc) (opts : value) : M answer :=
  id <- this_id this ;;
  let call :=
    request ("/services/" +:+ to_string id +:+ "?") GET (Some opts)
      [ok 200; lbl 404 "no such service"; lbl 500 "server error"] in
  promise (this_modem this) call (fun r =>
    unless_err r (
      m <- this_modem this ;;
      id <- this_id this ;;
      service <- new_Handle KService m id ;;
      modify service (set_data (result r)) ;;;
      resolve (Ref service))).

Definition remove (this : loc) (opts : value) : M answer :=
  id <- this_id this ;;
  let call :=
    request ("/services/" +:+ to_string id +:+ "?") DELETE (Some opts)
      [ok 200; lbl 404 "no such service"; lbl 500 "server error"] in
  promise (this_modem this) call (fun r =>
    unless_err r (resolve (Raw (result r)))).

Definition logs (this : loc) (opts : value) : M answer :=
  id <- this_id this ;;
  let call :=
    with_isStream (VBool true) (
      request ("/services/" +:+ to_string id +:+ "/logs?") GET (Some opts)
        [ok 101; ok 200; lbl 404 "no such service"; lbl 500 "server error";
         lbl 501 "use --experimental to see this";
         lbl 503 "node is not part of a swarm"]) in
  promise (this_modem this) call (fun r =>
    unless_err r (resolve (Raw (result r)))).

End Service.

Module ServiceManager.

Record t : Type := Make { modem : Modem }.

Definition get (this : t) (id : value) : M loc :=
  new_Handle KService (modem this) id.

Definition create (this : t) (opts auth : value) : M answer :=
  let call :=
    with_authconfig auth (
      request "/services/create?" POST (Some opts)
        [ok 201; lbl 406 "node is not part of a swarm"; lbl 409 "name conflicts"]) in
  promise (ret (modem this)) call (fun r =>
    unless_err r (
      id <- lift (get_prop (result r) "ID") ;;
      service <- new_Handle KService (modem this) id ;;
      modify service (set_data (result r)) ;;;
      resolve (Ref service))).

Definition list (this : t) (opts : value) : M answer :=
  let call :=
    request "/services?" GET (Some opts)
      [ok 200; lbl 500 "server error"] in
  promise (ret (modem this)) call (fun r =>
    unless_err r (
      services <- array_map (result r) (fun conf =>
        id <- lift (get_prop conf "ID") ;;
        service <- new_Handle KService (modem this) id ;;
        modify service (set_data conf) ;;;
        ret service) ;;
      resolve (Refs services))).

End ServiceManager.

(** ** swarm.ts *)

(** *** class Swarm (imported by docker.ts as SwarmManager) *)
Module Swarm.

Definition init (this : loc) (opts : value) : M answer :=
  let call :=
    request "/swarm/init?" POST (Some opts)
      [ok 200; lbl 400 "bad parameter";
       lbl 406 "node is already part of a swarm"] in
  promise (this_modem this) call (fun r =>
    unless_err r (
      m <- this_modem this ;;
      node <- new_Handle KNode m (result r) ;;
      resolve (Ref node))).

Definition status (this : loc) (opts : value) : M answer :=
  let call :=
    request "/swarm?" GET (Some opts)
      [ok 200; lbl 404 "no such swarm"; lbl 500 "server error"] in
  promise (this_modem this) call (fun r =>
    unless_err r (
      m <- this_modem this ;;
      swarm <- new_Swarm m ;;
      modify swarm (set_data (result r)) ;;;
      resolve (Ref swarm))).

Definition join (this : loc) (opts : value) : M answer :=
  let call :=
    request "/swarm/join?" POST (Some opts)
      [ok 200; lbl 400 "bad parameter";
       lbl 406 "node is already part of a swarm"] in
  promise (this_modem this) call (fun r =>
    unless_err r (resolve (Raw (result r)))).

Definition leave (this : loc) (opts : value) : M answer :=
  let call :=
    request "/swarm/leave?" POST (Some opts)
      [ok 200; lbl 406 "node is not part of a swarm"] in
  promise (this_modem this) call (fun r =>
    unless_err r (resolve (Raw (result r)))).

Definition update (this : loc) (opts : value) : M answer :=
  let call :=
    request "/swarm/update?" POST (Some opts)
      [ok 200; lbl 400 "bad parameter";
       lbl 406 "node is already part of a swarm"] in
  promise (this_modem this) call (fun r =>
    unless_err r (resolve (Raw (result r)))).

End Swarm.

(** ** task.ts *)

Module Task.

Definition status (this : loc) (opts : value) : M answer :=
  id <- this_id this ;;
  let call :=
    request ("/tasks/" +:+ to_string id +:+ "?") GET (Some opts)
      [ok 200; lbl 404 "no such task"; lbl 500 "server error"] in
  promise (this_modem this) call (fun r =>
    unless_err r (
      m <- this_modem this ;;
      id <- this_id this ;;
      task <- new_Handle KTask m id ;;
      modify task (set_data (result r)) ;;;
      resolve (Ref task))).

End Task.

Module TaskManager.

Record t : Type := Make { modem : Modem }.

Definition get (this : t) (id : value) : M loc :=
  new_Handle KTask (modem this) id.

Definition list (this : t) (opts : value) : M answer :=
  let call :=
    request "/tasks?" GET (Some opts)
      [ok 200; lbl 500 "server error"] in
  promise (ret (modem this)) call (fun r =>
    unless_err r (
      if negb (truthy (get_prop_opt (result r) "length")) then resolve (Refs [])
      else
        tasks <- array_map (result r) (fun conf =>
          id <- lift (get_prop conf "ID") ;;
          task <- new_Handle KTask (modem this) id ;;
          modify task (set_data conf) ;;;
          ret task) ;;
        resolve (Refs tasks))).

End TaskManager.

(** ** docker.ts *)

(** *** class Docker, the facade *)
Module Docker.

Record t : Type := Make {
  modem : Modem;
  container : ContainerManager.t;
  image : ImageManager.t;
  volume : VolumeManager.t;
  network : NetworkManager.t;
  node : NodeManager.t;
  plugin : loc;
  secret : SecretManager.t;
  service : ServiceManager.t;
  swarm : loc;
  task : TaskManager.t
}.

(** The constructor; [m] is the collaborator [new Modem(opts)] built.
    The plugin and swarm slots hold objects of the classes [Plugin]
    (without an id) and [Swarm]. *)
Definition new (m : Modem) : M t :=
  p <- new_Plugin m VUndef ;;
  s <- new_Swarm m ;;
  ret (Make m (ContainerManager.Make m) (ImageManager.Make m)
            (VolumeManager.Make m) (NetworkManager.Make m)
            (NodeManager.Make m) p (SecretManager.Make m)
            (ServiceManager.Make m) s (TaskManager.Make m)).

Definition auth (this : t) (opts : value) : M answer :=
  let call :=
    request "/auth?" POST (Some opts)
      [ok 200; ok 204; lbl 500 "server error"] in
  promise (ret (modem this)) call (fun r =>
    unless_err r (resolve (Raw (result r)))).

Definition info (this : t) : M answer :=
  let call :=
    request "/info?" GET None [ok 200; lbl 500 "server error"] in
  promise (ret (modem this)) call (fun r =>
    unless_err r (resolve (Raw (result r)))).

Definition version (this : t) : M answer :=
  let call :=
    request "/version?" GET None [ok 200; lbl 500 "server error"] in
  promise (ret (modem this)) call (fun r =>
    unless_err r (resolve (Raw (result r)))).

Definition ping (this : t) : M answer :=
  let call :=
    request "/_ping?" GET None [ok 200; lbl 500 "server error"] in
  promise (ret (modem this)) call (fun r =>
    unless_err r (resolve (Raw (result r)))).

Definition events (this : t) (opts : value) : M answer :=
  let opts := default_param (VObj []) opts in
  let call :=
    with_isStream (VBool true) (
      request "/events?" GET (Some opts)
        [ok 200; lbl 500 "server error"]) in
  promise (ret (modem this)) call (fun r =>
    unless_err r (resolve (Raw (result r)))).

End Docker.

(** ** Every promise-returning public method, as data

    One constructor per method of the classes above, carrying the
    receiver and the arguments of a call; [run] performs the call. *)
Inductive operation : Type :=
| Exec_create (this : loc) (opts : value)
| Exec_start (this : loc) (opts : value)
| Exec_resize (this : loc) (opts : value)
| Exec_status (this : loc) (opts : value)
| ExecManager_create (this : loc) (opts : value)
| ContainerFs_info (this : loc) (opts : value)
| ContainerFs_get (this : loc) (opts : value)
| ContainerFs_put (this : loc) (file opts : value)
| Container_status (this : loc) (opts : value)
| Container_top (this : loc) (opts : value)
| Container_logs (this : loc) (opts : value)
| Container_changes (this : loc)
| Container_export (this : loc) (opts : value)
| Container_stats (this : loc) (opts : value)
| Container_resize (this : loc) (opts : value)
| Container_start (this : loc) (opts : value)
| Container_stop (this : loc) (opts : value)
| Container_restart (this : loc) (opts : value)
| Container_kill (this : loc) (opts : value)
| Container_update (this : loc) (opts : value)
| Container_rename (this : loc) (opts : value)
| Container_pause (this : loc)
| Container_unpause (this : loc)
| Container_attach (this : loc) (opts : value)
| Container_wsattach (this : loc) (opts : value)
| Container_wait (this : loc)
| Container_delete (this : loc) (opts : value)
| Container_commit (this : loc) (opts : value)
| ContainerManager_list (this : ContainerManager.t) (opts : value)
| ContainerManager_create (this : ContainerManager.t) (opts : value)
| ContainerManager_prune (this : ContainerManager.t) (opts : value)
| Image_status (this : loc) (opts : value)
| Image_history (this : loc) (opts : value)
| Image_push (this : loc) (auth opts : value)
| Image_tag (this : loc) (opts : value)
| Image_remove (this : loc) (opts : value)
| Image_get (this : loc) (opts : value)
| ImageManager_search (this : ImageManager.t) (opts : value)
| ImageManager_list (this : ImageManager.t) (opts : value)
| ImageManager_build (this : ImageManager.t) (file opts auth : value)
| ImageManager_create (this : ImageManager.t) (auth opts : value)
| ImageManager_getAll (this : ImageManager.t) (opts : value)
| ImageManager_load (this : ImageManager.t) (file opts : value)
| ImageManager_prune (this : ImageManager.t) (opts : value)
| Plugin_list (this : loc) (opts : value)
| Plugin_upgrade (this : loc) (opts : value)
| Plugin_create (this : loc) (opts : value)
| Plugin_install (this : loc) (opts : value)
| Plugin_status (this : loc) (opts id : value)
| Plugin_remove (this : loc) (opts id : value)
| Plugin_push (this : loc) (opts id : value)
| Plugin_set (this : loc) (opts id : value)
| Plugin_enable (this : loc) (opts id : value)
| Plugin_disable (this : loc) (opts id : value)
| Volume_status (this : loc) (opts : value)
| Volume_remove (this : loc) (opts : value)
| VolumeManager_list (this : VolumeManager.t) (opts : value)
| VolumeManager_create (this : VolumeManager.t) (opts : value)
| VolumeManager_prune (this : VolumeManager.t) (opts : value)
| Network_status (this : loc) (opts : value)
| Network_remove (this : loc) (opts : value)
| Network_connect (this : loc) (opts : value)
| Network_disconnect (this : loc) (opts : value)
| NetworkManager_list (this : NetworkManager.t) (opts : value)
| NetworkManager_create (this : NetworkManager.t) (opts : value)
| NetworkManager_prune (this : NetworkManager.t) (opts : value)
| Node_update (this : loc) (opts : value)
| Node_status (this : loc) (opts : value)
| Node_remove (this : loc) (opts : value)
| NodeManager_list (this : NodeManager.t) (opts : value)
| Secret_status (this : loc) (opts : value)
| Secret_remove (this : loc) (opts : value)
| SecretManager_list (this : SecretManager.t) (opts : value)
| SecretManager_create (this : SecretManager.t) (opts : value)
| Service_update (this : loc) (opts auth : value)
| Service_status (this : loc) (opts : value)
| Service_remove (this : loc) (opts : value)
| Service_logs (this : loc) (opts : value)
| ServiceManager_create (this : ServiceManager.t) (opts auth : value)
| ServiceManager_list (this : ServiceManager.t) (opts : value)
| Swarm_init (this : loc) (opts : value)
| Swarm_status (this : loc) (opts : value)
| Swarm_join (this : loc) (opts : value)
| Swarm_leave (this : loc) (opts : value)
| Swarm_update (this : loc) (opts : value)
| Task_status (this : loc) (opts : value)
| TaskManager_list (this : TaskManager.t) (opts : value)
| Docker_auth (this : Docker.t) (opts : value)
| Docker_info (this : Docker.t)
| Docker_version (this : Docker.t)
| Docker_ping (this : Docker.t)
| Docker_events (this : Docker.t) (opts : value).

Definition run (op : operation) : M answer :=
  match op with
  | Exec_create this opts => Exec.create this opts
  | Exec_start this opts => Exec.start this opts
  | Exec_resize this opts => Exec.resize this opts
  | Exec_status this opts => Exec.status this opts
  | ExecManager_create this opts => ExecManager.create this opts
  | ContainerFs_info this opts => ContainerFs.info this opts
  | ContainerFs_get this opts => ContainerFs.get this opts
  | ContainerFs_put this file opts => ContainerFs.put this file opts
  | Container_status this opts => Container.status this opts
  | Container_top this opts => Container.top this opts
  | Container_logs this opts => Container.logs this opts
  | Container_changes this => Container.changes this
  | Container_export this opts => Container.export this opts
  | Container_stats this opts => Container.stats this opts
  | Container_resize this opts => Container.resize this opts
  | Container_start this opts => Container.start this opts
  | Container_stop this opts => Container.stop this opts
  | Container_restart this opts => Container.restart this opts
  | Container_kill this opts => Container.kill this opts
  | Container_update this opts => Container.update this opts
  | Container_rename this opts => Container.rename this opts
  | Container_pause this => Container.pause this
  | Container_unpause this => Container.unpause this
  | Container_attach this opts => Container.attach this opts
  | Container_wsattach this opts => Container.wsattach this opts
  | Container_wait this => Container.wait this
  | Container_delete this opts => Container.delete this opts
  | Container_commit this opts => Container.commit this opts
  | ContainerManager_list this opts => ContainerManager.list this opts
  | ContainerManager_create this opts => ContainerManager.create this opts
  | ContainerManager_prune this opts => ContainerManager.prune this opts
  | Image_status this opts => Image.status this opts
  | Image_history this opts => Image.history this opts
  | Image_push this auth opts => Image.push this auth opts
  | Image_tag this opts => Image.tag this opts
  | Image_remove this opts => Image.remove this opts
  | Image_get this opts => Image.get this opts
  | ImageManager_search this opts => ImageManager.search this opts
  | ImageManager_list this opts => ImageManager.list this opts
  | ImageManager_build this file opts auth => ImageManager.build this file opts auth
  | ImageManager_create this auth opts => ImageManager.create this auth opts
  | ImageManager_getAll this opts => ImageManager.getAll this opts
  | ImageManager_load this file opts => ImageManager.load this file opts
  | ImageManager_prune this opts => ImageManager.prune this opts
  | Plugin_list this opts => Plugin.list this opts
  | Plugin_upgrade this opts => Plugin.upgrade this opts
  | Plugin_create this opts => Plugin.create this opts
  | Plugin_install this opts => Plugin.install this opts
  | Plugin_status this opts id => Plugin.status this opts id
  | Plugin_remove this opts id => Plugin.remove this opts id
  | Plugin_push this opts id => Plugin.push this opts id
  | Plugin_set this opts id => Plugin.set this opts id
  | Plugin_enable this opts id => Plugin.enable this opts id
  | Plugin_disable this opts id => Plugin.disable this opts id
  | Volume_status this opts => Volume.status this opts
  | Volume_remove this opts => Volume.remove this opts
  | VolumeManager_list this opts => VolumeManager.list this opts
  | VolumeManager_create this opts => VolumeManager.create this opts
  | VolumeManager_prune this opts => VolumeManager.prune this opts
  | Network_status this opts => Network.status this opts
  | Network_remove this opts => Network.remove this opts
  | Network_connect this opts => Network.connect this opts
  | Network_disconnect this opts => Network.disconnect this opts
  | NetworkManager_list this opts => NetworkManager.list this opts
  | NetworkManager_create this opts => NetworkManager.create this opts
  | NetworkManager_prune this opts => NetworkManager.prune this opts
  | Node_update this opts => Node.update this opts
  | Node_status this opts => Node.status this opts
  | Node_remove this opts => Node.remove this opts
  | NodeManager_list this opts => NodeManager.list this opts
  | Secret_status this opts => Secret.status this opts
  | Secret_remove this opts => Secret.remove this opts
  | SecretManager_list this opts => SecretManager.list this opts
  | SecretManager_create this opts => SecretManager.create this opts
  | Service_update this opts auth => Service.update this opts auth
  | Service_status this opts => Service.status this opts
  | Service_remove this opts => Service.remove this opts
  | Service_logs this opts => Service.logs this opts
  | ServiceManager_create this opts auth => ServiceManager.create this opts auth
  | ServiceManager_list this opts => ServiceManager.list this opts
  | Swarm_init this opts => Swarm.init this opts
  | Swarm_status this opts => Swarm.status this opts
  | Swarm_join this opts => Swarm.join this opts
  | Swarm_leave this opts => Swarm.leave this opts
  | Swarm_update this opts => Swarm.update this opts
  | Task_status this opts => Task.status this opts
  | TaskManager_list this opts => TaskManager.list this opts
  | Docker_auth this opts => Docker.auth this opts
  | Docker_info this => Docker.info this
  | Docker_version this => Docker.version this
  | Docker_ping this => Docker.ping this
  | Docker_events this opts => Docker.events this opts
  end.

(** ** Vocabulary of the statements *)

(** Method dispatch of [h.status(opts, id)] on the class of the
    receiver.  Only [Plugin.status] looks at the second argument; the
    two classes without such a method make the call throw. *)
Definition status_of (this : loc) (opts id : value) : M answer :=
  o <- read this ;;
  match o with
  | OExec _ _ _ _ => Exec.status this opts
  | OContainer _ _ _ _ _ _ => Container.status this opts
  | OHandle KImage _ _ _ => Image.status this opts
  | OHandle KVolume _ _ _ => Volume.status this opts
  | OHandle KNetwork _ _ _ => Network.status this opts
  | OHandle KNode _ _ _ => Node.status this opts
  | OHandle KService _ _ _ => Service.status this opts
  | OHandle KTask _ _ _ => Task.status this opts
  | OHandle KSecret _ _ _ => Secret.status this opts
  | OSwarm _ _ => Swarm.status this opts
  | OPlugin _ _ _ => Plugin.status this opts id
  | OExecManager _ _ | OContainerFs _ _ => lift (Throw TypeError)
  end.

(** Method dispatch of the removal of a handle: [delete] on a
    container, [remove] on the other classes that have it. *)
Definition remove_of (this : loc) (opts id : value) : M answer :=
  o <- read this ;;
  match o with
  | OContainer _ _ _ _ _ _ => Container.delete this opts
  | OHandle KImage _ _ _ => Image.remove this opts
  | OHandle KVolume _ _ _ => Volume.remove this opts
  | OHandle KNetwork _ _ _ => Network.remove this opts
  | OHandle KNode _ _ _ => Node.remove this opts
  | OHandle KService _ _ _ => Service.remove this opts
  | OHandle KSecret _ _ _ => Secret.remove this opts
  | OPlugin _ _ _ => Plugin.remove this opts id
  | OHandle KTask _ _ _ | OExec _ _ _ _ | OSwarm _ _
  | OExecManager _ _ | OContainerFs _ _ => lift (Throw TypeError)
  end.

(** The classes whose instances [remove_of] can remove. *)
Definition removable (o : obj) : bool :=
  match o with
  | OContainer _ _ _ _ _ _ | OPlugin _ _ _ => true
  | OHandle k _ _ _ => match k with KTask => false | _ => true end
  | _ => false
  end.

(** The state-changing container actions that resolve with [this]. *)
Inductive action : Type :=
| AStart | AStop | ARestart | AKill | APause | AUnpause | ARename.

Definition act (a : action) (this : loc) (opts : value) : M answer :=
  match a with
  | AStart => Container.start this opts
  | AStop => Container.stop this opts
  | ARestart => Container.restart this opts
  | AKill => Container.kill this opts
  | APause => Container.pause this
  | AUnpause => Container.unpause this
  | ARename => Container.rename this opts
  end.

(** The objects exposing [get(id)]: the eight manager classes held by
    value and the exec manager a container owns. *)
Inductive manager : Type :=
| MContainer (t : ContainerManager.t)
| MImage (t : ImageManager.t)
| MVolume (t : VolumeManager.t)
| MNetwork (t : NetworkManager.t)
| MNode (t : NodeManager.t)
| MSecret (t : SecretManager.t)
| MService (t : ServiceManager.t)
| MTask (t : TaskManager.t)
| MExec (this : loc).

Definition manager_get (mgr : manager) (id : value) : M loc :=
  match mgr with
  | MContainer t => ContainerManager.get t id
  | MImage t => ImageManager.get t id
  | MVolume t => VolumeManager.get t id
  | MNetwork t => NetworkManager.get t id
  | MNode t => NodeManager.get t id
  | MSecret t => SecretManager.get t id
  | MService t => ServiceManager.get t id
  | MTask t => TaskManager.get t id
  | MExec this => ExecManager.get this id
  end.

(** The manager's transport reference, when the manager exists. *)
Definition manager_modem (mgr : manager) (w : world) : option Modem :=
  match mgr with
  | MContainer t => Some (ContainerManager.modem t)
  | MImage t => Some (ImageManager.modem t)
  | MVolume t => Some (VolumeManager.modem t)
  | MNetwork t => Some (NetworkManager.modem t)
  | MNode t => Some (NodeManager.modem t)
  | MSecret t => Some (SecretManager.modem t)
  | MService t => Some (ServiceManager.modem t)
  | MTask t => Some (TaskManager.modem t)
  | MExec this =>
      match heap w !! this with
      | Some (OExecManager m _) => Some m
      | _ => None
      end
  end.

(** [pat] occurs in [s]. *)
Definition occurs (pat s : string) : Prop :=
  exists a b, s = a +:+ pat +:+ b.

Fixpoint last_char (s : string) : option Ascii.ascii :=
  match s with
  | EmptyString => None
  | String c EmptyString => Some c
  | String _ s' => last_char s'
  end.

(** The path ends with the query placeholder ['?']. *)
Definition ends_with_placeholder (s : string) : bool :=
  match last_char s with
  | Some c => Ascii.eqb c "?"%char
  | None => false
  end.

(** The six methods whose path literal carries no ['?'] at all. *)
Definition placeholder_missing (op : operation) : bool :=
  match op with
  | ContainerManager_prune _ _ | ImageManager_prune _ _
  | VolumeManager_prune _ _ | NetworkManager_prune _ _
  | VolumeManager_list _ _ | SecretManager_list _ _ => true
  | _ => false
  end.

(** What the path of a descriptor looks like, per method:
    [ContainerFs.get] already spends the placeholder on [path=] and
    ends with the separator ['&']. *)
Definition path_shape (op : operation) (p : string) : Prop :=
  match op with
  | ContainerFs_get _ _ =>
      last_char p = Some "&"%char /\ occurs "/archive?path=" p
  | _ => ends_with_placeholder p = true
  end.

(** The methods whose callback, once past the [err] guard, settles the
    promise without reading a field of the delivered body or of the
    option bag, and without waiting for anything else. *)
Definition forwards (op : operation) : bool :=
  match op with
  | Exec_create _ _ | Exec_status _ _ | ExecManager_create _ _
  | Container_export _ _ | Container_commit _ _
  | ContainerManager_list _ _ | ContainerManager_create _ _
  | Image_tag _ _ | ImageManager_list _ _
  | Plugin_list _ _ | Plugin_create _ _ | Plugin_install _ _
  | VolumeManager_list _ _ | VolumeManager_create _ _
  | NetworkManager_list _ _ | NetworkManager_create _ _
  | NodeManager_list _ _
  | SecretManager_list _ _ | SecretManager_create _ _
  | ServiceManager_create _ _ _ | ServiceManager_list _ _
  | TaskManager_list _ _ => false
  | _ => true
  end.

(** The callback received an error: [err] is truthy. *)
Definition failed (r : response) : bool := truthy (err r).

(** The [Plugin] methods that start with [__processArguments]: the
    receiver, the two arguments as they reach it, and the literal that
    follows the identifier in the path. *)
Definition plugin_args (op : operation) : option (loc * value * value * string) :=
  match op with
  | Plugin_upgrade this opts => Some (this, opts, VUndef, "/upgrade?")
  | Plugin_status this opts id => Some (this, opts, id, "?")
  | Plugin_remove this opts id => Some (this, opts, id, "?")
  | Plugin_push this opts id => Some (this, opts, id, "/push?")
  | Plugin_set this opts id => Some (this, opts, id, "/set?")
  | Plugin_enable this opts id => Some (this, opts, id, "/enable?")
  | Plugin_disable this opts id => Some (this, opts, id, "/disable?")
  | _ => None
  end.

(** [typeof v === 'string'] *)
Definition is_string (v : value) : bool :=
  match v with
  | VStr _ => true
  | _ => false
  end.

(** A computation that neither talks to the transport nor settles
    anything: it returns or throws, with the script and the log as
    they were. *)
Definition quiet {A : Type} (m : M A) : Prop :=
  forall w,
    wire (snd (m w)) = wire w /\ dialed (snd (m w)) = dialed w /\
    ((exists a, fst (m w) = Resolved a) \/ (exists x, fst (m w) = Threw x)).

(** The descriptor of a method has the path shape of that method,
    the six methods without placeholder set aside. *)
Definition path_ok (op : operation) (c : call) : Prop :=
  placeholder_missing op = false -> path_shape op (path c).

(** How a call of a method can end, as a relation between the state
    before and the outcome with the state after.  [P] is a property of
    every descriptor dialed, [fwd] says whether the callback is known
    to settle the promise once past the [err] guard.
    - [shape_threw]: the method threw before it dialed anything;
    - [shape_pending]: it dialed, the collaborator never completes;
    - [shape_rejected]: the callback received an error and passed it
      to [reject];
    - [shape_settled]: the callback received no error; the promise is
      then never rejected;
    - [shape_chained]: the callback received no error and the method
      went on, without throwing, with a further request. *)
Inductive shape (P : call -> Prop)
  : world -> bool -> outcome answer * world -> Prop :=
| shape_threw h wi d fwd x h' :
    shape P (World h wi d) fwd (Threw x, World h' wi d)
| shape_pending h d fwd m c h' :
    P c ->
    shape P (World h [] d) fwd (Pending, World h' [] (d ++ [(m, c)]))
| shape_rejected h r rest d fwd m c h' :
    failed r = true -> P c ->
    shape P (World h (r :: rest) d) fwd
      (Rejected (err r), World h' rest (d ++ [(m, c)]))
| shape_settled h r rest d fwd m c h' o :
    failed r = false -> P c ->
    (forall e, o <> Rejected e) -> (forall x, o <> Threw x) ->
    (fwd = true -> exists a, o = Resolved a) ->
    shape P (World h (r :: rest) d) fwd (o, World h' rest (d ++ [(m, c)]))
| shape_chained h r rest d fwd m c h' out :
    failed r = false -> P c ->
    shape P (World h' rest (d ++ [(m, c)])) fwd out ->
    (forall x, fst out <> Threw x) ->
    shape P (World h (r :: rest) d) false out.

(** *** Sample states *)

(** A heap holding the container ["abc"] with its two sub-handles, an
    image, a volume, an exec session, a plugin object without id (as
    the facade's plugin slot holds) and the plugin ["mine"], all on
    collaborator 7. *)
Definition sample_heap : list obj :=
  [OContainer 7 (VStr "abc") 1 2 (VArr []) VUndef;
   OContainerFs 7 0;
   OExecManager 7 0;
   OHandle KImage 7 (VStr "alpine") (VObj []);
   OHandle KVolume 7 (VStr "vol") (VObj []);
   OExec 7 0 (VStr "e1") (VObj []);
   OPlugin (FModem 7) VUndef [];
   OPlugin (FModem 7) (VStr "mine") []].

(** [sample_heap] with the collaborator about to deliver [rs]. *)
Definition sample (rs : list response) : world := World sample_heap rs [].

(** A completion without error delivering [body]. *)
Definition success (body : value) : response := Response VNull body.

(** A completion with the error [e]. *)
Definition failure (e : value) : response := Response e VUndef.

(** A delivered element that has properties to read. *)
Definition readable (conf : value) : Prop := conf <> VUndef /\ conf <> VNull.

(** The callback most list methods map over the delivered array: a new
    handle of class [k] named by the element's [key], holding the
    element as its snapshot. *)
Definition wrap_handle (k : kind) (m : Modem) (key : string) (conf : value)
  : M loc :=
  id <- lift (get_prop conf key) ;;
  h <- new_Handle k m id ;;
  modify h (set_data conf) ;;;
  ret h.

(** The callback [ContainerManager.list] maps over the delivered
    array: a new container named by the element's [Id], holding the
    element as its snapshot. *)
Definition wrap_container (m : Modem) (conf : value) : M loc :=
  id <- lift (get_prop conf "Id") ;;
  container <- new_Container m id ;;
  modify container (set_data conf) ;;;
  ret container.

(** *** Receivers *)

(** What a method is called on: an object of the heap (a handle, a
    sub-handle, the plugin or the swarm object), one of the eight
    manager classes, or the facade. *)
Inductive target : Type :=
| TObject (this : loc)
| TContainerManager (t : ContainerManager.t)
| TImageManager (t : ImageManager.t)
| TVolumeManager (t : VolumeManager.t)
| TNetworkManager (t : NetworkManager.t)
| TNodeManager (t : NodeManager.t)
| TSecretManager (t : SecretManager.t)
| TServiceManager (t : ServiceManager.t)
| TTaskManager (t : TaskManager.t)
| TDocker (t : Docker.t).

(** The receiver of a call. *)
Definition receiver (op : operation) : target :=
  match op with
  | Exec_create this _ | Exec_start this _ | Exec_resize this _
  | Exec_status this _ | ExecManager_create this _
  | ContainerFs_info this _ | ContainerFs_get this _ | ContainerFs_put this _ _
  | Container_status this _ | Container_top this _ | Container_logs this _
  | Container_changes this | Container_export this _ | Container_stats this _
  | Container_resize this _ | Container_start this _ | Container_stop this _
  | Container_restart this _ | Container_kill this _ | Container_update this _
  | Container_rename this _ | Container_pause this | Container_unpause this
  | Container_attach this _ | Container_wsattach this _ | Container_wait this
  | Container_delete this _ | Container_commit this _
  | Image_status this _ | Image_history this _ | Image_push this _ _
  | Image_tag this _ | Image_remove this _ | Image_get this _
  | Plugin_list this _ | Plugin_upgrade this _ | Plugin_create this _
  | Plugin_install this _ | Plugin_status this _ _ | Plugin_remove this _ _
  | Plugin_push this _ _ | Plugin_set this _ _ | Plugin_enable this _ _
  | Plugin_disable this _ _
  | Volume_status this _ | Volume_remove this _
  | Network_status this _ | Network_remove this _ | Network_connect this _
  | Network_disconnect this _
  | Node_update this _ | Node_status this _ | Node_remove this _
  | Secret_status this _ | Secret_remove this _
  | Service_update this _ _ | Service_status this _ | Service_remove this _
  | Service_logs this _
  | Swarm_init this _ | Swarm_status this _ | Swarm_join this _
  | Swarm_leave this _ | Swarm_update this _
  | Task_status this _ => TObject this
  | ContainerManager_list this _ | ContainerManager_create this _
  | ContainerManager_prune this _ => TContainerManager this
  | ImageManager_search this _ | ImageManager_list this _
  | ImageManager_build this _ _ _ | ImageManager_create this _ _
  | ImageManager_getAll this _ | ImageManager_load this _ _
  | ImageManager_prune this _ => TImageManager this
  | VolumeManager_list this _ | VolumeManager_create this _
  | VolumeManager_prune this _ => TVolumeManager this
  | NetworkManager_list this _ | NetworkManager_create this _
  | NetworkManager_prune this _ => TNetworkManager this
  | NodeManager_list this _ => TNodeManager this
  | SecretManager_list this _ | SecretManager_create this _ =>
      TSecretManager this
  | ServiceManager_create this _ _ | ServiceManager_list this _ =>
      TServiceManager this
  | TaskManager_list this _ => TTaskManager this
  | Docker_auth this _ | Docker_info this | Docker_version this
  | Docker_ping this | Docker_events this _ => TDocker this
  end.

(** [t.modem], when [t] exists and the property still holds the
    collaborator. *)
Definition target_modem (t : target) (w : world) : option Modem :=
  match t with
  | TObject this =>
      match heap w !! this with
      | Some o => match obj_modem o with
                  | Normal m => Some m
                  | Throw _ => None
                  end
      | None => None
      end
  | TContainerManager t => Some (ContainerManager.modem t)
  | TImageManager t => Some (ImageManager.modem t)
  | TVolumeManager t => Some (VolumeManager.modem t)
  | TNetworkManager t => Some (NetworkManager.modem t)
  | TNodeManager t => Some (NodeManager.modem t)
  | TSecretManager t => Some (SecretManager.modem t)
  | TServiceManager t => Some (ServiceManager.modem t)
  | TTaskManager t => Some (TaskManager.modem t)
  | TDocker t => Some (Docker.modem t)
  end.

(** The calls made through the facade: a method of the facade itself,
    of the manager one of its slots holds, or of the plugin or the
    swarm object its constructor built, each called on an object of
    its own class. *)
Definition through_facade (d : Docker.t) (op : operation) : Prop :=
  match op with
  | Docker_auth this _ | Docker_info this | Docker_version this
  | Docker_ping this | Docker_events this _ => this = d
  | ContainerManager_list this _ | ContainerManager_create this _
  | ContainerManager_prune this _ => this = Docker.container d
  | ImageManager_search this _ | ImageManager_list this _
  | ImageManager_build this _ _ _ | ImageManager_create this _ _
  | ImageManager_getAll this _ | ImageManager_load this _ _
  | ImageManager_prune this _ => this = Docker.image d
  | VolumeManager_list this _ | VolumeManager_create this _
  | VolumeManager_prune this _ => this = Docker.volume d
  | NetworkManager_list this _ | NetworkManager_create this _
  | NetworkManager_prune this _ => this = Docker.network d
  | NodeManager_list this _ => this = Docker.node d
  | SecretManager_list this _ | SecretManager_create this _ =>
      this = Docker.secret d
  | ServiceManager_create this _ _ | ServiceManager_list this _ =>
      this = Docker.service d
  | TaskManager_list this _ => this = Docker.task d
  | Plugin_list this _ | Plugin_upgrade this _ | Plugin_create this _
  | Plugin_install this _ | Plugin_status this _ _ | Plugin_remove this _ _
  | Plugin_push this _ _ | Plugin_set this _ _ | Plugin_enable this _ _
  | Plugin_disable this _ _ => this = Docker.plugin d
  | Swarm_init this _ | Swarm_status this _ | Swarm_join this _
  | Swarm_leave this _ | Swarm_update this _ => this = Docker.swarm d
  | _ => False
  end.

(** How many requests a call can issue: [Image.tag] chains a status
    request after its own. *)
Definition requests (op : operation) : nat :=
  match op with
  | Image_tag _ _ => 2
  | _ => 1
  end.

(** *** Status tables *)

Definition is_success (s : status) : bool :=
  match s with
  | Success => true
  | Label _ => false
  end.

(** No code is listed twice. *)
Fixpoint distinct_codes (codes : list (Z * status)) : bool :=
  match codes with
  | [] => true
  | (c, _) :: rest =>
      match code_entry c rest with
      | None => distinct_codes rest
      | Some _ => false
      end
  end.

(** A table that lists some success, marks as success exactly the
    codes below 400, and lists no code twice. *)
Definition table_ok (codes : list (Z * status)) : bool :=
  existsb (fun e => is_success (snd e)) codes &&
  forallb (fun e => Bool.eqb (is_success (snd e)) (fst e <? 400)%Z) codes &&
  distinct_codes codes.

(** *** The footprint of a call *)

(** What a call of a method leaves behind: the objects of the heap are
    as they were, [objs] having been constructed after them; [calls]
    are the requests issued, at most [n], each dialed on [m0] with a
    well-formed status table. *)
Inductive effect (m0 : option Modem) (n : nat)
  : world -> outcome answer * world -> Prop :=
| effect_intro h wi d o objs wi' calls :
    length calls <= n ->
    Forall (fun mc => Some (fst mc) = m0 /\
                      table_ok (statusCodes (snd mc)) = true) calls ->
    effect m0 n (World h wi d) (o, World (h ++ objs) wi' (d ++ calls)).

(** A computation that leaves the script, the log and the existing
    objects alone: all it may do is construct objects. *)
Definition calm {A : Type} (m : M A) : Prop :=
  forall w,
    wire (snd (m w)) = wire w /\ dialed (snd (m w)) = dialed w /\
    exists objs, heap (snd (m w)) = heap w ++ objs.

(** *** Classes of methods *)

(** The methods whose callback is [resolve(res)] right after the
    [err] guard. *)
Definition passes_through (op : operation) : bool :=
  match op with
  | Exec_start _ _ | Exec_resize _ _
  | ContainerFs_info _ _ | ContainerFs_get _ _ | ContainerFs_put _ _ _
  | Container_top _ _ | Container_logs _ _ | Container_changes _
  | Container_stats _ _ | Container_resize _ _ | Container_wait _
  | Container_delete _ _ | ContainerManager_prune _ _
  | Image_history _ _ | Image_push _ _ _ | Image_remove _ _ | Image_get _ _
  | ImageManager_search _ _ | ImageManager_build _ _ _ _
  | ImageManager_create _ _ _ | ImageManager_getAll _ _
  | ImageManager_load _ _ _ | ImageManager_prune _ _
  | Plugin_remove _ _ _ | Volume_remove _ _ | VolumeManager_prune _ _
  | Network_remove _ _ | NetworkManager_prune _ _ | Node_remove _ _
  | Secret_remove _ _ | Service_remove _ _ | Service_logs _ _
  | Swarm_join _ _ | Swarm_leave _ _ | Swarm_update _ _
  | Docker_auth _ _ | Docker_info _ | Docker_version _ | Docker_ping _
  | Docker_events _ _ => true
  | _ => false
  end.

(** [!v?.length] *)
Definition no_length (v : value) : bool :=
  negb (truthy (get_prop_opt v "length")).

(** The delivered bodies a [list] method takes for an empty
    collection: an empty array where the result is mapped unguarded;
    anything without a truthy [length] behind the [?.] guard; for
    secrets anything but [null] and [undefined] without a truthy
    [length]; for volumes such a body whose [Volumes] has no truthy
    [length]. *)
Definition taken_for_empty (op : operation) (body : value) : bool :=
  match op with
  | ContainerManager_list _ _ | ImageManager_list _ _
  | ServiceManager_list _ _ =>
      match body with
      | VArr [] => true
      | _ => false
      end
  | Plugin_list _ _ | NetworkManager_list _ _ | NodeManager_list _ _
  | TaskManager_list _ _ => no_length body
  | SecretManager_list _ _ =>
      match get_prop body "length" with
      | Normal len => negb (truthy len)
      | Throw _ => false
      end
  | VolumeManager_list _ _ =>
      match get_prop body "Volumes" with
      | Normal Volumes => no_length Volumes
      | Throw _ => false
      end
  | _ => false
  end.

(** *** Creating managers *)

(** The managers whose [create] resolves with a handle named by a
    field of the response. *)
Inductive creator : Type :=
| CContainer (t : ContainerManager.t)
| CNetwork (t : NetworkManager.t)
| CSecret (t : SecretManager.t)
| CService (t : ServiceManager.t) (auth : value)
| CVolume (t : VolumeManager.t).

Definition create_of (c : creator) (opts : value) : M answer :=
  match c with
  | CContainer t => ContainerManager.create t opts
  | CNetwork t => NetworkManager.create t opts
  | CSecret t => SecretManager.create t opts
  | CService t auth => ServiceManager.create t opts auth
  | CVolume t => VolumeManager.create t opts
  end.

Definition creator_modem (c : creator) : Modem :=
  match c with
  | CContainer t => ContainerManager.modem t
  | CNetwork t => NetworkManager.modem t
  | CSecret t => SecretManager.modem t
  | CService t _ => ServiceManager.modem t
  | CVolume t => VolumeManager.modem t
  end.

(** The field of the create response that names the new handle. *)
Definition id_key (c : creator) : string :=
  match c with
  | CContainer _ | CNetwork _ => "Id"
  | CSecret _ | CService _ _ => "ID"
  | CVolume _ => "Name"
  end.

(** The path on which the status of the resource [id] is fetched. *)
Definition status_path (c : creator) (id : value) : string :=
  match c with
  | CContainer _ => "/containers/" +:+ to_string id +:+ "/json?"
  | CNetwork _ => "/networks/" +:+ to_string id +:+ "?"
  | CSecret _ => "/secrets/" +:+ to_string id +:+ "?"
  | CService _ _ => "/services/" +:+ to_string id +:+ "?"
  | CVolume _ => "/volumes/" +:+ to_string id +:+ "?"
  end.

(** What the handle [create] resolves with holds as its snapshot: the
    response, except for a volume, whose [data] stays [{}]. *)
Definition create_snapshot (c : creator) (body : value) : value :=
  match c with
  | CVolume _ => VObj []
  | _ => body
  end.

(** *** Objects built from a response *)

(** The properties of a body that [Object.assign] leaves among the
    extra properties of a plugin: all but [id] and [modem], which land
    on the fields of those names. *)
Definition plain_props (ps : list (string * value)) : list (string * value) :=
  List.filter (fun kv => negb (String.eqb (fst kv) "modem") &&
                         negb (String.eqb (fst kv) "id")) ps.

(** The plugin [Object.assign(new Plugin(m, id), {ps})] evaluates to,
    for a body with distinct keys. *)
Definition merged_plugin (m : Modem) (id : value) (ps : list (string * value))
  : obj :=
  OPlugin (match assoc "modem" ps with
           | Some v => FVal v
           | None => FModem m
           end)
          (default id (assoc "id" ps))
          (plain_props ps).

(** The objects [confs.map(conf => new Container(m, conf.Id))]
    constructs from reference [n] on, each container followed by its
    filesystem accessor and its exec manager and holding [conf] as its
    snapshot. *)
Fixpoint new_containers (m : Modem) (n : loc) (confs : list value) : list obj :=
  match confs with
  | [] => []
  | conf :: rest =>
      OContainer m (get_prop_opt conf "Id") (S n) (S (S n)) (VArr []) conf
      :: OContainerFs m n :: OExecManager m n
      :: new_containers m (3 + n) rest
  end.

(** The references of those containers: every third one. *)
Fixpoint container_refs (n : loc) (confs : list value) : list loc :=
  match confs with
  | [] => []
  | _ :: rest => n :: container_refs (3 + n) rest
  end.

(** * Properties *)

(** ** Strings *)

Section Strings.

Implicit Types a b c p s t pat rep : string.

Lemma append_cons (x : ascii) s t : String x s +:+ t = String x (s +:+ t).
Proof. reflexivity. Qed.

Lemma append_nil_inv a b : a +:+ b = "" -> a = "" /\ b = "".
Proof. destruct a; [done|]. rewrite append_cons. discriminate. Qed.

Lemma append_assoc a b c : (a +:+ b) +:+ c = a +:+ b +:+ c.
Proof. induction a as [|x a IH]; [done|]. by rewrite !append_cons, IH. Qed.

Lemma prefix_spec p s : String.prefix p s = true <-> exists b, s = p +:+ b.
Proof.
  revert s. induction p as [|x p IH]; intros s; simpl.
  - destruct s; split; eauto.
  - destruct s as [|y s]; simpl.
    + split; [discriminate | intros [b Hb]; discriminate].
    + destruct (Ascii.ascii_dec x y) as [->|Hne].
      * rewrite IH. split; intros [b Hb]; exists b.
        -- by rewrite Hb.
        -- rewrite append_cons in Hb. by injection Hb.
      * split; [discriminate|].
        intros [b Hb]. rewrite append_cons in Hb. congruence.
Qed.

Lemma string_drop_app p t : string_drop (String.length p) (p +:+ t) = t.
Proof. induction p; simpl; [by destruct t | done]. Qed.

Lemma replace_unfold pat rep s :
  replace pat rep s =
  if String.prefix pat s then rep +:+ string_drop (String.length pat) s
  else match s with
       | EmptyString => EmptyString
       | String x s' => String x (replace pat rep s')
       end.
Proof. by destruct s. Qed.

(** A leading occurrence is the one replaced. *)
Lemma replace_prefix pat rep t : replace pat rep (pat +:+ t) = rep +:+ t.
Proof.
  rewrite replace_unfold.
  assert (String.prefix pat (pat +:+ t) = true) as ->
    by (apply prefix_spec; eauto).
  by rewrite string_drop_app.
Qed.

Lemma occurs_cons pat s (x : ascii) : occurs pat s -> occurs pat (String x s).
Proof. intros (a & b & ->). by exists (String x a), b. Qed.

Lemma occurs_inside a b pat c : occurs pat (a +:+ b +:+ pat +:+ c).
Proof. exists (a +:+ b), c. by rewrite append_assoc. Qed.

(** Without any occurrence the string is returned as it is. *)
Lemma replace_absent pat rep s : ~ occurs pat s -> replace pat rep s = s.
Proof.
  induction s as [|x s IH]; intros Hno; rewrite replace_unfold.
  - destruct (String.prefix pat "") eqn:E; [|done].
    apply prefix_spec in E as [b Hb]. destruct Hno. by exists "", b.
  - destruct (String.prefix pat (String x s)) eqn:E.
    + apply prefix_spec in E as [b Hb]. destruct Hno. by exists "", b.
    + f_equal. apply IH. intros H. by apply Hno, occurs_cons.
Qed.

(** The occurrence replaced is the leftmost one. *)
Lemma replace_first pat rep s :
  occurs pat s ->
  exists a b,
    s = a +:+ pat +:+ b /\ replace pat rep s = a +:+ rep +:+ b /\
    forall a' b', s = a' +:+ pat +:+ b' ->
      String.length a <= String.length a'.
Proof.
  induction s as [|x s IH]; intros Hocc; rewrite replace_unfold.
  - destruct Hocc as (a & b & Hab).
    symmetry in Hab. apply append_nil_inv in Hab as [-> Hab].
    apply append_nil_inv in Hab as [-> ->].
    exists "", "". repeat split. intros; apply Nat.le_0_l.
  - destruct (String.prefix pat (String x s)) eqn:E.
    + apply prefix_spec in E as [b Hb].
      exists "", b. rewrite Hb, string_drop_app.
      repeat split. intros; apply Nat.le_0_l.
    + assert (Hne : forall a' b', String x s = a' +:+ pat +:+ b' ->
                exists a'', a' = String x a'' /\ s = a'' +:+ pat +:+ b').
      { intros [|y a''] b' H.
        - assert (String.prefix pat (String x s) = true)
            by (apply prefix_spec; eauto).
          congruence.
        - rewrite append_cons in H. injection H as -> ->. eauto. }
      destruct Hocc as (a0 & b0 & H0).
      destruct (Hne _ _ H0) as (a0' & -> & Hs).
      destruct IH as (a & b & Hs' & Hr & Hmin); [by exists a0', b0|].
      exists (String x a), b. rewrite Hr. repeat split.
      * by rewrite Hs' at 1.
      * intros a' b' H. destruct (Hne _ _ H) as (a'' & -> & Hs'').
        specialize (Hmin _ _ Hs'').
        change (S (String.length a) <= S (String.length a'')). lia.
Qed.

Lemma last_char_app a b : b <> "" -> last_char (a +:+ b) = last_char b.
Proof.
  intros Hb. induction a as [|x a IH]; [done|].
  rewrite append_cons. cbn [last_char]. rewrite IH.
  destruct (a +:+ b) eqn:E; [|done].
  by apply append_nil_inv in E as [_ ->].
Qed.

Lemma last_char_app_r a b (x : ascii) :
  last_char b = Some x -> last_char (a +:+ b) = Some x.
Proof. intros H. rewrite last_char_app; [done|]. by intros ->. Qed.

Lemma ends_with_placeholder_app a b :
  ends_with_placeholder b = true -> ends_with_placeholder (a +:+ b) = true.
Proof.
  unfold ends_with_placeholder. intros H.
  rewrite last_char_app; [done|]. by intros ->.
Qed.

End Strings.

(** ** Evaluating methods *)

Lemma alter_fresh (f : obj -> obj) (h : list obj) (o : obj) (t : list obj) :
  alter f (length h) (h ++ o :: t) = h ++ f o :: t.
Proof. rewrite alter_app_r_alt by lia. by rewrite Nat.sub_diag. Qed.

(** Unfold the combinators, outermost first. *)
Ltac unfold_monad :=
  unfold promise, unless_err, this_container_id, resolve, new_Handle,
    new_Container, new_Exec, new_Swarm, new_Plugin, pending, failed in *;
  unfold this_modem, this_id, this_container in *;
  unfold read, bind, ret, lift, dial, in_callback, reject, alloc, modify in *.

(** Rewrite with what the context says about the state. *)
Ltac use_hyps :=
  repeat match goal with
  | H : heap ?w !! ?l = _ |- context [heap ?w !! ?l] => rewrite H
  | H : wire ?w = _ |- context [wire ?w] => rewrite H
  | H : truthy ?v = _ |- context [truthy ?v] => rewrite H
  | H : obj_modem ?o = _ |- context [obj_modem ?o] => rewrite H
  | H : get_prop ?v ?k = _ |- context [get_prop ?v ?k] => rewrite H
  | H : set_prop ?v ?k ?x = _ |- context [set_prop ?v ?k ?x] => rewrite H
  | |- context [alter _ (length ?h) (?h ++ _ :: _)] => rewrite alter_fresh
  | |- context [(?h ++ ?x :: ?t) !! length ?h] =>
      rewrite (list_lookup_middle h t x (length h) eq_refl)
  end.

(** Run a method symbolically under the hypotheses at hand. *)
Ltac evaluate := unfold_monad; repeat (progress (cbn; use_hyps)).

Create HintDb methods.

#[local] Hint Unfold
  Exec.create Exec.start Exec.resize Exec.status ExecManager.create
  ContainerFs.info ContainerFs.get ContainerFs.put
  Container.status Container.top Container.logs Container.changes
  Container.export Container.buffer_stream Container.stats Container.resize
  Container.start Container.stop Container.restart Container.kill
  Container.update Container.rename Container.pause Container.unpause
  Container.attach Container.wsattach Container.wait Container.delete
  Container.commit
  ContainerManager.list ContainerManager.create ContainerManager.prune
  Image.status Image.history Image.push Image.tag Image.remove Image.get
  ImageManager.search ImageManager.list ImageManager.build
  ImageManager.create ImageManager.getAll ImageManager.load ImageManager.prune
  Plugin.__processArguments Plugin.list Plugin.upgrade Plugin.create
  Plugin.install Plugin.status Plugin.remove Plugin.push Plugin.set
  Plugin.enable Plugin.disable
  Volume.status Volume.remove
  VolumeManager.list VolumeManager.create VolumeManager.prune
  Network.status Network.remove Network.connect Network.disconnect
  NetworkManager.list NetworkManager.create NetworkManager.prune
  Node.update Node.status Node.remove NodeManager.list
  Secret.status Secret.remove SecretManager.list SecretManager.create
  Service.update Service.status Service.remove Service.logs
  ServiceManager.create ServiceManager.list
  Swarm.init Swarm.status Swarm.join Swarm.leave Swarm.update
  Task.status TaskManager.list
  Docker.auth Docker.info Docker.version Docker.ping Docker.events
  : methods.

(** Case analysis on the innermost scrutinee of the goal. *)
Ltac break_match :=
  match goal with
  | |- context [match ?x with _ => _ end] =>
      lazymatch x with
      | context [match _ with _ => _ end] => fail
      | _ => destruct x eqn:?
      end
  end.

(** ** Mapping over a delivered array *)

Lemma map_each_quiet {A B : Type} (f : A -> M B) (xs : list A) :
  (forall x, quiet (f x)) -> quiet (map_each f xs).
Proof.
  intros Hf. induction xs as [|x xs IH]; intros w; cbn.
  - repeat split; eauto.
  - unfold bind. destruct (Hf x w) as (H1 & H2 & H3).
    destruct (f x w) as [[b| | | |] w1]; cbn in *;
      try (destruct H3 as [[? [=]]|[? [=]]]; fail);
      try (repeat split; eauto; fail).
    destruct (IH w1) as (H4 & H5 & H6).
    destruct (map_each f xs w1) as [[bs| | | |] w2]; cbn in *;
      try (destruct H6 as [[? [=]]|[? [=]]]; fail);
      repeat split; eauto; congruence.
Qed.

Lemma array_map_quiet {B : Type} (v : value) (f : value -> M B) :
  (forall x, quiet (f x)) -> quiet (array_map v f).
Proof.
  intros Hf. destruct v; try (intros w; cbn; repeat split; eauto; fail).
  by apply map_each_quiet.
Qed.

(** ** The shape of every method call *)

Ltac solve_path :=
  let Hpm := fresh "Hpm" in
  unfold path_ok; cbn [placeholder_missing]; intros Hpm;
  first
    [ discriminate Hpm
    | clear Hpm;
      cbn [path_shape path request with_isStream with_hijack with_openStdin
           with_file with_authconfig with_registryconfig];
      first
        [ reflexivity
        | split;
            [ repeat (first [reflexivity | apply last_char_app_r])
            | apply occurs_inside ]
        | repeat (first [reflexivity | apply ends_with_placeholder_app]) ] ].

Ltac solve_shape :=
  first
    [ apply shape_threw
    | apply shape_pending; solve_path
    | apply shape_rejected; [assumption | solve_path]
    | apply shape_settled;
        [ assumption | solve_path | intros ? [=] | intros ? [=]
        | first [ intros _; eexists; reflexivity | intros [=] ] ] ].

Ltac solve_chain :=
  first
    [ solve_shape
    | eapply (shape_chained _ _ _ _ _ false _ _ []);
        [ assumption | | solve_shape | intros ? [=] ]; solve_path ].

Ltac quiet_auto :=
  intros ? ?; cbn; repeat (break_match; cbn); repeat split; eauto.

(** Replace a map over the delivered array by its outcome. *)
Ltac absorb_map :=
  match goal with
  | |- context [array_map ?v ?f ?W] =>
      let Q := fresh "Q" in
      assert (Q : quiet (array_map v f))
        by (apply array_map_quiet; quiet_auto);
      specialize (Q W);
      let o' := fresh "o" in
      let w' := fresh "w" in
      destruct (array_map v f W) as [o' w'];
      destruct w'; cbn in Q;
      destruct Q as (? & ? & [[? ?]|[? ?]]); subst; cbn
  end.

Ltac use_fresh :=
  repeat match goal with
  | |- context [(?h ++ ?x :: ?t) !! length ?h] =>
      rewrite (list_lookup_middle h t x (length h) eq_refl)
  end.

Ltac shape_auto :=
  autounfold with methods; unfold_monad; cbn;
  repeat (first [progress use_fresh | break_match | absorb_map]; cbn);
  try congruence;
  try (exfalso; cbn in *; congruence);
  repeat match goal with
         | H : (_, _) = (_, _) |- _ => injection H as ?; subst
         end;
  solve_chain.

(** Whatever the receiver, the arguments and the state, a call ends in
    one of the five ways of [shape]. *)
Lemma run_shape (op : operation) (w : world) :
  shape (path_ok op) w (forwards op) (run op w).
Proof.
  destruct w as [h wi d].
  destruct op; cbn [run forwards]; shape_auto.
Qed.

(** What a shape says in terms of the responses consumed and of the
    descriptors dialed. *)
Lemma shape_traced (P : call -> Prop) (w : world) (fwd : bool)
    (out : outcome answer * world) :
  shape P w fwd out ->
  exists consumed new,
    wire w = consumed ++ wire (snd out) /\
    dialed (snd out) = dialed w ++ new /\
    Forall (fun mc => P (snd mc)) new /\
    (forall x, fst out = Threw x -> consumed = [] /\ new = []) /\
    ((forall x, fst out <> Threw x) -> new <> []) /\
    ((forall x, fst out <> Threw x) -> wire w <> [] -> consumed <> []) /\
    (forall r, r ∈ consumed -> failed r = true -> fst out = Rejected (err r)) /\
    (forall e, fst out = Rejected e ->
       exists r, r ∈ consumed /\ failed r = true /\ err r = e) /\
    (fwd = true -> consumed <> [] ->
       (forall r, r ∈ consumed -> failed r = false) ->
       exists a, fst out = Resolved a).
Proof.
  induction 1 as [h wi d fwd x h'|h d fwd m c h' HP
                 |h r rest d fwd m c h' Hr HP
                 |h r rest d fwd m c h' o Hr HP Hrej Hthrew Hfwd
                 |h r rest d fwd m c h' out Hr HP Hin IH Hnot]; cbn.
  - exists [], []. split_and!; try done.
    + by rewrite app_nil_r.
    + intros H. by destruct (H x).
    + intros H. by destruct (H x).
    + intros r Hin. by apply elem_of_nil in Hin.
  - exists [], [(m, c)]. split_and!; try done.
    + by repeat constructor.
    + intros r Hin. by apply elem_of_nil in Hin.
  - exists [r], [(m, c)]. split_and!; try done.
    + by repeat constructor.
    + intros r' Hin _. by apply list_elem_of_singleton in Hin as ->.
    + intros e [= <-]. exists r. split; [by apply list_elem_of_singleton|done].
    + intros _ _ H. rewrite H in Hr; [done|]. by apply list_elem_of_singleton.
  - exists [r], [(m, c)]. split_and!; try done.
    + by repeat constructor.
    + intros x Hx. by destruct (Hthrew x).
    + intros r' Hin Hf. apply list_elem_of_singleton in Hin as ->. congruence.
    + intros e ->. by destruct (Hrej e).
    + intros Hf _ _. by apply Hfwd.
  - destruct IH
      as (consumed & new & H1 & H2 & H3 & _ & H4 & H4' & H5 & H6 & H7).
    cbn in H1, H2.
    exists (r :: consumed), ((m, c) :: new). split_and!; try done.
    + by rewrite H1.
    + by rewrite H2, <- app_assoc.
    + by constructor.
    + intros x Hx. by destruct (Hnot x).
    + intros r' Hin' Hf. apply elem_of_cons in Hin' as [->|Hin'].
      * congruence.
      * by apply H5.
    + intros e He. destruct (H6 e He) as (r' & Hr' & Hf & <-).
      exists r'. split; [by apply elem_of_cons; right|done].
Qed.

(** ** C1: list on a missing result *)

(** C1, evaluated at the failing input.  The transport completes
    [list()] without error and with a missing ([null]) result: the
    container, image and service managers call [map] on it, the secret
    manager reads its [length] and the volume manager its [Volumes],
    so the callback throws and the promise is never settled; the task,
    network and node managers and the plugin object, which guard the
    result with [?.], resolve with the empty sequence. *)
Theorem list_null_result_escapes_guard :
  let w := sample [success VNull] in
  fst (ContainerManager.list (ContainerManager.Make 7) VUndef w)
    = CallbackThrew TypeError /\
  fst (ImageManager.list (ImageManager.Make 7) VUndef w)
    = CallbackThrew TypeError /\
  fst (ServiceManager.list (ServiceManager.Make 7) VUndef w)
    = CallbackThrew TypeError /\
  fst (SecretManager.list (SecretManager.Make 7) VUndef w)
    = CallbackThrew TypeError /\
  fst (VolumeManager.list (VolumeManager.Make 7) VUndef w)
    = CallbackThrew TypeError /\
  fst (TaskManager.list (TaskManager.Make 7) VUndef w) = Resolved (Refs []) /\
  fst (NetworkManager.list (NetworkManager.Make 7) VUndef w)
    = Resolved (Refs []) /\
  fst (NodeManager.list (NodeManager.Make 7) VUndef w) = Resolved (Refs []) /\
  fst (Plugin.list 6 VUndef w) = Resolved (Refs []).
Proof. repeat split. Qed.

(** On an empty array every manager resolves with the empty sequence
    (for volumes, on a body whose [Volumes] is empty or absent). *)
Lemma list_empty_result :
  let w := sample [success (VArr [])] in
  fst (ContainerManager.list (ContainerManager.Make 7) VUndef w)
    = Resolved (Refs []) /\
  fst (ImageManager.list (ImageManager.Make 7) VUndef w) = Resolved (Refs []) /\
  fst (ServiceManager.list (ServiceManager.Make 7) VUndef w)
    = Resolved (Refs []) /\
  fst (SecretManager.list (SecretManager.Make 7) VUndef w)
    = Resolved (Refs []) /\
  fst (VolumeManager.list (VolumeManager.Make 7) VUndef
         (sample [success (VObj [("Volumes", VArr [])])]))
    = Resolved (Refs []) /\
  fst (VolumeManager.list (VolumeManager.Make 7) VUndef
         (sample [success (VObj [])]))
    = Resolved (Refs []) /\
  fst (TaskManager.list (TaskManager.Make 7) VUndef w) = Resolved (Refs []) /\
  fst (NetworkManager.list (NetworkManager.Make 7) VUndef w)
    = Resolved (Refs []) /\
  fst (NodeManager.list (NodeManager.Make 7) VUndef w) = Resolved (Refs []) /\
  fst (Plugin.list 6 VUndef w) = Resolved (Refs []).
Proof. repeat split. Qed.

(** Reading a property of a [readable] value does not throw. *)
Lemma get_prop_readable (conf : value) (key : string) :
  readable conf -> get_prop conf key = Normal (get_prop_opt conf key).
Proof. intros [H1 H2]. unfold get_prop_opt. by destruct conf. Qed.

Lemma map_each_ext {A B : Type} (f g : A -> M B) (xs : list A) (w : world) :
  (forall x w, f x w = g x w) -> map_each f xs w = map_each g xs w.
Proof.
  intros Hfg. revert w. induction xs as [|x xs IH]; intros w; [done|].
  cbn. unfold bind. rewrite Hfg. destruct (g x w) as [[] ?]; try done.
  by rewrite IH.
Qed.

Lemma map_each_new_handles (k : kind) (m : Modem) (key : string)
    (confs : list value) (w : world) :
  Forall readable confs ->
  map_each (wrap_handle k m key) confs w =
    (Resolved (seq (length (heap w)) (length confs)),
     World (heap w ++
              map (fun conf => OHandle k m (get_prop_opt conf key) conf) confs)
           (wire w) (dialed w)).
Proof.
  intros Hall. revert w. induction Hall as [|conf confs Hc _ IH]; intros w.
  - destruct w. cbn. by rewrite app_nil_r.
  - cbn [map_each]. unfold bind at 1. unfold wrap_handle at 1. unfold_monad.
    rewrite (get_prop_readable _ _ Hc). cbn.
    rewrite alter_fresh, IH. cbn.
    rewrite length_app, Nat.add_1_r, <- app_assoc. reflexivity.
Qed.

Tactic Notation "rewrite_map" constr(Hmap) constr(k) constr(key) :=
  match goal with
  | |- context [map_each ?f _ ?W] =>
      let E := fresh "E" in
      pose proof (Hmap k key f W) as E;
      rewrite E by done; reflexivity
  end.

(** X12.  When the result is a non-empty array of objects, [list]
    resolves with one new handle per element, in order, each named by
    the element's identifier and holding the element as its snapshot. *)
Lemma list_wraps_each_element (m : Modem) (opts : value)
    (confs : list value) (rest : list response) (w : world) :
  wire w = success (VArr confs) :: rest ->
  confs <> [] ->
  Forall readable confs ->
  let refs := Refs (seq (length (heap w)) (length confs)) in
  let after k key c :=
    World (heap w ++
             map (fun conf => OHandle k m (get_prop_opt conf key) conf) confs)
          rest (dialed w ++ [(m, c)]) in
  (exists c, ImageManager.list (ImageManager.Make m) opts w
               = (Resolved refs, after KImage "Id" c)) /\
  (exists c, NetworkManager.list (NetworkManager.Make m) opts w
               = (Resolved refs, after KNetwork "Id" c)) /\
  (exists c, NodeManager.list (NodeManager.Make m) opts w
               = (Resolved refs, after KNode "ID" c)) /\
  (exists c, ServiceManager.list (ServiceManager.Make m) opts w
               = (Resolved refs, after KService "ID" c)) /\
  (exists c, TaskManager.list (TaskManager.Make m) opts w
               = (Resolved refs, after KTask "ID" c)) /\
  (exists c, SecretManager.list (SecretManager.Make m) opts w
               = (Resolved refs, after KSecret "Name" c)).
Proof.
  intros Hwire Hne Hall refs after.
  assert (Hlen : (Z.of_nat (length confs) =? 0)%Z = false).
  { destruct confs; [done|]. reflexivity. }
  assert (Hmap : forall k key f W,
             (forall x w, f x w = wrap_handle k m key x w) ->
             map_each f confs W =
               (Resolved (seq (length (heap W)) (length confs)),
                World (heap W ++
                         map (fun conf =>
                                OHandle k m (get_prop_opt conf key) conf) confs)
                      (wire W) (dialed W))).
  { intros k key f W Hf. rewrite (map_each_ext _ _ _ _ Hf).
    by apply map_each_new_handles. }
  repeat split; eexists;
    unfold ImageManager.list, NetworkManager.list, NodeManager.list,
      ServiceManager.list, TaskManager.list, SecretManager.list, array_map;
    evaluate; unfold get_prop_opt; cbn; rewrite ?Hlen; cbn.
  - rewrite_map Hmap KImage "Id".
  - rewrite_map Hmap KNetwork "Id".
  - rewrite_map Hmap KNode "ID".
  - rewrite_map Hmap KService "ID".
  - rewrite_map Hmap KTask "ID".
  - rewrite_map Hmap KSecret "Name".
Qed.

(** ** C2: export and the stream option *)

(** C2, evaluated at the failing input.  With the [stream] option set
    the callback buffers the delivered stream and resolves with the
    concatenation of its chunks, a string; without the option (absent
    or empty bag) it resolves with whatever the transport delivered,
    handed on untouched. *)
Theorem export_stream_option_inverted :
  let tar := VStream ["ab"; "cd"] true in
  fst (Container.export 0 (VObj [("stream", VBool true)])
         (sample [success tar])) = Resolved (Raw (VStr "abcd")) /\
  fst (Container.export 0 VUndef (sample [success tar])) = Resolved (Raw tar) /\
  fst (Container.export 0 (VObj []) (sample [success tar]))
    = Resolved (Raw tar).
Proof. repeat split. Qed.

(** Without the option the delivered value is the resolved value,
    whatever it is. *)
Lemma export_without_stream_forwards
    (w : world) (this : loc) (o : obj) (m : Modem) (opts : value)
    (r : response) (rest : list response) (flag : value) :
  heap w !! this = Some o ->
  obj_modem o = Normal m ->
  get_prop (default_param (VObj []) opts) "stream" = Normal flag ->
  truthy flag = false ->
  wire w = r :: rest ->
  failed r = false ->
  fst (Container.export this opts w) = Resolved (Raw (result r)).
Proof.
  intros Hthis Hm Hflag Hno Hwire Hok.
  unfold Container.export. evaluate. reflexivity.
Qed.

(** With the option the stream is consumed: the promise resolves, once
    the stream has ended, with the joined chunks. *)
Lemma export_with_stream_buffers
    (w : world) (this : loc) (o : obj) (m : Modem) (opts : value)
    (r : response) (rest : list response) (flag : value)
    (chunks : list string) :
  heap w !! this = Some o ->
  obj_modem o = Normal m ->
  get_prop (default_param (VObj []) opts) "stream" = Normal flag ->
  truthy flag = true ->
  wire w = r :: rest ->
  failed r = false ->
  result r = VStream chunks true ->
  fst (Container.export this opts w) = Resolved (Raw (VStr (join_chunks chunks))).
Proof.
  intros Hthis Hm Hflag Hyes Hwire Hok Hres.
  unfold Container.export, Container.buffer_stream. evaluate.
  rewrite Hres. reflexivity.
Qed.

(** ** C3: how the promise of a method settles *)

(** C3 as stated fails: [commit] receives no error and a body without
    [Id]; the callback throws on [res.Id.replace] and the promise is
    neither resolved nor rejected. *)
Lemma commit_without_id_leaves_promise_unsettled :
  failed (success (VObj [])) = false /\
  fst (run (Container_commit 0 VUndef) (sample [success (VObj [])]))
    = CallbackThrew TypeError.
Proof. split; reflexivity. Qed.

(** C3 (amended).  For every promise-returning method of every handle,
    manager and the facade, with [consumed] the responses the
    collaborator delivered to its callbacks: a delivered error makes
    the promise reject with exactly that value; the promise is
    rejected through [reject] only with an error that was delivered;
    a method that throws (its promise then rejects with the exception)
    does so before it dials, no response having been delivered;
    otherwise a response that is available is delivered; and when no
    delivered response carries an error, the promise resolves for
    every method whose callback only forwards or wraps what it
    received ([forwards]). *)
Theorem promise_settles_with_transport_outcome (op : operation) (w : world) :
  let out := run op w in
  exists consumed,
    wire w = consumed ++ wire (snd out) /\
    (forall r, r ∈ consumed -> failed r = true ->
       fst out = Rejected (err r)) /\
    (forall e, fst out = Rejected e ->
       exists r, r ∈ consumed /\ failed r = true /\ err r = e) /\
    (forall x, fst out = Threw x ->
       consumed = [] /\ dialed (snd out) = dialed w) /\
    ((forall x, fst out <> Threw x) -> wire w <> [] -> consumed <> []) /\
    (forwards op = true -> consumed <> [] ->
       (forall r, r ∈ consumed -> failed r = false) ->
       exists a, fst out = Resolved a).
Proof.
  cbn zeta.
  destruct (shape_traced _ _ _ _ (run_shape op w))
    as (consumed & new & H1 & Hd & _ & Ht & _ & H2 & H3 & H4 & H5).
  exists consumed. repeat split; try assumption.
  - by apply (Ht x).
  - destruct (Ht x H) as [_ ->]. by rewrite Hd, app_nil_r.
Qed.

Lemma promise_settles_with_transport_outcome_witness :
  fst (run (Container_start 0 VUndef) (sample [failure (VStr "boom")]))
    = Rejected (VStr "boom").
Proof.
  destruct (promise_settles_with_transport_outcome
              (Container_start 0 VUndef) (sample [failure (VStr "boom")]))
    as (consumed & Hwire & Hrej & _).
  cbn in Hwire. rewrite app_nil_r in Hwire. subst consumed.
  apply (Hrej (failure (VStr "boom"))).
  - apply list_elem_of_singleton. reflexivity.
  - reflexivity.
Defined.

(** ** C4: the state-changing container actions *)

(** C4 as stated fails for [update]: it resolves with a container built
    in the callback (reference 8), not with the receiver (reference 0);
    the new container carries the receiver's identifier and the
    delivered warnings. *)
Lemma update_resolves_with_new_container :
  let out := Container.update 0 VUndef (sample [success (VArr [VStr "w"])]) in
  fst out = Resolved (Ref 8) /\
  heap (snd out) !! 8
    = Some (OContainer 7 (VStr "abc") 9 10 (VArr [VStr "w"]) VUndef) /\
  heap (snd out) !! 0 = Some (OContainer 7 (VStr "abc") 1 2 (VArr []) VUndef).
Proof. repeat split. Qed.

(** C4 (amended).  On a container handle, when the callback receives no
    error, [start], [stop], [restart], [kill], [pause], [unpause] and
    [rename] resolve with the receiver itself and leave the heap as it
    was; [update] resolves with a newly constructed container, distinct
    from the receiver, on the same transport reference and with the
    same identifier, whose [Warnings] is the delivered result. *)
Theorem actions_resolve_with_receiver
    (w : world) (this : loc) (opts : value) (r : response)
    (rest : list response) (m : Modem) (id : value) (fs exec : loc)
    (warnings data : value) :
  heap w !! this = Some (OContainer m id fs exec warnings data) ->
  wire w = r :: rest ->
  failed r = false ->
  (forall a, exists c,
      act a this opts w =
        (Resolved (Ref this), World (heap w) rest (dialed w ++ [(m, c)]))) /\
  (let n := length (heap w) in
   exists c,
     Container.update this opts w =
       (Resolved (Ref n),
        World (heap w ++ [OContainer m id (S n) (S (S n)) (result r) VUndef;
                          OContainerFs m n; OExecManager m n])
              rest (dialed w ++ [(m, c)])) /\
     n <> this).
Proof.
  intros Hthis Hwire Hok. split.
  - intros []; eexists;
      unfold act, Container.start, Container.stop, Container.restart,
        Container.kill, Container.pause, Container.unpause, Container.rename;
      evaluate; reflexivity.
  - cbn zeta. eexists. split.
    + unfold Container.update. evaluate. reflexivity.
    + apply lookup_lt_Some in Hthis. lia.
Qed.

Lemma actions_resolve_with_receiver_witness :
  exists c,
    act AStop 0 VUndef (sample [success VUndef]) =
      (Resolved (Ref 0), World sample_heap [] [(7, c)]).
Proof.
  destruct (actions_resolve_with_receiver
              (sample [success VUndef]) 0 VUndef (success VUndef) [] 7
              (VStr "abc") 1 2 (VArr []) VUndef) as [H _].
  - reflexivity.
  - reflexivity.
  - reflexivity.
  - exact (H AStop).
Defined.

(** ** C5: status builds a new handle *)

(** C5 as stated fails on the identifier and on where the body goes.
    [Plugin.status(opts, id)] names the new handle by the [id] it was
    passed and copies the body's properties onto the handle itself, so
    that no snapshot field holds the body; [Exec.status] names the new
    handle by the body's [Id], which is [undefined] for a body that
    spells it [ID]. *)
Lemma status_identifier_differs :
  let body := VObj [("Enabled", VBool true)] in
  heap (snd (status_of 7 VUndef (VStr "other") (sample [success body]))) !! 8
    = Some (OPlugin (FModem 7) (VStr "other") [("Enabled", VBool true)]) /\
  heap (snd (status_of 7 VUndef VUndef (sample [success body]))) !! 8
    = Some (OPlugin (FModem 7) (VStr "mine") [("Enabled", VBool true)]) /\
  obj_data (OPlugin (FModem 7) (VStr "mine") [("Enabled", VBool true)])
    = VUndef /\
  heap (snd (status_of 5 VUndef VUndef
               (sample [success (VObj [("ID", VStr "e1")])]))) !! 8
    = Some (OExec 7 0 VUndef (VObj [("ID", VStr "e1")])).
Proof. repeat split. Qed.

(** C5 (amended).  For every handle class, when the callback of
    [status] receives no error: the receiver and every other object of
    the heap are left as they were, and the promise resolves with a
    newly constructed instance, distinct from the receiver.  For
    containers, images, volumes, networks, nodes, services, tasks and
    secrets the new handle has the receiver's class, transport
    reference and identifier and the fetched body as its snapshot; a
    swarm likewise, without identifier; a plugin's new handle is named
    by the identifier [__processArguments] selects and receives the
    body's properties through [Object.assign]; for an exec session the
    new handle holds the body as its snapshot. *)
Theorem status_builds_new_handle
    (w : world) (this : loc) (o : obj) (m : Modem) (opts id : value)
    (r : response) (rest : list response) :
  heap w !! this = Some o ->
  obj_modem o = Normal m ->
  wire w = r :: rest ->
  failed r = false ->
  let n := length (heap w) in
  let out := status_of this opts id w in
  n <> this /\
  heap (snd out) !! this = Some o /\
  (forall l o', heap w !! l = Some o' -> heap (snd out) !! l = Some o') /\
  match o with
  | OContainer _ i _ _ _ _ =>
      fst out = Resolved (Ref n) /\
      heap (snd out) =
        heap w ++ [OContainer m i (S n) (S (S n)) (VArr []) (result r);
                   OContainerFs m n; OExecManager m n]
  | OHandle k _ i _ =>
      fst out = Resolved (Ref n) /\
      heap (snd out) = heap w ++ [OHandle k m i (result r)]
  | OSwarm _ _ =>
      fst out = Resolved (Ref n) /\
      heap (snd out) = heap w ++ [OSwarm m (result r)]
  | OPlugin _ _ _ =>
      exists opts' id',
        Plugin.__processArguments this opts id w = (Resolved (opts', id'), w) /\
        fst out = Resolved (Ref n) /\
        heap (snd out) =
          heap w ++ [object_assign (result r) (OPlugin (FModem m) id' [])]
  | OExec _ c _ _ =>
      forall a, fst out = Resolved a ->
        a = Ref n /\
        exists i, heap (snd out) = heap w ++ [OExec m c i (result r)]
  | OExecManager _ _ | OContainerFs _ _ => True
  end.
Proof.
  intros Hthis Hm Hwire Hok n out.
  assert (Hn : n <> this) by (apply lookup_lt_Some in Hthis; unfold n; lia).
  assert (Hgrow : exists ext,
    heap (snd out) = heap w ++ ext /\
    match o with
    | OContainer _ i _ _ _ _ =>
        fst out = Resolved (Ref n) /\
        ext = [OContainer m i (S n) (S (S n)) (VArr []) (result r);
               OContainerFs m n; OExecManager m n]
    | OHandle k _ i _ =>
        fst out = Resolved (Ref n) /\ ext = [OHandle k m i (result r)]
    | OSwarm _ _ =>
        fst out = Resolved (Ref n) /\ ext = [OSwarm m (result r)]
    | OPlugin _ _ _ =>
        exists opts' id',
          Plugin.__processArguments this opts id w
            = (Resolved (opts', id'), w) /\
          fst out = Resolved (Ref n) /\
          ext = [object_assign (result r) (OPlugin (FModem m) id' [])]
    | OExec _ c _ _ =>
        forall a, fst out = Resolved a ->
          a = Ref n /\ exists i, ext = [OExec m c i (result r)]
    | OExecManager _ _ | OContainerFs _ _ => True
    end).
  { subst out n.
    destruct o as [? c ? ?| | | |[]| |[|] ? ?]; cbn in Hm; try discriminate;
      try injection Hm as ->;
      unfold status_of, Exec.status, Container.status, Image.status,
        Volume.status, Network.status, Node.status, Service.status,
        Task.status, Secret.status, Swarm.status, Plugin.status,
        Plugin.__processArguments; evaluate.
    all: try (eexists; split; [reflexivity | split; reflexivity]).
    all: try (exists []; split; [by rewrite app_nil_r | exact I]).
    - destruct (get_prop (result r) "Id") as [i|]; evaluate.
      + eexists; split; [reflexivity|].
        intros a [= <-]. split; [done|]. by eexists.
      + exists []. split; [by rewrite app_nil_r|]. intros a [=].
    - eexists; split; [reflexivity|]. eexists; eexists.
      split; [reflexivity|]. split; reflexivity. }
  destruct Hgrow as (ext & Hheap & Hcase).
  split; [done|]. split; [|split].
  - rewrite Hheap. by apply lookup_app_l_Some.
  - intros l o' Hl. rewrite Hheap. by apply lookup_app_l_Some.
  - rewrite Hheap. destruct o as [| | | |[]| |]; try done;
      try (by destruct Hcase as [? ->]).
    + intros a Ha. destruct (Hcase a Ha) as (-> & i & ->). eauto.
    + destruct Hcase as (o1 & i1 & ? & ? & ->). eauto.
Qed.

Lemma status_builds_new_handle_witness :
  let out := status_of 4 VUndef VUndef
               (sample [success (VObj [("Name", VStr "vol")])]) in
  fst out = Resolved (Ref 8) /\
  heap (snd out) =
    sample_heap ++
    [OHandle KVolume 7 (VStr "vol") (VObj [("Name", VStr "vol")])].
Proof.
  destruct (status_builds_new_handle
              (sample [success (VObj [("Name", VStr "vol")])]) 4
              (OHandle KVolume 7 (VStr "vol") (VObj [])) 7 VUndef VUndef
              (success (VObj [("Name", VStr "vol")])) [])
    as (_ & _ & _ & H).
  - reflexivity.
  - reflexivity.
  - reflexivity.
  - reflexivity.
  - exact H.
Defined.

(** ** C6: get builds a bare handle *)

(** C6, evaluated at the failing input.  [get(id)] on the container
    manager returns, without dialing, a new container whose [data] is
    [undefined]: the class declares the field without initializer and
    the constructor does not assign it.  On the same input the seven
    other managers, and the exec manager of a container, return a new
    handle of their own class whose [data] is the empty mapping
    [{}]. *)
Theorem get_leaves_container_snapshot_undefined :
  let w := sample [] in
  let id := VStr "abc123" in
  let built o := (Resolved 8, World (sample_heap ++ [o]) [] []) in
  ContainerManager.get (ContainerManager.Make 7) id w =
    (Resolved 8,
     World (sample_heap ++ [OContainer 7 id 9 10 (VArr []) VUndef;
                            OContainerFs 7 8; OExecManager 7 8]) [] []) /\
  obj_data <$> heap (snd (ContainerManager.get (ContainerManager.Make 7) id w))
                 !! 8 = Some VUndef /\
  obj_data <$> heap (snd (ImageManager.get (ImageManager.Make 7) id w)) !! 8
    = Some (VObj []) /\
  ImageManager.get (ImageManager.Make 7) id w
    = built (OHandle KImage 7 id (VObj [])) /\
  VolumeManager.get (VolumeManager.Make 7) id w
    = built (OHandle KVolume 7 id (VObj [])) /\
  NetworkManager.get (NetworkManager.Make 7) id w
    = built (OHandle KNetwork 7 id (VObj [])) /\
  NodeManager.get (NodeManager.Make 7) id w
    = built (OHandle KNode 7 id (VObj [])) /\
  SecretManager.get (SecretManager.Make 7) id w
    = built (OHandle KSecret 7 id (VObj [])) /\
  ServiceManager.get (ServiceManager.Make 7) id w
    = built (OHandle KService 7 id (VObj [])) /\
  TaskManager.get (TaskManager.Make 7) id w
    = built (OHandle KTask 7 id (VObj [])) /\
  ExecManager.get 2 id w = built (OExec 7 0 id (VObj [])).
Proof. repeat split. Qed.

(** What [get(id)] does on every manager, identifier and state: it
    returns normally the next free reference, dials nothing, consumes
    nothing and leaves every existing object alone; the heap gains the
    new handle, of the manager's own class, with the manager's
    transport reference and the identifier [id].  Its [data] is [{}],
    except on a container, where it is [undefined]; a container comes
    with its filesystem accessor and its exec manager. *)
Lemma get_builds_handle_of_class
    (mgr : manager) (id : value) (w : world) (m : Modem) :
  manager_modem mgr w = Some m ->
  let n := length (heap w) in
  exists ext,
    manager_get mgr id w =
      (Resolved n, World (heap w ++ ext) (wire w) (dialed w)) /\
    match mgr with
    | MContainer _ =>
        ext = [OContainer m id (S n) (S (S n)) (VArr []) VUndef;
               OContainerFs m n; OExecManager m n]
    | MImage _ => ext = [OHandle KImage m id (VObj [])]
    | MVolume _ => ext = [OHandle KVolume m id (VObj [])]
    | MNetwork _ => ext = [OHandle KNetwork m id (VObj [])]
    | MNode _ => ext = [OHandle KNode m id (VObj [])]
    | MSecret _ => ext = [OHandle KSecret m id (VObj [])]
    | MService _ => ext = [OHandle KService m id (VObj [])]
    | MTask _ => ext = [OHandle KTask m id (VObj [])]
    | MExec this =>
        exists c,
          heap w !! this = Some (OExecManager m c) /\
          ext = [OExec m c id (VObj [])]
    end.
Proof.
  intros Hm n. subst n. destruct mgr; cbn in Hm.
  1-8: injection Hm as <-; eexists; split; reflexivity.
  destruct (heap w !! this) as [[]|] eqn:Hthis; try discriminate.
  injection Hm as <-.
  eexists; split.
  - unfold manager_get, ExecManager.get. evaluate. reflexivity.
  - eexists. split; reflexivity.
Qed.

(** ** C7: removing a handle *)

(** C7 as stated fails for containers: the status table of [delete]
    has no entry for 409. *)
Lemma container_delete_has_no_conflict_entry :
  exists c,
    dialed (snd (remove_of 0 VUndef VUndef (sample [success VNull])))
      = [(7, c)] /\
    code_entry 409 (statusCodes c) = None.
Proof. eexists. split; reflexivity. Qed.

(** C7 (amended).  For every handle class exposing [remove] (or
    [delete]), when the callback receives no error the promise resolves
    with the delivered response itself and the heap is unchanged, the
    request being a DELETE; the descriptors of [Image.remove] and
    [Volume.remove] map the status code 409 to the label "conflict". *)
Theorem remove_resolves_with_raw_response
    (w : world) (this : loc) (o : obj) (m : Modem) (opts id : value)
    (r : response) (rest : list response) :
  heap w !! this = Some o ->
  removable o = true ->
  obj_modem o = Normal m ->
  wire w = r :: rest ->
  failed r = false ->
  exists c,
    remove_of this opts id w =
      (Resolved (Raw (result r)),
       World (heap w) rest (dialed w ++ [(m, c)])) /\
    method c = DELETE /\
    match o with
    | OHandle KImage _ _ _ | OHandle KVolume _ _ _ =>
        code_entry 409 (statusCodes c) = Some (Label "conflict")
    | _ => True
    end.
Proof.
  intros Hthis Hrm Hm Hwire Hok.
  destruct o as [| | | |[]| |]; try discriminate; eexists;
    (split; [unfold remove_of, Container.delete, Image.remove, Volume.remove,
               Network.remove, Node.remove, Service.remove, Secret.remove,
               Plugin.remove, Plugin.__processArguments;
             evaluate; reflexivity
            | split; [reflexivity | try exact I; reflexivity]]).
Qed.

Lemma remove_resolves_with_raw_response_witness :
  exists c,
    remove_of 4 VUndef VUndef (sample [success VNull]) =
      (Resolved (Raw VNull), World sample_heap [] [(7, c)]) /\
    method c = DELETE /\
    code_entry 409 (statusCodes c) = Some (Label "conflict").
Proof.
  apply (remove_resolves_with_raw_response
           (sample [success VNull]) 4
           (OHandle KVolume 7 (VStr "vol") (VObj [])) 7 VUndef VUndef
           (success VNull) []); reflexivity.
Defined.

(** ** C8: the query placeholder of the path *)

(** C8 as stated fails for [ContainerFs.get]: its path ends with the
    separator ['&'], the placeholder having been spent on [path=]. *)
Lemma archive_get_path_ends_with_ampersand :
  exists c,
    dialed (snd (run (ContainerFs_get 1 (VObj [("path", VStr "/etc")]))
                     (sample [success VNull]))) = [(7, c)] /\
    path c = "/containers/abc/archive?path=/etc&" /\
    ends_with_placeholder (path c) = false.
Proof. eexists. repeat split. Qed.

(** C8 (amended).  For every method other than the four [prune]
    methods and the [list] methods of volumes and secrets, every
    descriptor the method dials has a path that ends with ['?'];
    except that the path of [ContainerFs.get] contains
    ["/archive?path="] and ends with ['&'].  A method that does not
    throw before dialing dials at least one descriptor. *)
Theorem paths_carry_query_placeholder (op : operation) (w : world) :
  placeholder_missing op = false ->
  exists new,
    dialed (snd (run op w)) = dialed w ++ new /\
    Forall (fun mc => path_shape op (path (snd mc))) new /\
    ((forall x, fst (run op w) <> Threw x) -> new <> []).
Proof.
  intros Hop.
  destruct (shape_traced _ _ _ _ (run_shape op w))
    as (consumed & new & _ & H1 & H2 & _ & H3 & _).
  exists new. repeat split; try assumption.
  eapply Forall_impl; [exact H2|]. intros mc H. by apply H.
Qed.

Lemma paths_carry_query_placeholder_witness :
  exists new,
    dialed (snd (run (Container_start 0 VUndef) (sample [success VUndef])))
      = [] ++ new /\
    Forall (fun mc => ends_with_placeholder (path (snd mc)) = true) new /\
    ((forall x,
        fst (run (Container_start 0 VUndef) (sample [success VUndef]))
          <> Threw x) -> new <> []).
Proof.
  apply (paths_carry_query_placeholder
           (Container_start 0 VUndef) (sample [success VUndef])).
  reflexivity.
Defined.

(** ** C9: the image a commit resolves with *)

(** C9 as stated fails when ["sha256:"] occurs in the response's [Id]
    elsewhere than at its start: the identifier is not the [Id] itself,
    the inner occurrence is removed. *)
Lemma commit_removes_inner_sha256 :
  let out := Container.commit 0 VUndef
               (sample [success (VObj [("Id", VStr "img-sha256:abc")])]) in
  String.prefix "sha256:" "img-sha256:abc" = false /\
  fst out = Resolved (Ref 8) /\
  heap (snd out) !! 8 = Some (OHandle KImage 7 (VStr "img-abc") (VObj [])).
Proof. repeat split. Qed.

(** C9 (amended).  A [commit] whose callback receives no error and a
    body with a string [Id] resolves with a newly constructed image
    handle, distinct from the receiver, on the receiver's transport
    reference, whose identifier is [Id] with the first occurrence of
    ["sha256:"] removed: the leading prefix when [Id] starts with it,
    the leftmost occurrence otherwise, and [Id] itself when
    ["sha256:"] does not occur in it. *)
Theorem commit_strips_first_sha256
    (w : world) (this : loc) (o : obj) (m : Modem) (opts opts' : value)
    (r : response) (rest : list response) (s : string) :
  heap w !! this = Some o ->
  obj_modem o = Normal m ->
  set_prop (default_param (VObj []) opts) "container" (obj_id o)
    = Normal opts' ->
  wire w = r :: rest ->
  failed r = false ->
  get_prop (result r) "Id" = Normal (VStr s) ->
  let image := length (heap w) in
  let iid := replace "sha256:" "" s in
  (exists c,
     Container.commit this opts w =
       (Resolved (Ref image),
        World (heap w ++ [OHandle KImage m (VStr iid) (VObj [])]) rest
              (dialed w ++ [(m, c)]))) /\
  image <> this /\
  (forall t, s = "sha256:" +:+ t -> iid = t) /\
  (~ occurs "sha256:" s -> iid = s) /\
  (occurs "sha256:" s ->
     exists a b,
       s = a +:+ "sha256:" +:+ b /\ iid = a +:+ b /\
       forall a' b', s = a' +:+ "sha256:" +:+ b' ->
         String.length a <= String.length a').
Proof.
  intros Hthis Hm Hset Hwire Hok Hid image iid. repeat split.
  - eexists. unfold Container.commit. evaluate. reflexivity.
  - apply lookup_lt_Some in Hthis. unfold image. lia.
  - intros t ->. apply (replace_prefix "sha256:" "" t).
  - apply replace_absent.
  - intros Hocc.
    destruct (replace_first "sha256:" "" s Hocc) as (a & b & H1 & H2 & H3).
    exists a, b. repeat split; [done | exact H2 | done].
Qed.

Lemma commit_strips_first_sha256_witness :
  exists c,
    Container.commit 0 VUndef
      (sample [success (VObj [("Id", VStr "sha256:abc")])]) =
      (Resolved (Ref 8),
       World (sample_heap ++ [OHandle KImage 7 (VStr "abc") (VObj [])]) []
             [(7, c)]).
Proof.
  destruct (commit_strips_first_sha256
              (sample [success (VObj [("Id", VStr "sha256:abc")])]) 0
              (OContainer 7 (VStr "abc") 1 2 (VArr []) VUndef) 7 VUndef
              (VObj [("container", VStr "abc")])
              (success (VObj [("Id", VStr "sha256:abc")])) [] "sha256:abc")
    as [H _].
  - reflexivity.
  - reflexivity.
  - reflexivity.
  - reflexivity.
  - reflexivity.
  - reflexivity.
  - exact H.
Defined.

(** ** C10: the arguments of the plugin methods *)

(** C10 as stated fails twice: a string passed as [opts] becomes the
    identifier but stays the options (it is not replaced by the empty
    mapping), and on a plugin object without identifier, as the facade
    holds, a call without identifier embeds [undefined] in the path. *)
Lemma processArguments_keeps_string_options :
  fst (Plugin.__processArguments 6 (VStr "p") VUndef (sample []))
    = Resolved (VStr "p", VStr "p") /\
  fst (Plugin.__processArguments 6 VUndef VUndef (sample []))
    = Resolved (VObj [], VUndef) /\
  (exists c,
     dialed (snd (Plugin.status 6 VUndef VUndef (sample []))) = [(7, c)] /\
     path c = "/plugins/undefined?").
Proof. repeat split. eexists. split; reflexivity. Qed.

(** C10 (amended).  [__processArguments] returns, without changing the
    state, the options and the identifier such that: falsy options
    (absent ones in particular) become the empty mapping and any other
    options are returned as they are; a truthy [id] is kept; otherwise
    a non-empty string passed as [opts] is the identifier; otherwise
    the receiver's own identifier is, when it is truthy; the
    identifier returned is truthy exactly when one of these three
    sources is.  Each of [upgrade], [status], [remove], [push], [set],
    [enable] and [disable] dials the path ["/plugins/<id>..."] built
    from that identifier, with those options. *)
Theorem processArguments_selects_identifier
    (w : world) (this : loc) (o : obj) (opts id : value) :
  heap w !! this = Some o ->
  exists opts' id',
    Plugin.__processArguments this opts id w = (Resolved (opts', id'), w) /\
    opts' = (if truthy opts then opts else VObj []) /\
    (truthy id = true -> id' = id) /\
    (truthy id = false -> is_string opts = true -> truthy opts = true ->
       id' = opts) /\
    (truthy id = false -> is_string opts && truthy opts = false ->
       truthy (obj_id o) = true -> id' = obj_id o) /\
    (truthy id' = true <->
       truthy id = true \/ (is_string opts = true /\ truthy opts = true) \/
       truthy (obj_id o) = true) /\
    (forall op suffix m,
       plugin_args op = Some (this, opts, id, suffix) ->
       obj_modem o = Normal m ->
       exists c,
         dialed (snd (run op w)) = dialed w ++ [(m, c)] /\
         path c = "/plugins/" +:+ to_string id' +:+ suffix /\
         options c = Some opts').
Proof.
  intros Hthis.
  destruct (Plugin.__processArguments this opts id w) as [res w'] eqn:Hrun.
  assert (exists id',
    res = Resolved (if truthy opts then opts else VObj [], id') /\ w' = w /\
    id' = (if truthy id then id
           else if is_string opts then
                  if truthy opts then opts
                  else if truthy (obj_id o) then obj_id o else opts
           else if truthy (obj_id o) then obj_id o
           else id)) as (id' & -> & -> & Hid').
  { revert Hrun. unfold Plugin.__processArguments. evaluate.
    intros [= <- <-]. eexists. split; [|split; [reflexivity|]].
    - f_equal. f_equal. by destruct (truthy opts).
    - destruct (truthy id) eqn:E1, (truthy (obj_id o)) eqn:E4, opts;
        cbn; rewrite ?E1, ?E4; cbn; try reflexivity;
        repeat (break_match; cbn in *; rewrite ?E1, ?E4 in *; cbn in * );
        congruence. }
  exists (if truthy opts then opts else VObj []), id'.
  split; [reflexivity|]. split; [reflexivity|].
  split; [intros H; by rewrite Hid', H|].
  split; [intros H1 H2 H3; by rewrite Hid', H1, H2, H3|].
  split.
  { intros H1 H2 H3. rewrite Hid', H1, H3.
    by destruct (is_string opts), (truthy opts). }
  split.
  { rewrite Hid'.
    destruct (truthy id) eqn:E1, (is_string opts) eqn:E2,
             (truthy opts) eqn:E3, (truthy (obj_id o)) eqn:E4;
      rewrite ?E1, ?E3, ?E4; intuition congruence. }
  intros op suffix m Hop Hm.
  destruct op; try discriminate; cbn in Hop; injection Hop as <- <- <- <-;
    eexists; cbn [run];
    unfold Plugin.upgrade, Plugin.status, Plugin.remove, Plugin.push,
      Plugin.set, Plugin.enable, Plugin.disable.
  all: unfold bind at 1; rewrite Hrun.
  all: destruct (wire w) as [|r rest] eqn:Hwire.
  all: try destruct (truthy (err r)) eqn:Herr.
  all: evaluate.
  all: try (split; [reflexivity | split; reflexivity]).
  all: destruct (get_prop _ "name"); cbn.
  all: split; [reflexivity | split; reflexivity].
Qed.

Lemma processArguments_selects_identifier_witness :
  exists opts' id',
    Plugin.__processArguments 7 VUndef VUndef (sample [])
      = (Resolved (opts', id'), sample []) /\
    opts' = VObj [] /\
    id' = VStr "mine".
Proof.
  destruct (processArguments_selects_identifier
              (sample []) 7 (OPlugin (FModem 7) (VStr "mine") [])
              VUndef VUndef)
    as (opts' & id' & H1 & H2 & _ & _ & H3 & _).
  - reflexivity.
  - exists opts', id'. split; [exact H1|]. split; [exact H2|].
    apply H3; reflexivity.
Defined.

(** ** The footprint of every method call *)

Lemma map_each_calm {A B : Type} (f : A -> M B) (xs : list A) :
  (forall x, calm (f x)) -> calm (map_each f xs).
Proof.
  intros Hf. induction xs as [|x xs IH]; intros w; cbn.
  - split_and!; try done. exists []. by rewrite app_nil_r.
  - unfold bind. destruct (Hf x w) as (H1 & H2 & objs & H3).
    destruct (f x w) as [[b| | | |] w1]; cbn in *; try (split_and!; eauto; fail).
    destruct (IH w1) as (H4 & H5 & objs' & H6).
    destruct (map_each f xs w1) as [[bs| | | |] w2]; cbn in *;
      (split_and!; [congruence | congruence
                   | exists (objs ++ objs'); by rewrite H6, H3, app_assoc]).
Qed.

Lemma array_map_calm {B : Type} (v : value) (f : value -> M B) :
  (forall x, calm (f x)) -> calm (array_map v f).
Proof.
  intros Hf.
  destruct v;
    try (intros w; cbn; split_and!; try done; exists []; by rewrite app_nil_r).
  by apply map_each_calm.
Qed.

Lemma effect_eq (m0 : option Modem) (n : nat) (h : list obj)
    (wi : list response) (d : list (Modem * call)) (o : outcome answer)
    (h' : list obj) (wi' : list response) (d' : list (Modem * call))
    (objs : list obj) (calls : list (Modem * call)) :
  h' = h ++ objs -> d' = d ++ calls -> length calls <= n ->
  Forall (fun mc => Some (fst mc) = m0 /\
                    table_ok (statusCodes (snd mc)) = true) calls ->
  effect m0 n (World h wi d) (o, World h' wi' d').
Proof. intros -> ->. by constructor. Qed.

Lemma effect_inv (m0 : option Modem) (n : nat) (w : world)
    (out : outcome answer * world) :
  effect m0 n w out ->
  exists objs calls,
    heap (snd out) = heap w ++ objs /\
    dialed (snd out) = dialed w ++ calls /\
    length calls <= n /\
    Forall (fun mc => Some (fst mc) = m0 /\
                      table_ok (statusCodes (snd mc)) = true) calls.
Proof. intros []. by eexists _, _. Qed.

Ltac solve_grows :=
  first [ reflexivity
        | symmetry; apply app_nil_r
        | rewrite <- app_assoc; reflexivity ].

Ltac calm_auto :=
  intros ? ?; cbn; repeat (break_match; cbn);
  split_and!; try done;
  rewrite ?alter_fresh;
  first [ by exists [] ; rewrite app_nil_r | by eexists ].

(** Replace a map over the delivered array by its outcome, keeping
    what it did to the heap. *)
Ltac absorb_map_calm :=
  match goal with
  | |- context [array_map ?v ?f ?W] =>
      let Q := fresh "Q" in
      assert (Q : calm (array_map v f))
        by (apply array_map_calm; calm_auto);
      specialize (Q W);
      let o' := fresh "o" in
      let w' := fresh "w" in
      destruct (array_map v f W) as [o' w'];
      destruct w'; cbn in Q;
      destruct Q as (? & ? & [? ?]); subst; cbn
  end.

(** Rewrite a scrutinee with what an earlier case analysis found. *)
Ltac reuse :=
  match goal with
  | H : ?x = _ |- context [match ?x with _ => _ end] => rewrite H
  end.

(** Run a method along every branch. *)
Ltac explore :=
  autounfold with methods; unfold_monad; cbn;
  repeat (first [progress use_fresh | reuse | break_match | absorb_map_calm];
          cbn);
  rewrite ?alter_fresh.

Ltac solve_effect :=
  eapply effect_eq;
    [ solve_grows | solve_grows | cbn; lia
    | repeat constructor ].

(** Whatever the receiver, the arguments and the state, a call only
    adds objects to the heap and issues at most [requests op]
    requests, each on the receiver's collaborator. *)
Lemma run_effect (op : operation) (w : world) :
  effect (target_modem (receiver op) w) (requests op) w (run op w).
Proof.
  destruct w as [h wi d]; destruct op;
    cbn [run receiver target_modem requests heap];
    explore; solve_effect.
Qed.

Lemma code_entry_None (c : Z) (codes : list (Z * status)) :
  code_entry c codes = None <-> c ∉ map fst codes.
Proof.
  induction codes as [|[c' s] codes IH]; cbn.
  - split; [intros _ H; by apply elem_of_nil in H | done].
  - rewrite not_elem_of_cons. destruct (Z.eqb_spec c c') as [->|Hne].
    + split; [done | by intros [? _]].
    + rewrite IH. tauto.
Qed.

Lemma distinct_codes_NoDup (codes : list (Z * status)) :
  distinct_codes codes = true -> NoDup (map fst codes).
Proof.
  induction codes as [|[c s] codes IH]; cbn; [constructor|].
  destruct (code_entry c codes) eqn:E; [done|].
  intros H. constructor; [by apply code_entry_None | by apply IH].
Qed.

Lemma table_ok_spec (codes : list (Z * status)) :
  table_ok codes = true ->
  (exists code, (code, Success) ∈ codes) /\
  (forall code s, (code, s) ∈ codes -> (s = Success <-> (code < 400)%Z)) /\
  NoDup (map fst codes).
Proof.
  unfold table_ok. rewrite !andb_true_iff. intros [[H1 H2] H3]. split_and!.
  - apply existsb_exists in H1 as ([code []] & Hin & Hs); [|done].
    exists code. by apply list_elem_of_In.
  - intros code s Hin. rewrite forallb_forall in H2.
    specialize (H2 (code, s)). cbn in H2.
    apply list_elem_of_In, H2 in Hin.
    destruct s, (Z.ltb_spec code 400); cbn in Hin; try done; split; try done; lia.
  - by apply distinct_codes_NoDup.
Qed.

(** One response is read per request, in order; only the last request
    can be left unanswered, the promise then being pending. *)
Lemma shape_balance (P : call -> Prop) (w : world) (fwd : bool)
    (out : outcome answer * world) :
  shape P w fwd out ->
  exists consumed new,
    wire w = consumed ++ wire (snd out) /\
    dialed (snd out) = dialed w ++ new /\
    length consumed <= length new <= S (length consumed) /\
    (length new = S (length consumed) ->
       fst out = Pending /\ wire (snd out) = []).
Proof.
  induction 1 as [h wi d fwd x h'|h d fwd m c h' HP
                 |h r rest d fwd m c h' Hr HP
                 |h r rest d fwd m c h' o Hr HP Hrej Hthrew Hfwd
                 |h r rest d fwd m c h' out Hr HP Hin IH Hnot]; cbn.
  - exists [], []. cbn. split_and!; try done; [by rewrite app_nil_r | lia].
  - exists [], [(m, c)]. cbn. split_and!; try done; lia.
  - exists [r], [(m, c)]. cbn. split_and!; try done; lia.
  - exists [r], [(m, c)]. cbn. split_and!; try done; lia.
  - destruct IH as (consumed & new & H1 & H2 & H3 & H4). cbn in H1, H2.
    exists (r :: consumed), ((m, c) :: new). cbn. split_and!.
    + by rewrite H1.
    + by rewrite H2, <- app_assoc.
    + lia.
    + lia.
    + intros H. apply H4. lia.
Qed.

(** X1.  No method of any handle, manager or the facade ever modifies
    or removes an object of the library's classes that existed before
    the call: whatever the receiver, the arguments, the state and the
    outcome, the heap after the call is the heap before it followed by
    the objects the call constructed.  (Option bags are values, not
    heap objects; the one write into a bag is [commit]'s.) *)
Theorem methods_never_touch_existing_objects (op : operation) (w : world) :
  (exists objs, heap (snd (run op w)) = heap w ++ objs) /\
  (forall l o, heap w !! l = Some o -> heap (snd (run op w)) !! l = Some o).
Proof.
  destruct (effect_inv _ _ _ _ (run_effect op w)) as (objs & _ & H & _).
  split; [by exists objs|].
  intros l o Hl. rewrite H. by apply lookup_app_l_Some.
Qed.

(** X2.  A call issues at most one request ([Image.tag]: two) and
    reads one response per request, in order; a request is left
    unanswered only when the collaborator has nothing more to deliver,
    and the promise is then pending.  There is no retry. *)
Theorem methods_issue_one_request (op : operation) (w : world) :
  let out := run op w in
  exists consumed calls,
    wire w = consumed ++ wire (snd out) /\
    dialed (snd out) = dialed w ++ calls /\
    length calls <= requests op /\
    length consumed <= length calls <= S (length consumed) /\
    (length calls = S (length consumed) ->
       fst out = Pending /\ wire (snd out) = []).
Proof.
  cbn zeta.
  destruct (effect_inv _ _ _ _ (run_effect op w))
    as (_ & calls & _ & Hd & Hn & _).
  destruct (shape_balance _ _ _ _ (run_shape op w))
    as (consumed & new & H1 & H2 & H3 & H4).
  rewrite Hd in H2. apply app_inv_head in H2 as <-.
  by exists consumed, calls.
Qed.

(** X3.  Every request a call issues is dialed on the collaborator
    held by the receiver of the call (for [Image.tag], the chained
    status request included). *)
Theorem requests_go_to_receiver_transport (op : operation) (w : world) :
  exists calls,
    dialed (snd (run op w)) = dialed w ++ calls /\
    Forall (fun mc => target_modem (receiver op) w = Some (fst mc)) calls.
Proof.
  destruct (effect_inv _ _ _ _ (run_effect op w))
    as (_ & calls & _ & Hd & _ & Hall).
  exists calls. split; [done|].
  eapply Forall_impl; [exact Hall|]. by intros mc [-> _].
Qed.

(** X4.  The status table of every descriptor dialed lists at least
    one success code, marks as success exactly the codes below 400
    (every code from 400 on carries an error label), and lists no code
    twice. *)
Theorem status_tables_are_well_formed (op : operation) (w : world) :
  exists calls,
    dialed (snd (run op w)) = dialed w ++ calls /\
    Forall (fun mc =>
              let codes := statusCodes (snd mc) in
              (exists code, (code, Success) ∈ codes) /\
              (forall code s, (code, s) ∈ codes ->
                 (s = Success <-> (code < 400)%Z)) /\
              NoDup (map fst codes)) calls.
Proof.
  destruct (effect_inv _ _ _ _ (run_effect op w))
    as (_ & calls & _ & Hd & _ & Hall).
  exists calls. split; [done|].
  eapply Forall_impl; [exact Hall|].
  intros mc [_ H]. by apply table_ok_spec.
Qed.

(** X5.  When the collaborator never completes, the promise of every
    method stays pending, exactly one request having been dialed;
    unless the method threw before dialing, nothing then being
    dialed. *)
Theorem silent_transport_leaves_promise_pending (op : operation) (w : world) :
  wire w = [] ->
  let out := run op w in
  (fst out = Pending /\ exists m c, dialed (snd out) = dialed w ++ [(m, c)]) \/
  (exists x, fst out = Threw x /\ dialed (snd out) = dialed w).
Proof.
  intros Hw. cbn zeta. pose proof (run_shape op w) as H.
  destruct w as [h wi d]. cbn in Hw. subst wi.
  inversion H; subst; cbn.
  - right. eauto.
  - left. eauto.
Qed.

Lemma silent_transport_leaves_promise_pending_witness :
  let w := sample [] in
  let out := run (Container_logs 0 VUndef) w in
  (fst out = Pending /\ exists m c, dialed (snd out) = dialed w ++ [(m, c)]) \/
  (exists x, fst out = Threw x /\ dialed (snd out) = dialed w).
Proof.
  apply (silent_transport_leaves_promise_pending
           (Container_logs 0 VUndef) (sample [])).
  reflexivity.
Defined.

(** ** What the callbacks resolve with *)

Ltac settle :=
  first [ left; eexists; reflexivity
        | right; eexists _, _; reflexivity ].

(** X6.  The forty methods whose callback hands the result on
    ([passes_through]) resolve, when the callback receives no error,
    with exactly the value the collaborator delivered, whatever it is,
    and construct nothing; unless the method threw before dialing, the
    state then being untouched. *)
Theorem forwarding_methods_resolve_with_delivered_value
    (op : operation) (w : world) (r : response) (rest : list response) :
  passes_through op = true ->
  wire w = r :: rest ->
  failed r = false ->
  (exists x, run op w = (Threw x, w)) \/
  (exists m c,
     run op w = (Resolved (Raw (result r)),
                 World (heap w) rest (dialed w ++ [(m, c)]))).
Proof.
  intros Hop Hwire Hok. destruct w as [h wi d]. cbn in Hwire. subst wi.
  destruct op; try discriminate Hop; clear Hop;
    cbn [run heap dialed]; explore; settle.
Qed.

Lemma forwarding_methods_resolve_with_delivered_value_witness :
  let w := sample [success (VStr "ps")] in
  (exists x, run (Container_top 0 VUndef) w = (Threw x, w)) \/
  (exists m c,
     run (Container_top 0 VUndef) w =
       (Resolved (Raw (VStr "ps")),
        World (heap w) [] (dialed w ++ [(m, c)]))).
Proof.
  apply (forwarding_methods_resolve_with_delivered_value
           (Container_top 0 VUndef) (sample [success (VStr "ps")])
           (success (VStr "ps")) []); reflexivity.
Defined.

(** X7.  The default [opts = {}] replaces [undefined] only: called
    with [null], the five methods that read a property of their option
    bag while building the descriptor throw a [TypeError] before
    anything is dialed, whatever the receiver and the state. *)
Theorem null_options_throw_before_dialing (this : loc) (w : world) :
  Exec.start this VNull w = (Threw TypeError, w) /\
  ContainerFs.get this VNull w = (Threw TypeError, w) /\
  Container.export this VNull w = (Threw TypeError, w) /\
  Container.attach this VNull w = (Threw TypeError, w) /\
  Container.commit this VNull w = (Threw TypeError, w).
Proof.
  destruct w as [h wi d].
  split_and!; explore;
    repeat match goal with x : exn |- _ => destruct x end; reflexivity.
Qed.

(** X8.  [export] with a bag other than [null], when the callback
    receives no error: the descriptor's [isStream] is [!!opts.stream];
    with a falsy [stream] option the promise resolves with the
    delivered value as it is; with a truthy one the delivered stream
    is consumed and the promise resolves with the concatenation of its
    chunks once it has ended, stays pending when it never ends, and is
    never settled (the callback throws) when the delivered value is
    not a stream.  Nothing is constructed. *)
Theorem export_settles_by_stream_option
    (w : world) (this : loc) (o : obj) (m : Modem) (opts : value)
    (r : response) (rest : list response) :
  heap w !! this = Some o ->
  obj_modem o = Normal m ->
  opts <> VNull ->
  wire w = r :: rest ->
  failed r = false ->
  let flag := truthy (get_prop_opt (default_param (VObj []) opts) "stream") in
  exists c,
    Container.export this opts w =
      (if flag then
         match result r with
         | VStream chunks true => Resolved (Raw (VStr (join_chunks chunks)))
         | VStream _ false => Pending
         | _ => CallbackThrew TypeError
         end
       else Resolved (Raw (result r)),
       World (heap w) rest (dialed w ++ [(m, c)])) /\
    path c = "/containers/" +:+ to_string (obj_id o) +:+ "/export?" /\
    isStream c = Some (VBool flag).
Proof.
  intros Hthis Hm Hopts Hwire Hok flag. subst flag.
  assert (Hbag : readable (default_param (VObj []) opts)).
  { destruct opts; split; done. }
  pose proof (get_prop_readable _ "stream" Hbag) as Hget.
  exists (with_isStream
            (VBool (truthy (get_prop_opt (default_param (VObj []) opts)
                              "stream")))
            (request ("/containers/" +:+ to_string (obj_id o) +:+ "/export?")
               GET (Some (default_param (VObj []) opts))
               [ok 200; lbl 404 "no such container"; lbl 500 "server error"])).
  split_and!; [|reflexivity..].
  unfold Container.export, Container.buffer_stream. evaluate.
  destruct (truthy (get_prop_opt (default_param (VObj []) opts) "stream"));
    cbn; [|reflexivity].
  destruct (result r) as [| | | | | | |? []]; reflexivity.
Qed.

Lemma export_settles_by_stream_option_witness :
  exists c,
    Container.export 0 (VObj [("stream", VNum 1)])
      (sample [success (VStream ["a"; "b"] false)]) =
      (Pending, World sample_heap [] ([] ++ [(7, c)])) /\
    path c = "/containers/abc/export?" /\
    isStream c = Some (VBool true).
Proof.
  apply (export_settles_by_stream_option
           (sample [success (VStream ["a"; "b"] false)]) 0
           (OContainer 7 (VStr "abc") 1 2 (VArr []) VUndef) 7
           (VObj [("stream", VNum 1)])
           (success (VStream ["a"; "b"] false)) []);
    try reflexivity; discriminate.
Defined.

(** X9.  [Network.connect], [Network.disconnect], [Node.update] and
    [Service.update] resolve, when the callback receives no error,
    with a newly constructed handle of the method's class, distinct
    from the receiver, on the receiver's collaborator and with the
    receiver's identifier (the only two fields of the receiver the
    methods read), holding the delivered body as its snapshot;
    [Service.update] passes [auth] as [authconfig]. *)
Theorem updates_resolve_with_new_handle
    (w : world) (this : loc) (k : kind) (m : Modem) (id data : value)
    (opts auth : value) (r : response) (rest : list response) :
  heap w !! this = Some (OHandle k m id data) ->
  wire w = r :: rest ->
  failed r = false ->
  let n := length (heap w) in
  let after k' c :=
    (Resolved (Ref n),
     World (heap w ++ [OHandle k' m id (result r)]) rest
           (dialed w ++ [(m, c)])) in
  n <> this /\
  (exists c, Network.connect this opts w = after KNetwork c /\
             path c = "/networks/" +:+ to_string id +:+ "/connect?") /\
  (exists c, Network.disconnect this opts w = after KNetwork c /\
             path c = "/networks/" +:+ to_string id +:+ "/disconnect?") /\
  (exists c, Node.update this opts w = after KNode c /\
             path c = "/nodes/" +:+ to_string id +:+ "/update?") /\
  (exists c, Service.update this opts auth w = after KService c /\
             path c = "/services/" +:+ to_string id +:+ "/update?" /\
             authconfig c = Some auth).
Proof.
  intros Hthis Hwire Hok n after. subst n after. cbn beta.
  split_and!.
  - apply lookup_lt_Some in Hthis. lia.
  - eexists. split; [unfold Network.connect; evaluate|]; reflexivity.
  - eexists. split; [unfold Network.disconnect; evaluate|]; reflexivity.
  - eexists. split; [unfold Node.update; evaluate|]; reflexivity.
  - eexists. split; [unfold Service.update; evaluate|].
    + reflexivity.
    + split; reflexivity.
Qed.

Lemma updates_resolve_with_new_handle_witness :
  let w := World [OHandle KNetwork 7 (VStr "net") (VObj [])]
                 [success (VStr "ok")] [] in
  let after k' c :=
    (Resolved (Ref 1),
     World (heap w ++ [OHandle k' 7 (VStr "net") (VStr "ok")]) []
           (dialed w ++ [(7, c)])) in
  1 <> 0 /\
  (exists c, Network.connect 0 VUndef w = after KNetwork c /\
             path c = "/networks/net/connect?") /\
  (exists c, Network.disconnect 0 VUndef w = after KNetwork c /\
             path c = "/networks/net/disconnect?") /\
  (exists c, Node.update 0 VUndef w = after KNode c /\
             path c = "/nodes/net/update?") /\
  (exists c, Service.update 0 VUndef VNull w = after KService c /\
             path c = "/services/net/update?" /\
             authconfig c = Some VNull).
Proof.
  apply (updates_resolve_with_new_handle
           (World [OHandle KNetwork 7 (VStr "net") (VObj [])]
                  [success (VStr "ok")] [])
           0 KNetwork 7 (VStr "net") (VObj []) VUndef VNull
           (success (VStr "ok")) []); reflexivity.
Defined.

(** X10.  The plugin methods [push], [set], [enable] and [disable]
    resolve, when the callback receives no error, with a newly
    constructed plugin object (never the receiver) on the receiver's
    collaborator, named by the identifier [__processArguments]
    selected and carrying nothing of the response; [create] and
    [install] name it by the [name] of their option bag. *)
Theorem plugin_actions_resolve_with_bare_plugin
    (w : world) (this : loc) (o : obj) (m : Modem) (opts id : value)
    (r : response) (rest : list response) :
  heap w !! this = Some o ->
  obj_modem o = Normal m ->
  wire w = r :: rest ->
  failed r = false ->
  let n := length (heap w) in
  let after name c :=
    (Resolved (Ref n),
     World (heap w ++ [OPlugin (FModem m) name []]) rest
           (dialed w ++ [(m, c)])) in
  n <> this /\
  (exists opts' id',
     Plugin.__processArguments this opts id w = (Resolved (opts', id'), w) /\
     (exists c, Plugin.push this opts id w = after id' c) /\
     (exists c, Plugin.set this opts id w = after id' c) /\
     (exists c, Plugin.enable this opts id w = after id' c) /\
     (exists c, Plugin.disable this opts id w = after id' c)) /\
  (forall name, get_prop opts "name" = Normal name ->
     (exists c, Plugin.create this opts w = after name c) /\
     (exists c, Plugin.install this opts w = after name c)).
Proof.
  intros Hthis Hm Hwire Hok n after. subst n after. cbn beta.
  split_and!.
  - apply lookup_lt_Some in Hthis. lia.
  - eexists _, _. split_and!.
    + unfold Plugin.__processArguments. evaluate. reflexivity.
    + eexists. unfold Plugin.push, Plugin.__processArguments. evaluate.
      reflexivity.
    + eexists. unfold Plugin.set, Plugin.__processArguments. evaluate.
      reflexivity.
    + eexists. unfold Plugin.enable, Plugin.__processArguments. evaluate.
      reflexivity.
    + eexists. unfold Plugin.disable, Plugin.__processArguments. evaluate.
      reflexivity.
  - intros name Hname. split; eexists.
    + unfold Plugin.create. evaluate. reflexivity.
    + unfold Plugin.install. evaluate. reflexivity.
Qed.

Lemma plugin_actions_resolve_with_bare_plugin_witness :
  let w := sample [success VNull] in
  let opts := VObj [("name", VStr "new")] in
  let after name c :=
    (Resolved (Ref 8),
     World (sample_heap ++ [OPlugin (FModem 7) name []]) []
           (dialed w ++ [(7, c)])) in
  8 <> 7 /\
  (exists opts' id',
     Plugin.__processArguments 7 opts VUndef w = (Resolved (opts', id'), w) /\
     (exists c, Plugin.push 7 opts VUndef w = after id' c) /\
     (exists c, Plugin.set 7 opts VUndef w = after id' c) /\
     (exists c, Plugin.enable 7 opts VUndef w = after id' c) /\
     (exists c, Plugin.disable 7 opts VUndef w = after id' c)) /\
  (forall name, get_prop opts "name" = Normal name ->
     (exists c, Plugin.create 7 opts w = after name c) /\
     (exists c, Plugin.install 7 opts w = after name c)).
Proof.
  apply (plugin_actions_resolve_with_bare_plugin (sample [success VNull]) 7
           (OPlugin (FModem 7) (VStr "mine") []) 7
           (VObj [("name", VStr "new")]) VUndef
           (success VNull) []); reflexivity.
Defined.

(** ** What list resolves with *)

(** X11.  A [list] method resolves with the empty sequence, and
    constructs nothing, when the callback receives no error and a body
    the method takes for an empty collection ([taken_for_empty]):
    behind the [?.] guard of tasks, networks, nodes and plugins that
    is any body without a truthy [length], [null] and [undefined]
    included. *)
Theorem list_resolves_empty (op : operation) (m : Modem) (w : world)
    (r : response) (rest : list response) :
  target_modem (receiver op) w = Some m ->
  wire w = r :: rest ->
  failed r = false ->
  taken_for_empty op (result r) = true ->
  exists c,
    run op w =
      (Resolved (Refs []), World (heap w) rest (dialed w ++ [(m, c)])).
Proof.
  intros Hm Hwire Hok Hempty. destruct w as [h wi d]. cbn in Hwire. subst wi.
  destruct r as [e body]. unfold failed in Hok. cbn in Hok, Hempty |- *.
  destruct op; cbn in Hm, Hempty; try discriminate Hempty;
    unfold no_length in Hempty; cbn [run heap dialed];
    try (injection Hm as <-);
    try (destruct (h !! this) as [o|] eqn:Hthis; [|discriminate Hm];
         destruct (obj_modem o) as [m'|] eqn:Hom; [|discriminate Hm];
         injection Hm as ->);
    try match type of Hempty with
        | match body with _ => _ end = true =>
            destruct body as [| | | | |[|? ?]| |];
            try discriminate Hempty; clear Hempty
        | match get_prop body ?k with _ => _ end = true =>
            destruct (get_prop body k) as [?|] eqn:Hget;
            [|discriminate Hempty]
        end;
    explore;
    try (exfalso; cbn in *; congruence);
    try (eexists; reflexivity).
Qed.

Lemma list_resolves_empty_witness :
  let w := sample [success (VObj [("Volumes", VNull)])] in
  exists c,
    run (VolumeManager_list (VolumeManager.Make 7) VUndef) w =
      (Resolved (Refs []), World (heap w) [] (dialed w ++ [(7, c)])).
Proof.
  apply (list_resolves_empty
           (VolumeManager_list (VolumeManager.Make 7) VUndef) 7
           (sample [success (VObj [("Volumes", VNull)])])
           (success (VObj [("Volumes", VNull)])) []); reflexivity.
Defined.

Lemma list_wraps_each_element_witness :
  let conf := VObj [("Id", VStr "i1")] in
  exists c,
    ImageManager.list (ImageManager.Make 7) VUndef
      (sample [success (VArr [conf])]) =
      (Resolved (Refs [8]),
       World (sample_heap ++ [OHandle KImage 7 (VStr "i1") conf]) []
             [(7, c)]).
Proof.
  destruct (list_wraps_each_element 7 VUndef [VObj [("Id", VStr "i1")]] []
              (sample [success (VArr [VObj [("Id", VStr "i1")]])]))
    as [H _].
  - reflexivity.
  - discriminate.
  - repeat constructor; discriminate.
  - exact H.
Defined.

Lemma map_each_new_containers (m : Modem) (confs : list value) (w : world) :
  Forall readable confs ->
  map_each (wrap_container m) confs w =
    (Resolved (container_refs (length (heap w)) confs),
     World (heap w ++ new_containers m (length (heap w)) confs)
           (wire w) (dialed w)).
Proof.
  intros Hall. revert w. induction Hall as [|conf confs Hc _ IH]; intros w.
  - destruct w. cbn. by rewrite app_nil_r.
  - cbn [map_each]. unfold bind at 1. unfold wrap_container at 1.
    unfold_monad. rewrite (get_prop_readable _ _ Hc). cbn.
    rewrite alter_fresh, IH. cbn.
    rewrite length_app. cbn.
    replace (length (heap w) + 3) with (S (S (S (length (heap w))))) by lia.
    rewrite <- app_assoc. reflexivity.
Qed.

(** X13.  [ContainerManager.list], when the callback receives no error
    and an array whose elements are neither [null] nor [undefined],
    resolves with one new container per element, in order, each on the
    manager's collaborator, named by the element's [Id], holding the
    element as its snapshot, and followed in the heap by its own
    filesystem accessor and exec manager pointing back at it. *)
Theorem container_list_builds_containers
    (t : ContainerManager.t) (opts : value) (confs : list value)
    (rest : list response) (w : world) :
  wire w = success (VArr confs) :: rest ->
  Forall readable confs ->
  let m := ContainerManager.modem t in
  let n := length (heap w) in
  exists c,
    ContainerManager.list t opts w =
      (Resolved (Refs (container_refs n confs)),
       World (heap w ++ new_containers m n confs) rest
             (dialed w ++ [(m, c)])) /\
    path c = "/containers/json?" /\ method c = GET /\ options c = Some opts.
Proof.
  intros Hwire Hall m n. subst m n.
  eexists. split_and!.
  1: { unfold ContainerManager.list, array_map. evaluate.
       match goal with
       | |- context [map_each ?f _ ?W] =>
           rewrite (map_each_ext f
                      (wrap_container (ContainerManager.modem t)) confs W)
             by done;
           rewrite (map_each_new_containers _ _ W Hall)
       end.
       reflexivity. }
  all: reflexivity.
Qed.

Lemma container_list_builds_containers_witness :
  let confs := [VObj [("Id", VStr "c1")]; VObj [("Id", VStr "c2")]] in
  exists c,
    ContainerManager.list (ContainerManager.Make 7) VUndef
      (sample [success (VArr confs)]) =
      (Resolved (Refs [8; 11]),
       World (sample_heap ++ new_containers 7 8 confs) []
             ([] ++ [(7, c)])) /\
    path c = "/containers/json?" /\ method c = GET /\
    options c = Some VUndef.
Proof.
  apply (container_list_builds_containers (ContainerManager.Make 7) VUndef
           [VObj [("Id", VStr "c1")]; VObj [("Id", VStr "c2")]] []
           (sample [success (VArr [VObj [("Id", VStr "c1")];
                                   VObj [("Id", VStr "c2")]])])).
  - reflexivity.
  - repeat constructor; discriminate.
Defined.

(** X14.  [VolumeManager.list], when the callback receives no error
    and a body whose [Volumes] is a non-empty array of elements that
    are neither [null] nor [undefined], resolves with one new volume
    handle per element, in order, named by the element's [Name] and
    holding the element as its snapshot; the path is ["/volumes"]. *)
Theorem volume_list_wraps_each_volume
    (t : VolumeManager.t) (opts body : value) (confs : list value)
    (rest : list response) (w : world) :
  wire w = success body :: rest ->
  get_prop body "Volumes" = Normal (VArr confs) ->
  confs <> [] ->
  Forall readable confs ->
  let m := VolumeManager.modem t in
  exists c,
    VolumeManager.list t opts w =
      (Resolved (Refs (seq (length (heap w)) (length confs))),
       World (heap w ++
                map (fun conf =>
                       OHandle KVolume m (get_prop_opt conf "Name") conf)
                    confs)
             rest (dialed w ++ [(m, c)])) /\
    path c = "/volumes" /\ method c = GET /\ options c = Some opts.
Proof.
  intros Hwire Hvol Hne Hall m. subst m.
  assert (Hlen : (Z.of_nat (length confs) =? 0)%Z = false).
  { destruct confs; [done|]. reflexivity. }
  eexists. split_and!.
  1: { unfold VolumeManager.list, array_map. evaluate.
       unfold get_prop_opt. cbn. rewrite Hlen. cbn.
       match goal with
       | |- context [map_each ?f _ ?W] =>
           rewrite (map_each_ext f
                      (wrap_handle KVolume (VolumeManager.modem t) "Name")
                      confs W) by done;
           rewrite (map_each_new_handles _ _ _ _ W Hall)
       end.
       reflexivity. }
  all: reflexivity.
Qed.

Lemma volume_list_wraps_each_volume_witness :
  let confs := [VObj [("Name", VStr "v1")]] in
  exists c,
    VolumeManager.list (VolumeManager.Make 7) VUndef
      (sample [success (VObj [("Volumes", VArr confs)])]) =
      (Resolved (Refs (seq 8 1)),
       World (sample_heap ++
                map (fun conf =>
                       OHandle KVolume 7 (get_prop_opt conf "Name") conf)
                    confs)
             [] ([] ++ [(7, c)])) /\
    path c = "/volumes" /\ method c = GET /\ options c = Some VUndef.
Proof.
  apply (volume_list_wraps_each_volume (VolumeManager.Make 7) VUndef
           (VObj [("Volumes", VArr [VObj [("Name", VStr "v1")]])])
           [VObj [("Name", VStr "v1")]] []
           (sample [success (VObj [("Volumes",
                                    VArr [VObj [("Name", VStr "v1")]])])])).
  - reflexivity.
  - reflexivity.
  - discriminate.
  - repeat constructor; discriminate.
Defined.

(** Mapping a callback that constructs one object per element. *)
Lemma map_each_alloc (f : value -> M loc) (mk : value -> obj)
    (I : world -> Prop) (confs : list value) (w : world) :
  (forall W conf, I W -> readable conf ->
     f conf W = (Resolved (length (heap W)),
                 World (heap W ++ [mk conf]) (wire W) (dialed W))) ->
  (forall W o, I W -> I (World (heap W ++ [o]) (wire W) (dialed W))) ->
  Forall readable confs ->
  I w ->
  map_each f confs w =
    (Resolved (seq (length (heap w)) (length confs)),
     World (heap w ++ map mk confs) (wire w) (dialed w)).
Proof.
  intros Hf Hkeep Hall. revert w.
  induction Hall as [|conf confs Hc _ IH]; intros w HI.
  - destruct w. cbn. by rewrite app_nil_r.
  - cbn [map_each]. unfold bind at 1. rewrite (Hf w conf HI Hc).
    unfold bind. rewrite IH by (by apply Hkeep). cbn.
    rewrite length_app, Nat.add_1_r, <- app_assoc. reflexivity.
Qed.

(** X15.  [Plugin.list], when the callback receives no error and a
    non-empty array of elements that are neither [null] nor
    [undefined], resolves with one new plugin object per element, in
    order, on the receiver's collaborator: the plugin named by the
    element's [Id] onto which [Object.assign] copied the element's
    properties. *)
Theorem plugin_list_merges_each_element
    (w : world) (this : loc) (o : obj) (m : Modem) (opts : value)
    (confs : list value) (rest : list response) :
  heap w !! this = Some o ->
  obj_modem o = Normal m ->
  wire w = success (VArr confs) :: rest ->
  confs <> [] ->
  Forall readable confs ->
  exists c,
    Plugin.list this opts w =
      (Resolved (Refs (seq (length (heap w)) (length confs))),
       World (heap w ++
                map (fun conf =>
                       object_assign conf
                         (OPlugin (FModem m) (get_prop_opt conf "Id") []))
                    confs)
             rest (dialed w ++ [(m, c)])) /\
    path c = "/plugins?" /\ method c = GET /\ options c = Some opts.
Proof.
  intros Hthis Hm Hwire Hne Hall.
  assert (Hlen : (Z.of_nat (length confs) =? 0)%Z = false).
  { destruct confs; [done|]. reflexivity. }
  eexists. split_and!.
  1: { unfold Plugin.list, array_map. evaluate.
       unfold get_prop_opt. cbn. rewrite Hlen. cbn.
       match goal with
       | |- context [map_each ?f _ ?W] =>
           rewrite (map_each_alloc f
                      (fun conf =>
                         object_assign conf
                           (OPlugin (FModem m) (get_prop_opt conf "Id") []))
                      (fun W0 => heap W0 !! this = Some o) confs W)
       end.
       - reflexivity.
       - intros W conf HW Hc. cbn. rewrite HW. cbn. rewrite Hm. cbn.
         rewrite (get_prop_readable _ _ Hc). cbn.
         by rewrite alter_fresh.
       - intros W o' HW. cbn. by apply lookup_app_l_Some.
       - done.
       - done. }
  all: reflexivity.
Qed.

Lemma plugin_list_merges_each_element_witness :
  let confs := [VObj [("Id", VStr "p1"); ("Name", VStr "n1")]] in
  exists c,
    Plugin.list 6 VUndef (sample [success (VArr confs)]) =
      (Resolved (Refs (seq 8 1)),
       World (sample_heap ++
                map (fun conf =>
                       object_assign conf
                         (OPlugin (FModem 7) (get_prop_opt conf "Id") []))
                    confs)
             [] ([] ++ [(7, c)])) /\
    path c = "/plugins?" /\ method c = GET /\ options c = Some VUndef.
Proof.
  apply (plugin_list_merges_each_element
           (sample [success (VArr [VObj [("Id", VStr "p1");
                                         ("Name", VStr "n1")]])])
           6 (OPlugin (FModem 7) VUndef []) 7 VUndef
           [VObj [("Id", VStr "p1"); ("Name", VStr "n1")]] []).
  - reflexivity.
  - reflexivity.
  - reflexivity.
  - discriminate.
  - repeat constructor; discriminate.
Defined.

(** ** Methods in sequence *)

(** X16.  [Image.tag] chains two requests.  An error on the tag
    request rejects the promise and nothing more is dialed; otherwise
    a new image handle with the receiver's identifier is constructed
    and its [status()] is fetched, without options: an error there
    rejects the promise, and otherwise the promise resolves with a
    second new handle, still named by the receiver's identifier,
    holding the status body as its snapshot. *)
Theorem tag_chains_status_on_new_handle
    (w : world) (this : loc) (o : obj) (m : Modem) (opts : value)
    (r1 r2 : response) (rest : list response) :
  heap w !! this = Some o ->
  obj_modem o = Normal m ->
  wire w = r1 :: r2 :: rest ->
  let n := length (heap w) in
  let id := obj_id o in
  exists c1 c2,
    (path c1 = "/images/" +:+ to_string id +:+ "/tag?" /\
     method c1 = POST /\ options c1 = Some opts) /\
    (path c2 = "/images/" +:+ to_string id +:+ "/json?" /\
     method c2 = GET /\ options c2 = Some VUndef) /\
    Image.tag this opts w =
      if failed r1 then
        (Rejected (err r1),
         World (heap w) (r2 :: rest) (dialed w ++ [(m, c1)]))
      else if failed r2 then
        (Rejected (err r2),
         World (heap w ++ [OHandle KImage m id (VObj [])]) rest
               (dialed w ++ [(m, c1); (m, c2)]))
      else
        (Resolved (Ref (S n)),
         World (heap w ++ [OHandle KImage m id (VObj []);
                           OHandle KImage m id (result r2)]) rest
               (dialed w ++ [(m, c1); (m, c2)])).
Proof.
  intros Hthis Hm Hwire n id. subst n id.
  eexists _, _. split_and!.
  7: { unfold failed, Image.tag.
       destruct (truthy (err r1)) eqn:H1; [evaluate; reflexivity|].
       destruct (truthy (err r2)) eqn:H2;
         evaluate; unfold Image.status; evaluate;
         rewrite ?length_app; repeat rewrite <- app_assoc; cbn;
         rewrite ?Nat.add_1_r; reflexivity. }
  all: reflexivity.
Qed.

Lemma tag_chains_status_on_new_handle_witness :
  exists c1 c2,
    (path c1 = "/images/alpine/tag?" /\ method c1 = POST /\
     options c1 = Some (VObj [("repo", VStr "mine")])) /\
    (path c2 = "/images/alpine/json?" /\ method c2 = GET /\
     options c2 = Some VUndef) /\
    Image.tag 3 (VObj [("repo", VStr "mine")])
      (sample [success VNull; success (VObj [("Id", VStr "i1")])]) =
      (Resolved (Ref 9),
       World (sample_heap ++
                [OHandle KImage 7 (VStr "alpine") (VObj []);
                 OHandle KImage 7 (VStr "alpine") (VObj [("Id", VStr "i1")])])
             [] ([] ++ [(7, c1); (7, c2)])).
Proof.
  apply (tag_chains_status_on_new_handle
           (sample [success VNull; success (VObj [("Id", VStr "i1")])]) 3
           (OHandle KImage 7 (VStr "alpine") (VObj [])) 7
           (VObj [("repo", VStr "mine")])
           (success VNull) (success (VObj [("Id", VStr "i1")])) []);
    reflexivity.
Defined.

(** X17.  [create] followed by [status] on the handle it resolved
    with, for the container, network, secret, service and volume
    managers, both callbacks receiving no error and the create
    response being neither [null] nor [undefined]: the handle is new,
    on the manager's collaborator, named by the field [id_key] of the
    create response, and holds that response as its snapshot (a volume
    handle holds [{}]); the status request is a GET on the path of
    that identifier, on the same collaborator, and resolves with
    another new handle of the same identifier holding the status body,
    the first handle being left as it was. *)
Theorem create_then_status_round_trip
    (c : creator) (opts opts' : value) (w : world)
    (r1 r2 : response) (rest : list response) :
  wire w = r1 :: r2 :: rest ->
  failed r1 = false ->
  failed r2 = false ->
  readable (result r1) ->
  let m := creator_modem c in
  let id := get_prop_opt (result r1) (id_key c) in
  let n := length (heap w) in
  exists w1 o1 n2 w2 o2 c1 c2,
    create_of c opts w = (Resolved (Ref n), w1) /\
    heap w1 !! n = Some o1 /\
    obj_modem o1 = Normal m /\ obj_id o1 = id /\
    obj_data o1 = create_snapshot c (result r1) /\
    status_of n opts' VUndef w1 = (Resolved (Ref n2), w2) /\
    n2 <> n /\
    heap w2 !! n2 = Some o2 /\
    obj_modem o2 = Normal m /\ obj_id o2 = id /\ obj_data o2 = result r2 /\
    heap w2 !! n = Some o1 /\
    wire w2 = rest /\
    dialed w2 = dialed w ++ [(m, c1); (m, c2)] /\
    path c2 = status_path c id /\ method c2 = GET /\ options c2 = Some opts'.
Proof.
  intros Hwire H1 H2 Hread m id n. subst m id n.
  unfold failed in H1, H2.
  pose proof (get_prop_readable _ (id_key c) Hread) as Hget.
  destruct w as [h wi d]. cbn in Hwire. subst wi.
  destruct c;
    cbn [create_of id_key creator_modem status_path create_snapshot
         heap dialed wire] in *;
    do 7 eexists;
    (split_and!;
     [ unfold ContainerManager.create, NetworkManager.create,
         SecretManager.create, ServiceManager.create, VolumeManager.create;
       evaluate; reflexivity
     | cbn; use_fresh; reflexivity
     | reflexivity | reflexivity | reflexivity
     | unfold status_of, Container.status, Network.status, Secret.status,
         Service.status, Volume.status;
       evaluate; use_fresh; cbn; evaluate; use_fresh; cbn; reflexivity
     | rewrite length_app; cbn; lia
     | cbn; use_fresh; reflexivity
     | reflexivity | reflexivity | reflexivity
     | cbn; repeat rewrite <- app_assoc; cbn; use_fresh; reflexivity
     | reflexivity
     | cbn; repeat rewrite <- app_assoc; reflexivity
     | reflexivity | reflexivity | reflexivity ]).
Qed.

Lemma create_then_status_round_trip_witness :
  let c := CVolume (VolumeManager.Make 7) in
  let body := VObj [("Name", VStr "data")] in
  let w := sample [success body; success (VObj [("Driver", VStr "local")])] in
  exists w1 o1 n2 w2 o2 c1 c2,
    create_of c VUndef w = (Resolved (Ref 8), w1) /\
    heap w1 !! 8 = Some o1 /\
    obj_modem o1 = Normal 7 /\ obj_id o1 = VStr "data" /\
    obj_data o1 = VObj [] /\
    status_of 8 VUndef VUndef w1 = (Resolved (Ref n2), w2) /\
    n2 <> 8 /\
    heap w2 !! n2 = Some o2 /\
    obj_modem o2 = Normal 7 /\ obj_id o2 = VStr "data" /\
    obj_data o2 = VObj [("Driver", VStr "local")] /\
    heap w2 !! 8 = Some o1 /\
    wire w2 = [] /\
    dialed w2 = [] ++ [(7, c1); (7, c2)] /\
    path c2 = "/volumes/data?" /\ method c2 = GET /\ options c2 = Some VUndef.
Proof.
  apply (create_then_status_round_trip
           (CVolume (VolumeManager.Make 7)) VUndef VUndef
           (sample [success (VObj [("Name", VStr "data")]);
                    success (VObj [("Driver", VStr "local")])])
           (success (VObj [("Name", VStr "data")]))
           (success (VObj [("Driver", VStr "local")])) []);
    try reflexivity.
  split; discriminate.
Defined.

(** The three objects [new Container] constructs, by reference. *)
Lemma lookup_new_container (h : list obj) (a b c : obj) :
  (h ++ [a; b; c]) !! length h = Some a /\
  (h ++ [a; b; c]) !! S (length h) = Some b /\
  (h ++ [a; b; c]) !! S (S (length h)) = Some c.
Proof.
  split_and!.
  - by rewrite (list_lookup_middle h [b; c] a (length h) eq_refl).
  - rewrite lookup_app_r by lia.
    by replace (S (length h) - length h) with 1 by lia.
  - rewrite lookup_app_r by lia.
    by replace (S (S (length h)) - length h) with 2 by lia.
Qed.

Ltac use_block :=
  repeat match goal with
  | |- context [(?h ++ [?a; ?b; ?c]) !! length ?h] =>
      rewrite (proj1 (lookup_new_container h a b c))
  | |- context [(?h ++ [?a; ?b; ?c]) !! S (length ?h)] =>
      rewrite (proj1 (proj2 (lookup_new_container h a b c)))
  | |- context [(?h ++ [?a; ?b; ?c]) !! S (S (length ?h))] =>
      rewrite (proj2 (proj2 (lookup_new_container h a b c)))
  end.

(** X18.  The two sub-handles constructed with a container address
    that container: on the container [get(id)] builds, the filesystem
    accessor's [info] and [put] and the exec manager's [create] dial,
    on the manager's collaborator and whatever the collaborator then
    delivers, a path under ["/containers/<id>"]. *)
Theorem subhandles_address_their_container
    (t : ContainerManager.t) (id tar opts : value) (w : world) :
  let n := length (heap w) in
  let m := ContainerManager.modem t in
  let base := "/containers/" +:+ to_string id in
  exists w1,
    ContainerManager.get t id w = (Resolved n, w1) /\
    heap w1 !! n = Some (OContainer m id (S n) (S (S n)) (VArr []) VUndef) /\
    (exists c, dialed (snd (ContainerFs.info (S n) opts w1))
                 = dialed w ++ [(m, c)] /\
               path c = base +:+ "/archive?" /\ method c = HEAD) /\
    (exists c, dialed (snd (ContainerFs.put (S n) tar opts w1))
                 = dialed w ++ [(m, c)] /\
               path c = base +:+ "/archive?" /\ method c = PUT /\
               file c = Some tar) /\
    (exists c, dialed (snd (ExecManager.create (S (S n)) opts w1))
                 = dialed w ++ [(m, c)] /\
               path c = base +:+ "/exec?" /\ method c = POST).
Proof.
  intros n m base. subst n m base. destruct w as [h wi d].
  eexists. split_and!.
  - reflexivity.
  - cbn. use_block. reflexivity.
  - eexists. split_and!.
    1: { unfold ContainerFs.info. unfold_monad. cbn.
         repeat (first [progress use_block | break_match]; cbn);
           reflexivity. }
    all: reflexivity.
  - eexists. split_and!.
    1: { unfold ContainerFs.put. unfold_monad. cbn.
         repeat (first [progress use_block | break_match]; cbn);
           reflexivity. }
    all: reflexivity.
  - eexists. split_and!.
    1: { unfold ExecManager.create. unfold_monad. cbn.
         repeat (first [progress use_block | break_match]; cbn);
           reflexivity. }
    all: reflexivity.
Qed.

(** X19.  An exec session from creation to start.  [create] on the
    exec manager of a container posts to the container's [exec] path
    and, the callback receiving no error and a body that is neither
    [null] nor [undefined], resolves with a new [Exec] bound to that
    container, named by the body's [Id] and holding the body;
    [start] on it, with a bag other than [null], posts to
    ["/exec/<Id>/start?"] as a stream, with [hijack] and [openStdin]
    read from the bag, and resolves with the delivered stream. *)
Theorem exec_session_round_trip
    (w : world) (this cont : loc) (m : Modem) (co : obj)
    (opts opts' : value) (r1 r2 : response) (rest : list response) :
  heap w !! this = Some (OExecManager m cont) ->
  heap w !! cont = Some co ->
  wire w = r1 :: r2 :: rest ->
  failed r1 = false ->
  failed r2 = false ->
  readable (result r1) ->
  opts' <> VNull ->
  let n := length (heap w) in
  let eid := get_prop_opt (result r1) "Id" in
  let bag := default_param (VObj []) opts' in
  exists c1 c2,
    let w1 := World (heap w ++ [OExec m cont eid (result r1)])
                    (r2 :: rest) (dialed w ++ [(m, c1)]) in
    ExecManager.create this opts w = (Resolved (Ref n), w1) /\
    (path c1 = "/containers/" +:+ to_string (obj_id co) +:+ "/exec?" /\
     method c1 = POST /\ options c1 = Some opts) /\
    Exec.start n opts' w1 =
      (Resolved (Raw (result r2)),
       World (heap w1) rest (dialed w ++ [(m, c1); (m, c2)])) /\
    (path c2 = "/exec/" +:+ to_string eid +:+ "/start?" /\
     method c2 = POST /\ options c2 = Some bag /\
     isStream c2 = Some (VBool true) /\
     hijack c2 = Some (get_prop_opt bag "hijack") /\
     openStdin c2 = Some (get_prop_opt bag "stdin")).
Proof.
  intros Hthis Hcont Hwire H1 H2 Hread Hopts n eid bag. subst n eid bag.
  unfold failed in H1, H2.
  pose proof (get_prop_readable _ "Id" Hread) as Hget.
  assert (Hbag : readable (default_param (VObj []) opts')).
  { destruct opts'; split; done. }
  pose proof (get_prop_readable _ "hijack" Hbag) as Hhj.
  pose proof (get_prop_readable _ "stdin" Hbag) as Hin.
  eexists _, _. cbn zeta. split_and!.
  1: { unfold ExecManager.create. evaluate. reflexivity. }
  1-3: reflexivity.
  1: { unfold Exec.start. evaluate. use_fresh. cbn. evaluate.
       repeat rewrite <- app_assoc. reflexivity. }
  all: reflexivity.
Qed.

Lemma exec_session_round_trip_witness :
  exists c1 c2,
    let w1 := World (sample_heap ++
                       [OExec 7 0 (VStr "e9") (VObj [("Id", VStr "e9")])])
                    [success (VStream [] false)] ([] ++ [(7, c1)]) in
    ExecManager.create 2 (VObj [("Cmd", VStr "ls")])
      (sample [success (VObj [("Id", VStr "e9")]);
               success (VStream [] false)])
      = (Resolved (Ref 8), w1) /\
    (path c1 = "/containers/abc/exec?" /\
     method c1 = POST /\ options c1 = Some (VObj [("Cmd", VStr "ls")])) /\
    Exec.start 8 VUndef w1 =
      (Resolved (Raw (VStream [] false)),
       World (heap w1) [] ([] ++ [(7, c1); (7, c2)])) /\
    (path c2 = "/exec/e9/start?" /\
     method c2 = POST /\ options c2 = Some (VObj []) /\
     isStream c2 = Some (VBool true) /\
     hijack c2 = Some VUndef /\
     openStdin c2 = Some VUndef).
Proof.
  apply (exec_session_round_trip
           (sample [success (VObj [("Id", VStr "e9")]);
                    success (VStream [] false)])
           2 0 7 (OContainer 7 (VStr "abc") 1 2 (VArr []) VUndef)
           (VObj [("Cmd", VStr "ls")]) VUndef
           (success (VObj [("Id", VStr "e9")])) (success (VStream [] false))
           []); try reflexivity; try discriminate.
  split; discriminate.
Defined.

(** X20.  The facade's constructor builds one plugin object, without
    identifier, and one swarm object, both on the collaborator [m],
    and gives the facade and its eight manager slots that same [m];
    it dials nothing.  From then on, in any later state that still
    holds those two objects, a method called through the facade (on
    the facade, on the manager of a slot, or on the plugin or swarm
    object) never throws before dialing: it issues at least one
    request, and every request it issues is dialed on [m]. *)
Theorem facade_slots_share_one_transport (m : Modem) (w : world) :
  let n := length (heap w) in
  let d := Docker.Make m (ContainerManager.Make m) (ImageManager.Make m)
             (VolumeManager.Make m) (NetworkManager.Make m)
             (NodeManager.Make m) n (SecretManager.Make m)
             (ServiceManager.Make m) (S n) (TaskManager.Make m) in
  let w1 := World (heap w ++ [OPlugin (FModem m) VUndef [];
                              OSwarm m (VObj [])])
                  (wire w) (dialed w) in
  Docker.new m w = (Resolved d, w1) /\
  forall op w2,
    through_facade d op ->
    (forall l o, heap w1 !! l = Some o -> heap w2 !! l = Some o) ->
    (forall x, fst (run op w2) <> Threw x) /\
    exists c calls,
      dialed (snd (run op w2)) = dialed w2 ++ (m, c) :: calls /\
      Forall (fun mc => fst mc = m) calls.
Proof.
  destruct w as [h wi d0]. cbn zeta. cbn [heap wire dialed]. split.
  { unfold Docker.new. unfold_monad. cbn.
    by rewrite length_app, Nat.add_1_r, <- app_assoc. }
  intros op w2 Hvia Hkeep.
  assert (Hp : heap w2 !! length h = Some (OPlugin (FModem m) VUndef [])).
  { apply Hkeep. by rewrite (list_lookup_middle h _ _ (length h) eq_refl). }
  assert (Hs : heap w2 !! S (length h) = Some (OSwarm m (VObj []))).
  { apply Hkeep. rewrite lookup_app_r by lia.
    by replace (S (length h) - length h) with 1 by lia. }
  clear Hkeep.
  assert (Hm : target_modem (receiver op) w2 = Some m).
  { destruct op; cbn in Hvia; try done; subst; cbn;
      rewrite ?Hp, ?Hs; reflexivity. }
  assert (Hno : forall x, fst (run op w2) <> Threw x).
  { clear Hm. destruct w2 as [h2 wi2 d2]. cbn in Hp, Hs.
    destruct op; cbn in Hvia; try done; subst; cbn [run];
      explore; intros ? [=]. }
  split; [exact Hno|].
  destruct (effect_inv _ _ _ _ (run_effect op w2))
    as (_ & calls & _ & Hd & _ & Hall).
  destruct (shape_traced _ _ _ _ (run_shape op w2))
    as (_ & new & _ & Hd' & _ & _ & Hne & _).
  rewrite Hd in Hd'. apply app_inv_head in Hd' as <-.
  specialize (Hne Hno). rewrite Hm in Hall.
  destruct calls as [|[m' c] calls]; [done|].
  apply Forall_cons in Hall as [[[= ->] _] Hall].
  exists c, calls. split; [exact Hd|].
  eapply Forall_impl; [exact Hall|].
  intros mc [[= ->] _]. reflexivity.
Qed.

Lemma facade_slots_share_one_transport_witness :
  let d := Docker.Make 7 (ContainerManager.Make 7) (ImageManager.Make 7)
             (VolumeManager.Make 7) (NetworkManager.Make 7)
             (NodeManager.Make 7) 0 (SecretManager.Make 7)
             (ServiceManager.Make 7) 1 (TaskManager.Make 7) in
  let w1 := World [OPlugin (FModem 7) VUndef []; OSwarm 7 (VObj [])] [] [] in
  Docker.new 7 (World [] [] []) = (Resolved d, w1) /\
  (forall x, fst (run (Plugin_list 0 VUndef) w1) <> Threw x) /\
  exists c calls,
    dialed (snd (run (Plugin_list 0 VUndef) w1)) = dialed w1 ++ (7, c) :: calls /\
    Forall (fun mc => fst mc = 7) calls.
Proof.
  destruct (facade_slots_share_one_transport 7 (World [] [] []))
    as [Hnew H].
  split; [exact Hnew|].
  apply H.
  - reflexivity.
  - done.
Defined.

(** ** Option bags and arguments *)

Section Assoc.

Context {A : Type}.
Implicit Types (k : string) (v : A) (ps : list (string * A)).

Lemma assoc_assign_same k v ps : assoc k (assign k v ps) = Some v.
Proof.
  induction ps as [|[k' v'] ps IH]; cbn.
  - by rewrite String.eqb_refl.
  - destruct (String.eqb k k') eqn:E; cbn; rewrite ?String.eqb_refl, ?E; done.
Qed.

Lemma assoc_assign_other k k' v ps :
  k' <> k -> assoc k' (assign k v ps) = assoc k' ps.
Proof.
  intros Hne. apply String.eqb_neq in Hne.
  induction ps as [|[k0 v0] ps IH]; cbn.
  - by rewrite Hne.
  - destruct (String.eqb k k0) eqn:E; cbn.
    + apply String.eqb_eq in E as <-. by rewrite Hne.
    + by rewrite IH.
Qed.

Lemma assoc_absent k ps : k ∉ map fst ps -> assoc k ps = None.
Proof.
  induction ps as [|[k' v'] ps IH]; cbn; [done|].
  rewrite not_elem_of_cons. intros [Hne Hin].
  apply String.eqb_neq in Hne. rewrite Hne. by apply IH.
Qed.

Lemma assign_absent k v ps : k ∉ map fst ps -> assign k v ps = ps ++ [(k, v)].
Proof.
  induction ps as [|[k' v'] ps IH]; cbn; [done|].
  rewrite not_elem_of_cons. intros [Hne Hin].
  apply String.eqb_neq in Hne. rewrite Hne. by rewrite IH.
Qed.

End Assoc.

(** X21.  [commit] writes the receiver's identifier into the option
    bag as [container] before dialing: the descriptor's options hold
    the receiver's identifier under [container], whatever the caller
    had put there, and every other option as the caller gave it. *)
Theorem commit_sends_receiver_as_container
    (w : world) (this : loc) (o : obj) (m : Modem) (opts : value)
    (ps : list (string * value)) :
  heap w !! this = Some o ->
  obj_modem o = Normal m ->
  default_param (VObj []) opts = VObj ps ->
  exists c ps',
    dialed (snd (Container.commit this opts w)) = dialed w ++ [(m, c)] /\
    path c = "/commit?" /\ method c = POST /\
    options c = Some (VObj ps') /\
    assoc "container" ps' = Some (obj_id o) /\
    forall k, k <> "container" -> assoc k ps' = assoc k ps.
Proof.
  intros Hthis Hm Hopts.
  exists (request "/commit?" POST
            (Some (VObj (assign "container" (obj_id o) ps)))
            [ok 201; lbl 404 "no such container"; lbl 500 "server error"]),
         (assign "container" (obj_id o) ps).
  split_and!; try reflexivity.
  - unfold Container.commit. rewrite Hopts. destruct w as [h wi d].
    cbn in Hthis. unfold_monad. cbn.
    repeat (first [reuse | break_match]; cbn); reflexivity.
  - apply assoc_assign_same.
  - intros k Hk. by apply assoc_assign_other.
Qed.

Lemma commit_sends_receiver_as_container_witness :
  let bag := [("repo", VStr "r"); ("container", VStr "other")] in
  exists c ps',
    dialed (snd (Container.commit 0 (VObj bag) (sample [])))
      = dialed (sample []) ++ [(7, c)] /\
    path c = "/commit?" /\ method c = POST /\
    options c = Some (VObj ps') /\
    assoc "container" ps' = Some (VStr "abc") /\
    forall k, k <> "container" -> assoc k ps' = assoc k bag.
Proof.
  apply (commit_sends_receiver_as_container (sample []) 0
           (OContainer 7 (VStr "abc") 1 2 (VArr []) VUndef) 7
           (VObj [("repo", VStr "r"); ("container", VStr "other")])
           [("repo", VStr "r"); ("container", VStr "other")]);
    reflexivity.
Defined.

(** X22.  [__processArguments] is idempotent: on an existing plugin
    object it returns a pair, without touching the state, and applied
    to that pair it returns the same pair. *)
Theorem processArguments_is_idempotent
    (w : world) (this : loc) (o : obj) (opts id : value) :
  heap w !! this = Some o ->
  exists opts' id',
    Plugin.__processArguments this opts id w = (Resolved (opts', id'), w) /\
    Plugin.__processArguments this opts' id' w = (Resolved (opts', id'), w).
Proof.
  intros Hthis. destruct w as [h wi d]. cbn in Hthis.
  eexists _, _. split.
  - unfold Plugin.__processArguments. unfold_monad. cbn. rewrite Hthis.
    reflexivity.
  - unfold Plugin.__processArguments. unfold_monad. cbn. rewrite Hthis. cbn.
    destruct (truthy id) eqn:E1, (truthy (obj_id o)) eqn:E2,
      (truthy opts) eqn:E3;
      destruct opts; try discriminate E3;
      repeat (progress (cbn in *; rewrite ?E1, ?E2, ?E3)); reflexivity.
Qed.

Lemma processArguments_is_idempotent_witness :
  exists opts' id',
    Plugin.__processArguments 7 (VStr "other") VUndef (sample [])
      = (Resolved (opts', id'), sample []) /\
    Plugin.__processArguments 7 opts' id' (sample [])
      = (Resolved (opts', id'), sample []).
Proof.
  apply (processArguments_is_idempotent (sample []) 7
           (OPlugin (FModem 7) (VStr "mine") []) (VStr "other") VUndef).
  reflexivity.
Defined.

Lemma object_assign_distinct (m : field) (i : value)
    (extra ps : list (string * value)) :
  NoDup (map fst ps) ->
  "__proto__" ∉ map fst ps ->
  (forall k, k ∈ map fst ps -> k ∉ map fst extra) ->
  foldl assign_prop (OPlugin m i extra) ps =
    OPlugin (match assoc "modem" ps with
             | Some v => FVal v
             | None => m
             end)
            (default i (assoc "id" ps))
            (extra ++ plain_props ps).
Proof.
  revert m i extra.
  induction ps as [|[k v] ps IH]; intros m i extra Hnd Hproto Hdis.
  - cbn. by rewrite app_nil_r.
  - cbn [map fst] in Hnd, Hproto. apply NoDup_cons in Hnd as [Hk Hnd].
    apply not_elem_of_cons in Hproto as [Hne Hproto].
    assert (Ep : String.eqb k "__proto__" = false)
      by (apply String.eqb_neq; congruence).
    cbn [foldl assign_prop fst snd assoc]. unfold plain_props.
    cbn [List.filter fst]. rewrite Ep.
    rewrite (String.eqb_sym "modem" k), (String.eqb_sym "id" k).
    destruct (String.eqb k "modem") eqn:E1.
    + apply String.eqb_eq in E1 as ->.
      rewrite IH; [|done|done|].
      * rewrite (assoc_absent "modem" ps Hk). cbn. reflexivity.
      * intros k' Hk'. apply Hdis. cbn. by apply elem_of_cons; right.
    + destruct (String.eqb k "id") eqn:E2.
      * apply String.eqb_eq in E2 as ->.
        rewrite IH; [|done|done|].
        -- rewrite (assoc_absent "id" ps Hk). cbn. reflexivity.
        -- intros k' Hk'. apply Hdis. cbn. by apply elem_of_cons; right.
      * rewrite assign_absent
          by (apply Hdis; cbn; apply elem_of_cons; by left).
        rewrite IH; [|done|done|].
        -- cbn. by rewrite <- app_assoc.
        -- intros k' Hk'. rewrite map_app. cbn.
           rewrite elem_of_app, list_elem_of_singleton.
           intros [H| ->]; [|done].
           revert H. apply Hdis. cbn. by apply elem_of_cons; right.
Qed.

(** X23.  [Plugin.status], when the callback receives no error and an
    object whose keys are distinct and do not include [__proto__],
    resolves with a new plugin object onto which the body was merged:
    every property of the body other than [id] and [modem] is a
    property of the plugin itself, with the body's value and in the
    body's order (nothing is stored as a snapshot); a body property
    [id] replaces the identifier the plugin was constructed with, and
    a body property [modem] replaces its collaborator. *)
Theorem plugin_status_merges_body
    (w : world) (this : loc) (o : obj) (m : Modem) (opts id : value)
    (r : response) (rest : list response) (ps : list (string * value)) :
  heap w !! this = Some o ->
  obj_modem o = Normal m ->
  wire w = r :: rest ->
  failed r = false ->
  result r = VObj ps ->
  NoDup (map fst ps) ->
  "__proto__" ∉ map fst ps ->
  exists id' c,
    Plugin.status this opts id w =
      (Resolved (Ref (length (heap w))),
       World (heap w ++ [merged_plugin m id' ps]) rest
             (dialed w ++ [(m, c)])) /\
    path c = "/plugins/" +:+ to_string id' +:+ "?" /\
    forall k, k <> "id" -> k <> "modem" ->
      assoc k (plain_props ps) = assoc k ps.
Proof.
  intros Hthis Hm Hwire Hok Hres Hnd Hproto.
  eexists _, _. split_and!.
  - unfold Plugin.status, Plugin.__processArguments. evaluate.
    unfold object_assign. rewrite Hres. cbn [own_enumerable].
    rewrite object_assign_distinct; [reflexivity | done | done |].
    intros k _ H. by apply elem_of_nil in H.
  - reflexivity.
  - intros k Hid Hmodem. unfold plain_props.
    clear Hnd Hres Hproto. induction ps as [|[k' v'] ps IH]; [done|].
    cbn [List.filter fst assoc].
    destruct (String.eqb k k') eqn:E.
    + apply String.eqb_eq in E as <-.
      apply String.eqb_neq in Hid, Hmodem. rewrite Hid, Hmodem. cbn.
      by rewrite String.eqb_refl.
    + destruct (negb _ && negb _); [|done]. cbn. by rewrite E.
Qed.

Lemma plugin_status_merges_body_witness :
  let body := [("Id", VStr "p1"); ("Enabled", VBool true)] in
  exists id' c,
    Plugin.status 7 VUndef VUndef (sample [success (VObj body)]) =
      (Resolved (Ref 8),
       World (sample_heap ++ [merged_plugin 7 id' body]) []
             ([] ++ [(7, c)])) /\
    path c = "/plugins/" +:+ to_string id' +:+ "?" /\
    forall k, k <> "id" -> k <> "modem" ->
      assoc k (plain_props body) = assoc k body.
Proof.
  apply (plugin_status_merges_body (sample [success (VObj
           [("Id", VStr "p1"); ("Enabled", VBool true)])]) 7
           (OPlugin (FModem 7) (VStr "mine") []) 7 VUndef VUndef
           (success (VObj [("Id", VStr "p1"); ("Enabled", VBool true)])) []
           [("Id", VStr "p1"); ("Enabled", VBool true)]);
    try reflexivity.
  - repeat constructor; cbn; rewrite ?elem_of_cons, ?elem_of_nil;
      intuition discriminate.
  - cbn. rewrite ?elem_of_cons, ?elem_of_nil. intuition discriminate.
Defined.

(** ** Further resolutions *)

(** X24.  [Plugin.create] and [Plugin.install] read [opts.name] only
    in the callback: called without an option bag ([undefined] or
    [null]) they still dial their request and then, the callback
    receiving no error, throw inside it, so that the promise is never
    settled.  [Plugin.upgrade] cannot: the bag [__processArguments]
    returns is never nullish, and the promise resolves with a new
    plugin named by the [name] of that bag. *)
Theorem plugin_create_needs_option_bag
    (w : world) (this : loc) (o : obj) (m : Modem) (opts : value)
    (r : response) (rest : list response) :
  heap w !! this = Some o ->
  obj_modem o = Normal m ->
  wire w = r :: rest ->
  failed r = false ->
  (get_prop opts "name" = Throw TypeError ->
   (exists c, Plugin.create this opts w =
                (CallbackThrew TypeError,
                 World (heap w) rest (dialed w ++ [(m, c)])) /\
              path c = "/plugins/create?" /\ options c = Some opts) /\
   (exists c, Plugin.install this opts w =
                (CallbackThrew TypeError,
                 World (heap w) rest (dialed w ++ [(m, c)])) /\
              path c = "/plugins/pull?" /\ options c = Some opts)) /\
  (exists opts' id' c,
     Plugin.__processArguments this opts VUndef w
       = (Resolved (opts', id'), w) /\
     Plugin.upgrade this opts w =
       (Resolved (Ref (length (heap w))),
        World (heap w ++ [OPlugin (FModem m) (get_prop_opt opts' "name") []])
              rest (dialed w ++ [(m, c)])) /\
     path c = "/plugins/" +:+ to_string id' +:+ "/upgrade?" /\
     options c = Some opts').
Proof.
  intros Hthis Hm Hwire Hok. split.
  - intros Hname. split; eexists; split_and!.
    1: { unfold Plugin.create. evaluate. reflexivity. }
    1-2: reflexivity.
    1: { unfold Plugin.install. evaluate. reflexivity. }
    all: reflexivity.
  - assert (Hbag : readable (if negb (truthy opts) then VObj [] else opts)).
    { destruct opts; cbn; try (split; discriminate);
        destruct (negb _); split; discriminate. }
    pose proof (get_prop_readable _ "name" Hbag) as Hget.
    eexists _, _, _. split_and!.
    1: { unfold Plugin.__processArguments. evaluate. reflexivity. }
    1: { unfold Plugin.upgrade, Plugin.__processArguments. evaluate.
         reflexivity. }
    all: reflexivity.
Qed.

Lemma plugin_create_needs_option_bag_witness :
  let w := sample [success VNull] in
  exists c,
    Plugin.create 7 VUndef w =
      (CallbackThrew TypeError, World (heap w) [] (dialed w ++ [(7, c)])) /\
    path c = "/plugins/create?" /\ options c = Some VUndef.
Proof.
  destruct (plugin_create_needs_option_bag (sample [success VNull]) 7
              (OPlugin (FModem 7) (VStr "mine") []) 7 VUndef
              (success VNull) []) as [H _]; try reflexivity.
  destruct H as [H _]; [reflexivity|]. exact H.
Defined.

(** X25.  [attach] and [wsattach] resolve, when the callback receives
    no error, with the pair of the delivered stream and the receiver
    itself, and construct nothing.  [attach], given a bag other than
    [null], posts to the [attach] path as a stream with [openStdin]
    read from the bag's [stdin]; [wsattach] is a GET on [attach/ws]
    that sets neither flag. *)
Theorem attach_resolves_with_stream_and_receiver
    (w : world) (this : loc) (o : obj) (m : Modem) (opts : value)
    (r : response) (rest : list response) :
  heap w !! this = Some o ->
  obj_modem o = Normal m ->
  opts <> VNull ->
  wire w = r :: rest ->
  failed r = false ->
  let bag := default_param (VObj []) opts in
  let base := "/containers/" +:+ to_string (obj_id o) in
  let after c :=
    (Resolved (Pair (result r) this),
     World (heap w) rest (dialed w ++ [(m, c)])) in
  (exists c, Container.attach this opts w = after c /\
             path c = base +:+ "/attach?" /\ method c = POST /\
             options c = Some bag /\
             isStream c = Some (VBool true) /\
             openStdin c = Some (get_prop_opt bag "stdin")) /\
  (exists c, Container.wsattach this opts w = after c /\
             path c = base +:+ "/attach/ws?" /\ method c = GET /\
             options c = Some opts /\
             isStream c = None /\ openStdin c = None).
Proof.
  intros Hthis Hm Hopts Hwire Hok bag base after. subst bag base after.
  assert (Hbag : readable (default_param (VObj []) opts)).
  { destruct opts; split; done. }
  pose proof (get_prop_readable _ "stdin" Hbag) as Hin.
  cbn beta. split; eexists; split_and!.
  1: { unfold Container.attach. evaluate. reflexivity. }
  1-5: reflexivity.
  1: { unfold Container.wsattach. evaluate. reflexivity. }
  all: reflexivity.
Qed.

Lemma attach_resolves_with_stream_and_receiver_witness :
  let w := sample [success (VStream [] false)] in
  let after c :=
    (Resolved (Pair (VStream [] false) 0),
     World (heap w) [] (dialed w ++ [(7, c)])) in
  (exists c, Container.attach 0 (VObj [("stdin", VBool true)]) w = after c /\
             path c = "/containers/abc/attach?" /\ method c = POST /\
             options c = Some (VObj [("stdin", VBool true)]) /\
             isStream c = Some (VBool true) /\
             openStdin c = Some (VBool true)) /\
  (exists c, Container.wsattach 0 (VObj [("stdin", VBool true)]) w = after c /\
             path c = "/containers/abc/attach/ws?" /\ method c = GET /\
             options c = Some (VObj [("stdin", VBool true)]) /\
             isStream c = None /\ openStdin c = None).
Proof.
  apply (attach_resolves_with_stream_and_receiver
           (sample [success (VStream [] false)]) 0
           (OContainer 7 (VStr "abc") 1 2 (VArr []) VUndef) 7
           (VObj [("stdin", VBool true)]) (success (VStream [] false)) []);
    try reflexivity; discriminate.
Defined.

(** X26.  [Swarm.init] resolves, when the callback receives no error,
    with a new node handle on the receiver's collaborator whose
    identifier is the delivered body itself and whose snapshot is
    still [{}]; the swarm object is left as it was. *)
Theorem swarm_init_names_node_by_response
    (w : world) (this : loc) (m : Modem) (data opts : value)
    (r : response) (rest : list response) :
  heap w !! this = Some (OSwarm m data) ->
  wire w = r :: rest ->
  failed r = false ->
  exists c,
    Swarm.init this opts w =
      (Resolved (Ref (length (heap w))),
       World (heap w ++ [OHandle KNode m (result r) (VObj [])]) rest
             (dialed w ++ [(m, c)])) /\
    path c = "/swarm/init?" /\ method c = POST /\ options c = Some opts.
Proof.
  intros Hthis Hwire Hok. eexists. split_and!.
  1: { unfold Swarm.init. evaluate. reflexivity. }
  all: reflexivity.
Qed.

Lemma swarm_init_names_node_by_response_witness :
  let w := World [OSwarm 7 (VObj [])] [success (VStr "node1")] [] in
  exists c,
    Swarm.init 0 VUndef w =
      (Resolved (Ref 1),
       World (heap w ++ [OHandle KNode 7 (VStr "node1") (VObj [])]) []
             (dialed w ++ [(7, c)])) /\
    path c = "/swarm/init?" /\ method c = POST /\ options c = Some VUndef.
Proof.
  apply (swarm_init_names_node_by_response
           (World [OSwarm 7 (VObj [])] [success (VStr "node1")] [])
           0 7 (VObj []) VUndef (success (VStr "node1")) []); reflexivity.
Defined.

(** X27.  [Exec.create], called on an exec session, posts to the
    [exec] path of the session's container and, the callback
    receiving no error and a body that is neither [null] nor
    [undefined], resolves with a new session bound to that same
    container, named by the body's [Id] and holding the body; the
    receiver is left as it was. *)
Theorem exec_create_builds_sibling_session
    (w : world) (this cont : loc) (m : Modem) (id data opts : value)
    (co : obj) (r : response) (rest : list response) :
  heap w !! this = Some (OExec m cont id data) ->
  heap w !! cont = Some co ->
  wire w = r :: rest ->
  failed r = false ->
  readable (result r) ->
  exists c,
    Exec.create this opts w =
      (Resolved (Ref (length (heap w))),
       World (heap w ++
                [OExec m cont (get_prop_opt (result r) "Id") (result r)])
             rest (dialed w ++ [(m, c)])) /\
    path c = "/containers/" +:+ to_string (obj_id co) +:+ "/exec?" /\
    method c = POST /\ options c = Some opts.
Proof.
  intros Hthis Hcont Hwire Hok Hread.
  pose proof (get_prop_readable _ "Id" Hread) as Hget.
  eexists. split_and!.
  1: { unfold Exec.create. evaluate. reflexivity. }
  all: reflexivity.
Qed.

Lemma exec_create_builds_sibling_session_witness :
  let body := VObj [("Id", VStr "e2")] in
  let w := sample [success body] in
  exists c,
    Exec.create 5 VUndef w =
      (Resolved (Ref 8),
       World (heap w ++ [OExec 7 0 (VStr "e2") body]) []
             (dialed w ++ [(7, c)])) /\
    path c = "/containers/abc/exec?" /\
    method c = POST /\ options c = Some VUndef.
Proof.
  apply (exec_create_builds_sibling_session
           (sample [success (VObj [("Id", VStr "e2")])]) 5 0 7
           (VStr "e1") (VObj []) VUndef
           (OContainer 7 (VStr "abc") 1 2 (VArr []) VUndef)
           (success (VObj [("Id", VStr "e2")])) []);
    try reflexivity.
  split; discriminate.
Defined.
